(** * iCal_from_excel: week expressions, course cells and the schedule expander

    A shallow embedding of [src/iCal_from_excel.py].  Python [str] values are
    sequences of Unicode code points, [int] values are unbounded integers,
    and the exceptions the source catches (or lets escape) are explicit
    outcomes. *)

From Stdlib Require Import String Ascii ZArith NArith Lia Bool List Sorting.Sorted
  Sorting.Permutation.
Import ListNotations.

(** ** Python strings *)

(** A code point. *)
Definition char := N.

(** A Python [str]. *)
Definition pystr := list char.

Fixpoint codes (s : string) : list N :=
  match s with
  | EmptyString => []
  | String a r => N_of_ascii a :: codes r
  end.

(** String literals of this file are written in UTF-8; [utf8_decode] turns
    their bytes into the code points Python sees. *)
Fixpoint utf8_decode (bs : list N) : pystr :=
  match bs with
  | [] => []
  | b0 :: r0 =>
    if (b0 <? 0x80)%N then b0 :: utf8_decode r0
    else if (b0 <? 0xE0)%N then
      match r0 with
      | b1 :: r1 => ((b0 - 0xC0) * 64 + (b1 - 0x80))%N :: utf8_decode r1
      | _ => []
      end
    else if (b0 <? 0xF0)%N then
      match r0 with
      | b1 :: b2 :: r2 =>
        ((b0 - 0xE0) * 4096 + (b1 - 0x80) * 64 + (b2 - 0x80))%N :: utf8_decode r2
      | _ => []
      end
    else
      match r0 with
      | b1 :: b2 :: b3 :: r3 =>
        ((b0 - 0xF0) * 262144 + (b1 - 0x80) * 4096 + (b2 - 0x80) * 64 + (b3 - 0x80))%N
          :: utf8_decode r3
      | _ => []
      end
  end.

Definition py (s : string) : pystr := utf8_decode (codes s).

(** Single characters used by the source. *)
Definition ch_nl : char := 10%N.       (* '\n' *)
Definition ch_cr : char := 13%N.       (* '\r' *)
Definition ch_space : char := 32%N.    (* ' ' *)
Definition ch_plus : char := 43%N.     (* '+' *)
Definition ch_comma : char := 44%N.    (* ',' *)
Definition ch_minus : char := 45%N.    (* '-' *)
Definition ch_zero : char := 48%N.     (* '0' *)
Definition ch_lbrack : char := 91%N.   (* '[' *)
Definition ch_rbrack : char := 93%N.   (* ']' *)
Definition ch_under : char := 95%N.    (* '_' *)

(** ** Character classes

    [str.strip], [\d], [str.isdigit] and [int] consult CPython's Unicode
    database, which is not part of the repository.  The white-space table
    ([Py_UNICODE_ISSPACE]) is short and written out.  The decimal-digit and
    digit tables are fixed here on ASCII and on the CJK unified ideographs
    (U+4E00..U+9FFF, none of which is a digit); on every other code point
    they are taken from [unicode_tables]. *)

Definition is_space (c : char) : bool :=
  ((9 <=? c) && (c <=? 13) || (28 <=? c) && (c <=? 32)
   || (c =? 0x85) || (c =? 0xA0) || (c =? 0x1680)
   || (0x2000 <=? c) && (c <=? 0x200A)
   || (c =? 0x2028) || (c =? 0x2029) || (c =? 0x202F) || (c =? 0x205F)
   || (c =? 0x3000))%N.

Record unicode_tables := {
  decimal_ext : char -> option Z;   (* Py_UNICODE_TODECIMAL *)
  digit_ext : char -> bool          (* Py_UNICODE_ISDIGIT *)
}.

(** The tables with no digit outside ASCII, for closed runs of the model. *)
Definition ascii_digits_only : unicode_tables :=
  {| decimal_ext := fun _ => None; digit_ext := fun _ => false |}.

Definition is_cjk (c : char) : bool := ((0x4E00 <=? c) && (c <=? 0x9FFF))%N.

Definition is_ascii_digit (c : char) : bool := ((48 <=? c) && (c <=? 57))%N.

Section Strings.

Variable U : unicode_tables.

Definition to_decimal (c : char) : option Z :=
  if (c <? 128)%N then
    if is_ascii_digit c then Some (Z.of_N (c - 48)) else None
  else if is_cjk c then None
  else decimal_ext U c.

(** [\d] of the [re] module on [str] patterns. *)
Definition is_decimal (c : char) : bool :=
  match to_decimal c with Some _ => true | None => false end.

Definition ch_isdigit (c : char) : bool :=
  if (c <? 128)%N then is_ascii_digit c
  else if is_cjk c then false
  else digit_ext U c.

(** [s == t] *)
Fixpoint str_eqb (s t : pystr) : bool :=
  match s, t with
  | [], [] => true
  | a :: s', b :: t' => (a =? b)%N && str_eqb s' t'
  | _, _ => false
  end.

(** [s.startswith(p)] *)
Fixpoint starts_with (p s : pystr) : bool :=
  match p, s with
  | [], _ => true
  | a :: p', b :: s' => (a =? b)%N && starts_with p' s'
  | _ :: _, [] => false
  end.

(** [sub in s] *)
Fixpoint contains (sub s : pystr) : bool :=
  starts_with sub s ||
  match s with
  | [] => false
  | _ :: s' => contains sub s'
  end.

(** [s.replace(old, new)] for a non-empty [old]: occurrences are replaced
    from left to right without overlap.  [skip] counts the characters of an
    occurrence that are still to be dropped. *)
Fixpoint replace_from (old new s : pystr) (skip : nat) : pystr :=
  match s with
  | [] => []
  | c :: s' =>
    match skip with
    | S n => replace_from old new s' n
    | O =>
      if starts_with old s then new ++ replace_from old new s' (length old - 1)
      else c :: replace_from old new s' 0
    end
  end.

Definition replace (old new s : pystr) : pystr := replace_from old new s 0.

(** [s.split(sep)] for a one-character separator. *)
Fixpoint split (sep : char) (s : pystr) : list pystr :=
  match s with
  | [] => [[]]
  | c :: s' =>
    if (c =? sep)%N then [] :: split sep s'
    else
      match split sep s' with
      | p :: ps => (c :: p) :: ps
      | [] => [[c]]
      end
  end.

Fixpoint lstrip (s : pystr) : pystr :=
  match s with
  | c :: s' => if is_space c then lstrip s' else s
  | [] => []
  end.

Definition rstrip (s : pystr) : pystr := rev (lstrip (rev s)).

(** [s.strip()] *)
Definition strip (s : pystr) : pystr := rstrip (lstrip s).

(** [s.isdigit()] *)
Definition isdigit (s : pystr) : bool :=
  match s with
  | [] => false
  | _ => forallb ch_isdigit s
  end.

(** *** [int(s)]

    CPython first maps white space and decimal digits beyond ASCII to
    ASCII, then reads white space, an optional sign, and decimal digits in
    which single underscores may separate digits.  A numeral of more than
    [sys.int_info.default_max_str_digits] digits is refused: leading zeros
    count, underscores, the sign and the white space around do not.  The
    program never calls [sys.set_int_max_str_digits], so the limit is the
    interpreter's default.  [None] is [ValueError]. *)

Definition int_max_str_digits : N := 4300.

Definition int_space (c : char) : bool :=
  if (c <? 127)%N then ((9 <=? c) && (c <=? 13) || (c =? 32))%N
  else is_space c.

(** Digits after the first one; [after_digit] tells whether the previous
    character was a digit (an underscore is only allowed there). *)
Fixpoint int_digits (acc : Z) (after_digit : bool) (s : pystr) : option Z :=
  match s with
  | [] => if after_digit then Some acc else None
  | c :: s' =>
    match to_decimal c with
    | Some d => int_digits (acc * 10 + d) true s'
    | None =>
      if (c =? ch_under)%N && after_digit then int_digits acc false s'
      else None
    end
  end.

Definition int_unsigned (s : pystr) : option Z :=
  match s with
  | [] => None
  | c :: s' =>
    match to_decimal c with
    | Some d => int_digits d true s'
    | None => None
    end
  end.

(** The number of digits that the limit counts. *)
Definition int_digit_count (s : pystr) : N := N.of_nat (length (filter is_decimal s)).

Definition int_limited (s : pystr) : option Z :=
  if (int_max_str_digits <? int_digit_count s)%N then None else int_unsigned s.

Fixpoint int_lstrip (s : pystr) : pystr :=
  match s with
  | c :: s' => if int_space c then int_lstrip s' else s
  | [] => []
  end.

Definition py_int (s : pystr) : option Z :=
  let t := rev (int_lstrip (rev (int_lstrip s))) in
  match t with
  | c :: t' =>
    if (c =? ch_plus)%N then int_limited t'
    else if (c =? ch_minus)%N then option_map Z.opp (int_limited t')
    else int_limited t
  | [] => None
  end.

End Strings.

(** [str(n)] for an [int]. *)
Fixpoint digits_of (fuel : nat) (n : N) (acc : pystr) : pystr :=
  match fuel with
  | O => acc
  | S f =>
    let acc' := (48 + n mod 10)%N :: acc in
    if (n <? 10)%N then acc' else digits_of f (n / 10)%N acc'
  end.

Definition str_of_N (n : N) : pystr := digits_of (S (N.to_nat (N.log2 n))) n [].

Definition str_of_int (z : Z) : pystr :=
  if (z <? 0)%Z then ch_minus :: str_of_N (Z.abs_N z) else str_of_N (Z.abs_N z).

(** ** Regular expressions

    The fragment of Python's [re] syntax that the source uses, matched by
    backtracking in the order [re] tries things: alternatives left to
    right, greedy repetition longest first, lazy repetition shortest
    first. *)

Inductive cclass :=
  | CDigit                 (* \d *)
  | CDot                   (* .  *)
  | CLit (c : char).

Inductive regex :=
  | RText (t : pystr)            (* literal text *)
  | ROne (k : cclass)            (* one character of a class *)
  | RPlus (k : cclass)           (* k+  *)
  | RStarLazy (k : cclass)       (* k*? *)
  | RSeq (r1 r2 : regex)
  | RAlt (r1 r2 : regex)         (* r1|r2 *)
  | ROpt (r : regex)             (* r? *)
  | RGroup (i : nat) (r : regex) (* the i-th capturing group *)
  | RBol                         (* ^ *)
  | REol.                        (* $ *)

Definition groups := list (nat * pystr).

(** A match object: where the match starts and ends, and its groups. *)
Record mobj := { m_start : nat; m_end : nat; m_groups : groups }.

Fixpoint lookup_group (i : nat) (g : groups) : pystr :=
  match g with
  | [] => []
  | (j, t) :: g' => if Nat.eqb i j then t else lookup_group i g'
  end.

(** [m.group(i)] *)
Definition group (m : mobj) (i : nat) : pystr := lookup_group i (m_groups m).

Section Regex.

Variable U : unicode_tables.

Definition in_class (k : cclass) (c : char) : bool :=
  match k with
  | CDigit => is_decimal U c
  | CDot => negb (c =? ch_nl)%N
  | CLit x => (c =? x)%N
  end.

Section Matcher.

Variable A : Type.

(** One or more characters of [k], longest first. *)
Fixpoint plus_greedy (k : cclass) (p : nat) (s : pystr)
    (cont : nat -> pystr -> option A) : option A :=
  match s with
  | c :: s' =>
    if in_class k c then
      match plus_greedy k (S p) s' cont with
      | Some a => Some a
      | None => cont (S p) s'
      end
    else None
  | [] => None
  end.

(** Zero or more characters of [k], shortest first. *)
Fixpoint star_lazy (k : cclass) (p : nat) (s : pystr)
    (cont : nat -> pystr -> option A) : option A :=
  match cont p s with
  | Some a => Some a
  | None =>
    match s with
    | c :: s' => if in_class k c then star_lazy k (S p) s' cont else None
    | [] => None
    end
  end.

(** [rmatch r p s g cont]: match [r] at offset [p], where [s] is the rest of
    the subject, then go on with [cont]. *)
Fixpoint rmatch (r : regex) (p : nat) (s : pystr) (g : groups)
    (cont : nat -> pystr -> groups -> option A) : option A :=
  match r with
  | RText t =>
    if starts_with t s then cont (p + length t) (skipn (length t) s) g else None
  | ROne k =>
    match s with
    | c :: s' => if in_class k c then cont (S p) s' g else None
    | [] => None
    end
  | RPlus k => plus_greedy k p s (fun p' s' => cont p' s' g)
  | RStarLazy k => star_lazy k p s (fun p' s' => cont p' s' g)
  | RSeq r1 r2 => rmatch r1 p s g (fun p' s' g' => rmatch r2 p' s' g' cont)
  | RAlt r1 r2 =>
    match rmatch r1 p s g cont with
    | Some a => Some a
    | None => rmatch r2 p s g cont
    end
  | ROpt r1 =>
    match rmatch r1 p s g cont with
    | Some a => Some a
    | None => cont p s g
    end
  | RGroup i r1 =>
    rmatch r1 p s g (fun p' s' g' => cont p' s' ((i, firstn (p' - p) s) :: g'))
  | RBol => if Nat.eqb p 0 then cont p s g else None
  | REol =>
    match s with
    | [] => cont p s g
    | [c] => if (c =? ch_nl)%N then cont p s g else None
    | _ => None
    end
  end.

End Matcher.

Arguments plus_greedy {A} k p s cont.
Arguments star_lazy {A} k p s cont.
Arguments rmatch {A} r p s g cont.

(** A match of [r] starting at offset [p]. *)
Definition match_at (r : regex) (p : nat) (s : pystr) : option mobj :=
  rmatch r p s [] (fun p' _ g => Some {| m_start := p; m_end := p'; m_groups := g |}).

(** [re.match(r, s)] *)
Definition re_match (r : regex) (s : pystr) : option mobj := match_at r 0 s.

Fixpoint search_from (r : regex) (p : nat) (s : pystr) : option mobj :=
  match match_at r p s with
  | Some m => Some m
  | None =>
    match s with
    | [] => None
    | _ :: s' => search_from r (S p) s'
    end
  end.

(** [re.search(r, s)] *)
Definition re_search (r : regex) (s : pystr) : option mobj := search_from r 0 s.

(** The matches of [r] from left to right without overlap; [skip] counts
    the characters of the last match still to be passed.  The patterns of
    this program match at least one character. *)
Fixpoint finditer_from (r : regex) (p : nat) (s : pystr) (skip : nat) : list mobj :=
  match s with
  | [] => []
  | _ :: s' =>
    match skip with
    | S n => finditer_from r (S p) s' n
    | O =>
      match match_at r p s with
      | Some m => m :: finditer_from r (S p) s' (m_end m - p - 1)
      | None => finditer_from r (S p) s' 0
      end
    end
  end.

(** [re.findall(r, s)] for a pattern with one group. *)
Definition re_findall (r : regex) (s : pystr) : list pystr :=
  map (fun m => group m 1) (finditer_from r 0 s 0).

(** [re.sub(r, repl, s)] for a replacement text without group references. *)
Fixpoint sub_from (r : regex) (repl : pystr) (p : nat) (s : pystr) (skip : nat) : pystr :=
  match s with
  | [] => []
  | c :: s' =>
    match skip with
    | S n => sub_from r repl (S p) s' n
    | O =>
      match match_at r p s with
      | Some m => repl ++ sub_from r repl (S p) s' (m_end m - p - 1)
      | None => c :: sub_from r repl (S p) s' 0
      end
    end
  end.

Definition re_sub (r : regex) (repl s : pystr) : pystr := sub_from r repl 0 s 0.

End Regex.

Arguments plus_greedy U {A} k p s cont.
Arguments star_lazy U {A} k p s cont.
Arguments rmatch U {A} r p s g cont.

(** Text constants of the source. *)
Definition txt_odd_week : pystr := Eval vm_compute in py "单周".
Definition txt_even_week : pystr := Eval vm_compute in py "双周".
Definition txt_week : pystr := Eval vm_compute in py "周".
Definition txt_period : pystr := Eval vm_compute in py "节".
Definition txt_ordinal : pystr := Eval vm_compute in py "第".

(** The patterns of the source. *)

(** [\d+-\d+] *)
Definition re_range : regex :=
  RSeq (RPlus CDigit) (RSeq (RText [ch_minus]) (RPlus CDigit)).

(** [^(\d+-\d+|\d+)(单周|双周|周)?$] *)
Definition pat_week : regex :=
  RSeq RBol
    (RSeq (RGroup 1 (RAlt re_range (RPlus CDigit)))
       (RSeq (ROpt (RGroup 2 (RAlt (RText txt_odd_week)
                                (RAlt (RText txt_even_week) (RText txt_week)))))
          REol)).

(** [^\d+-\d+节$] *)
Definition pat_time : regex :=
  RSeq RBol (RSeq re_range (RSeq (RText txt_period) REol)).

(** [^\d] *)
Definition pat_digit_start : regex := RSeq RBol (ROne CDigit).

(** [^\d+-\d+] *)
Definition pat_range_start : regex := RSeq RBol re_range.

(** [\[(.*?)\]] *)
Definition pat_bracket : regex :=
  RSeq (RText [ch_lbrack]) (RSeq (RGroup 1 (RStarLazy CDot)) (RText [ch_rbrack])).

(** [^\[|\]$] *)
Definition pat_outer_bracket : regex :=
  RAlt (RSeq RBol (RText [ch_lbrack])) (RSeq (RText [ch_rbrack]) REol).

(** [第(\d+)-(\d+)节] *)
Definition pat_slot : regex :=
  RSeq (RText txt_ordinal)
    (RSeq (RGroup 1 (RPlus CDigit))
       (RSeq (RText [ch_minus])
          (RSeq (RGroup 2 (RPlus CDigit)) (RText txt_period)))).

(** ** Python values, exceptions and diagnostics *)

(** The values a spreadsheet cell or a caller can hand over.  [PObj] stands
    for any other object (a float, a date), known by its truth value and
    its [str()]. *)
Inductive pyval :=
  | PNone
  | PBool (b : bool)
  | PInt (z : Z)
  | PStr (s : pystr)
  | PObj (truthy : bool) (text : pystr).

(** [bool(v)] *)
Definition truthy (v : pyval) : bool :=
  match v with
  | PNone => false
  | PBool b => b
  | PInt z => negb (z =? 0)%Z
  | PStr s => match s with [] => false | _ => true end
  | PObj t _ => t
  end.

(** [str(v)].  For an [int], [str] has the digit limit of [int] as well;
    it is left out here: the week of line 194 has passed [timedelta] by
    then, and an [int] cell was produced by the reader from a numeral that
    [int] accepted or from a 64-bit number. *)
Definition py_str (v : pyval) : pystr :=
  match v with
  | PNone => py "None"
  | PBool true => py "True"
  | PBool false => py "False"
  | PInt z => str_of_int z
  | PStr s => s
  | PObj _ t => t
  end.

Inductive exn := ValueError | OverflowError | IndexError.

Inductive outcome (A : Type) :=
  | Returned (a : A)
  | Raised (e : exn).

Arguments Returned {A} a.
Arguments Raised {A} e.

(** [CourseRecord]: the dict built by [parse_course_info]. *)
Record course := {
  course_name : pystr;
  teacher : pystr;
  class_info : pystr;
  week_info : pystr;
  location : pystr;
  time_info : pystr
}.

(** What the program prints for a skipped unit, with the values it puts in
    the message. *)
Inductive diag :=
  | DiagWeeks (e : exn) (week_str : pystr)         (* 解析周次出错 *)
  | DiagUnknownSlot (time_slot : pyval)            (* 忽略未知时间段 *)
  | DiagCellFailed (cell_content : pyval)          (* 解析失败 *)
  | DiagNoWeeks (week_info : pystr)                (* 无有效周次 *)
  | DiagEventFailed (e : exn) (course_info : course). (* 创建事件失败 *)

(** ** Week Expression Parser: [parse_weeks] *)

(** [range(lo, hi)] *)
Definition py_range (lo hi : Z) : list Z :=
  map (fun i => (lo + Z.of_nat i)%Z) (seq 0 (Z.to_nat (hi - lo))).

(** [set(l)]: the elements of [l], each once. *)
Definition py_set (l : list Z) : list Z := nodup Z.eq_dec l.

Fixpoint insert_sorted (x : Z) (l : list Z) : list Z :=
  match l with
  | [] => [x]
  | y :: l' => if (x <=? y)%Z then x :: l else y :: insert_sorted x l'
  end.

(** [sorted(l)] *)
Definition py_sorted (l : list Z) : list Z := fold_right insert_sorted [] l.

(** The test of lines 96 and 100. *)
Definition keep_week (is_odd is_even : bool) (week : Z) : bool :=
  (is_odd && (week mod 2 =? 1)%Z) || (is_even && (week mod 2 =? 0)%Z)
  || (negb is_odd && negb is_even).

Section Parsers.

Variable U : unicode_tables.

(** One turn of the loop of line 91: the weeks the part appends, or the
    exception it raises.  [start, end = map(int, ...)] raises [ValueError]
    when a piece is not an integer or when there are not exactly two. *)
Definition parse_part (is_odd is_even : bool) (part0 : pystr) : outcome (list Z) :=
  let part := strip part0 in
  if contains [ch_minus] part then
    match split ch_minus part with
    | [a; b] =>
      match py_int U a, py_int U b with
      | Some start, Some stop =>
        Returned (filter (keep_week is_odd is_even) (py_range start (stop + 1)))
      | _, _ => Raised ValueError
      end
    | _ => Raised ValueError
    end
  else if isdigit U part then
    match py_int U part with
    | Some week => Returned (if keep_week is_odd is_even week then [week] else [])
    | None => Raised ValueError
    end
  else Returned [].

Fixpoint parse_parts (is_odd is_even : bool) (parts : list pystr) (weeks : list Z)
    : outcome (list Z) :=
  match parts with
  | [] => Returned weeks
  | part :: rest =>
    match parse_part is_odd is_even part with
    | Returned ws => parse_parts is_odd is_even rest (weeks ++ ws)
    | Raised e => Raised e
    end
  end.

(** Line 88: the text left once the markers are removed. *)
Definition clean_weeks (week_str : pystr) : pystr :=
  replace txt_week [] (replace txt_even_week [] (replace txt_odd_week [] week_str)).

(** The body of the [try] of [parse_weeks]. *)
Definition parse_weeks_body (week_str0 : pystr) : outcome (list Z) :=
  let week_str := strip week_str0 in
  let is_odd := contains txt_odd_week week_str in
  let is_even := contains txt_even_week week_str in
  match parse_parts is_odd is_even (split ch_comma (clean_weeks week_str)) [] with
  | Returned weeks => Returned (py_sorted (py_set weeks))
  | Raised e => Raised e
  end.

(** [parse_weeks(week_str)]: the list returned and what is printed.  The
    handler prints the local [week_str], which by then holds the stripped
    text without its markers. *)
Definition parse_weeks (week_str : pyval) : list Z * list diag :=
  if negb (truthy week_str) then ([], [])
  else
    match week_str with
    | PStr s =>
      match parse_weeks_body s with
      | Returned weeks => (weeks, [])
      | Raised e => ([], [DiagWeeks e (clean_weeks (strip s))])
      end
    | _ => ([], [])          (* not isinstance(week_str, str) *)
    end.

(** ** Course Cell Parser: [parse_course_info] *)

(** Lines 30 and 31. *)
Definition cell_lines (cell_content : pystr) : list pystr :=
  let content := strip (replace [ch_cr; ch_nl] [ch_nl] cell_content) in
  map strip
    (filter (fun line => truthy (PStr (strip line))) (split ch_nl content)).

Definition keywords : list pystr :=
  Eval vm_compute in
    [py "栋"; py "教"; py "楼"; py "园"; py "场"; py "实验室"].

Definition is_some {A : Type} (o : option A) : bool :=
  match o with Some _ => true | None => false end.

Definition set_week_info (r : course) (v : pystr) : course :=
  {| course_name := course_name r; teacher := teacher r; class_info := class_info r;
     week_info := v; location := location r; time_info := time_info r |}.

Definition set_location (r : course) (v : pystr) : course :=
  {| course_name := course_name r; teacher := teacher r; class_info := class_info r;
     week_info := week_info r; location := v; time_info := time_info r |}.

Definition set_time_info (r : course) (v : pystr) : course :=
  {| course_name := course_name r; teacher := teacher r; class_info := class_info r;
     week_info := week_info r; location := location r; time_info := v |}.

(** One turn of the loop of line 50. *)
Definition classify (result : course) (content : pystr) : course :=
  if is_some (re_match U pat_week content) then set_week_info result content
  else if is_some (re_match U pat_time content) then set_time_info result content
  else if existsb (fun keyword => contains keyword content) keywords
    then set_location result content
  else if negb (truthy (PStr (week_info result)))
          && is_some (re_match U pat_digit_start content)
    then set_week_info result content
  else if negb (truthy (PStr (time_info result)))
          && is_some (re_match U pat_range_start content)
    then set_time_info result content
  else set_location result content.

(** [parse_course_info(cell_content)].  No operation of the [try] body
    raises on a [str], so the handler of line 69 is never entered. *)
Definition parse_course_info (cell_content : pyval) : option course :=
  match cell_content with
  | PStr s =>
    if negb (truthy cell_content) || str_eqb (strip s) [] then None
    else
      match cell_lines s with
      | l0 :: l1 :: l2 :: l3 :: _ =>
        let result :=
          {| course_name := strip (hd [] (split ch_lbrack l0));
             teacher := re_sub U pat_outer_bracket [] l1;
             class_info := re_sub U pat_outer_bracket [] l2;
             week_info := []; location := []; time_info := [] |} in
        Some (fold_left classify (re_findall U pat_bracket l3) result)
      | _ => None        (* len(lines) < 4 *)
      end
  | _ => None            (* not isinstance(cell_content, str) *)
  end.

End Parsers.

(** ** Dates

    A [datetime] is kept as the proleptic Gregorian ordinal of its date
    ([date.toordinal()]) with its hour and minute; seconds and microseconds
    stay zero throughout the program. *)

Record datetime := { ordinal : Z; hour : Z; minute : Z }.

Definition is_leap (y : Z) : bool :=
  ((y mod 4 =? 0) && (negb (y mod 100 =? 0) || (y mod 400 =? 0)))%Z.

Definition days_before_year (y : Z) : Z :=
  ((y - 1) * 365 + (y - 1) / 4 - (y - 1) / 100 + (y - 1) / 400)%Z.

Definition days_in_month (y m : Z) : Z :=
  (if m =? 2 then (if is_leap y then 29 else 28)
   else if (m =? 4) || (m =? 6) || (m =? 9) || (m =? 11) then 30 else 31)%Z.

Definition days_before_month (y m : Z) : Z :=
  fold_right Z.add 0%Z
    (map (fun i => days_in_month y (Z.of_nat i)) (seq 1 (Z.to_nat (m - 1)))).

(** [datetime(y, m, d)] *)
Definition datetime_ymd (y m d : Z) : datetime :=
  {| ordinal := days_before_year y + days_before_month y m + d;
     hour := 0; minute := 0 |}.

(** [d.weekday()]: Monday is 0. *)
Definition weekday_of (d : datetime) : Z := ((ordinal d + 6) mod 7)%Z.

(** [date.max.toordinal()], 31 December 9999. *)
Definition MAXORDINAL : Z := 3652059.

(** The largest number of days a [timedelta] holds. *)
Definition MAX_DELTA_DAYS : Z := 999999999.

(** [d + timedelta(weeks=w, days=n)] *)
Definition add_weeks_days (d : datetime) (w n : Z) : outcome datetime :=
  let days := (7 * w + n)%Z in
  if (MAX_DELTA_DAYS <? Z.abs days)%Z then Raised OverflowError
  else
    let o := (ordinal d + days)%Z in
    if ((o <? 1) || (MAXORDINAL <? o))%Z then Raised OverflowError
    else Returned {| ordinal := o; hour := hour d; minute := minute d |}.

(** [d.replace(hour=h, minute=m)] *)
Definition replace_time (d : datetime) (h m : Z) : datetime :=
  {| ordinal := ordinal d; hour := h; minute := m |}.

(** ** Schedule Expander: [create_ical_from_excel] *)

(** Line 123. *)
Definition semester_start : datetime := datetime_ymd 2025 2 17.

(** Line 124. *)
Definition weekday_map : list (pystr * Z) :=
  Eval vm_compute in
    [(py "星期一", 0%Z); (py "星期二", 1%Z); (py "星期三", 2%Z); (py "星期四", 3%Z);
     (py "星期五", 4%Z); (py "星期六", 5%Z); (py "星期日", 6%Z)].

(** Line 126. *)
Definition class_time_map : list (pystr * (Z * Z * Z * Z)) :=
  Eval vm_compute in
    [(py "1-2节", (8, 0, 9, 50)%Z);
     (py "3-4节", (10, 10, 12, 0)%Z);
     (py "5-6节", (14, 0, 15, 50)%Z);
     (py "7-8节", (16, 0, 17, 50)%Z);
     (py "9-10节", (19, 0, 20, 50)%Z)].

(** [d.get(key)] on a dict with [str] keys. *)
Fixpoint dict_get {V : Type} (d : list (pystr * V)) (key : pystr) : option V :=
  match d with
  | [] => None
  | (k, v) :: d' => if str_eqb key k then Some v else dict_get d' key
  end.

(** Looking up any value: only a [str] can be one of the keys. *)
Definition dict_get_val {V : Type} (d : list (pystr * V)) (key : pyval) : option V :=
  match key with
  | PStr s => dict_get d s
  | _ => None
  end.

(** The frame read from the sheet: its rows, top to bottom.  pandas frames
    are rectangular. *)
Definition DataFrame := list (list pyval).

(** [df.iloc[r, c]] *)
Definition iloc (df : DataFrame) (r c : nat) : outcome pyval :=
  match nth_error df r with
  | Some row =>
    match nth_error row c with
    | Some v => Returned v
    | None => Raised IndexError
    end
  | None => Raised IndexError
  end.

(** An event of the calendar.  [dtstamp], the time of creation, is left
    out. *)
Record event := {
  summary : pystr;
  description : pystr;
  place : pystr;
  dtstart : datetime;
  dtend : datetime
}.

Definition txt_teacher : pystr := Eval vm_compute in py "教师: ".
Definition txt_class : pystr := Eval vm_compute in py "班级: ".
Definition txt_weekno : pystr := Eval vm_compute in py "周次: 第".
Definition txt_time : pystr := Eval vm_compute in py "时间: ".
Definition txt_place : pystr := Eval vm_compute in py "地点: ".

(** Lines 192 to 196. *)
Definition describe (course_info : course) (week : Z) (time_key : pystr) : pystr :=
  txt_teacher ++ teacher course_info ++ [ch_nl]
  ++ txt_class ++ class_info course_info ++ [ch_nl]
  ++ txt_weekno ++ str_of_int week ++ txt_week ++ [ch_nl]
  ++ txt_time ++ time_key ++ [ch_nl]
  ++ txt_place ++ location course_info.

(** The body of the [try] of line 176, for the day offset and the clock
    range that lines 155 and 148 found in the two tables. *)
Definition make_event (course_info : course) (time_key : pystr)
    (offset : Z) (clock : Z * Z * Z * Z) (week : Z) : outcome event :=
  match add_weeks_days semester_start (week - 1) offset with
  | Raised e => Raised e
  | Returned course_date =>
    let '(start_h, start_m, end_h, end_m) := clock in
    Returned {| summary := course_name course_info;
                description := describe course_info week time_key;
                place := location course_info;
                dtstart := replace_time course_date start_h start_m;
                dtend := replace_time course_date end_h end_m |}
  end.

(** The loop of line 175: the events added and what is printed. *)
Fixpoint week_loop (course_info : course) (time_key : pystr)
    (offset : Z) (clock : Z * Z * Z * Z) (weeks : list Z) : list event * list diag :=
  match weeks with
  | [] => ([], [])
  | week :: rest =>
    let '(evs, ds) := week_loop course_info time_key offset clock rest in
    match make_event course_info time_key offset clock week with
    | Returned e => (e :: evs, ds)
    | Raised x => (evs, DiagEventFailed x course_info :: ds)
    end
  end.

Section Expander.

Variable U : unicode_tables.

(** One turn of the loop of line 153. *)
Definition do_column (df : DataFrame) (row_idx : nat) (time_key : pystr)
    (clock : Z * Z * Z * Z) (col_idx : nat) : outcome (list event * list diag) :=
  match iloc df 2 col_idx with
  | Raised e => Raised e
  | Returned weekday =>
    match (if truthy weekday then dict_get_val weekday_map weekday else None) with
    | None => Returned ([], [])
    | Some offset =>
      match iloc df row_idx col_idx with
      | Raised e => Raised e
      | Returned cell_content =>
        if negb (truthy cell_content) || str_eqb (strip (py_str cell_content)) []
        then Returned ([], [])
        else
          match parse_course_info U cell_content with
          | None => Returned ([], [DiagCellFailed cell_content])
          | Some course_info =>
            let '(weeks, d1) := parse_weeks U (PStr (week_info course_info)) in
            match weeks with
            | [] => Returned ([], d1 ++ [DiagNoWeeks (week_info course_info)])
            | _ =>
              let '(evs, d2) := week_loop course_info time_key offset clock weeks in
              Returned (evs, d1 ++ d2)
            end
          end
      end
    end
  end.

(** The loop of line 153 over the columns [cols]. *)
Fixpoint column_loop (df : DataFrame) (row_idx : nat) (time_key : pystr)
    (clock : Z * Z * Z * Z) (cols : list nat) : outcome (list event * list diag) :=
  match cols with
  | [] => Returned ([], [])
  | col_idx :: rest =>
    match do_column df row_idx time_key clock col_idx with
    | Raised e => Raised e
    | Returned (evs, ds) =>
      match column_loop df row_idx time_key clock rest with
      | Raised e => Raised e
      | Returned (evs', ds') => Returned (evs ++ evs', ds ++ ds')
      end
    end
  end.

(** Line 147. *)
Definition time_key_of (m : mobj) : pystr :=
  group m 1 ++ [ch_minus] ++ group m 2 ++ txt_period.

(** One turn of the loop of line 137. *)
Definition do_row (df : DataFrame) (row_idx : nat) : outcome (list event * list diag) :=
  match iloc df row_idx 0 with
  | Raised e => Raised e
  | Returned time_slot =>
    if negb (truthy time_slot) || negb (contains txt_ordinal (py_str time_slot))
    then Returned ([], [])
    else
      match re_search U pat_slot (py_str time_slot) with
      | None => Returned ([], [])
      | Some time_match =>
        if str_eqb (group time_match 1) (group time_match 2) then Returned ([], [])
        else
          let time_key := time_key_of time_match in
          match dict_get class_time_map time_key with
          | None => Returned ([], [DiagUnknownSlot time_slot])
          | Some clock => column_loop df row_idx time_key clock (seq 1 7)
          end
      end
  end.

(** The loop of line 137 over the rows [rows]. *)
Fixpoint row_loop (df : DataFrame) (rows : list nat) : outcome (list event * list diag) :=
  match rows with
  | [] => Returned ([], [])
  | row_idx :: rest =>
    match do_row df row_idx with
    | Raised e => Raised e
    | Returned (evs, ds) =>
      match row_loop df rest with
      | Raised e => Raised e
      | Returned (evs', ds') => Returned (evs ++ evs', ds ++ ds')
      end
    end
  end.

(** What a run leaves: the events of the calendar in the order they were
    added, the messages printed for skipped units, and the count returned. *)
Record run := { calendar : list event; printed : list diag; event_count : nat }.

(** [create_ical_from_excel], from the frame that [read_excel_raw] returned
    to the calendar that is written out.  An [IndexError] of [iloc] is not
    caught by the source and ends the run. *)
Definition create_ical_from_excel (df : DataFrame) : outcome run :=
  match row_loop df (seq 3 (length df - 3)) with
  | Raised e => Raised e
  | Returned (evs, ds) =>
    Returned {| calendar := evs; printed := ds; event_count := length evs |}
  end.

End Expander.

(** * Definitions of the statements and the proofs *)

(** ** Texts *)

(** [",".join(parts)] *)
Fixpoint join_comma (parts : list pystr) : pystr :=
  match parts with
  | [] => []
  | [p] => p
  | p :: rest => p ++ ch_comma :: join_comma rest
  end.

(** ["\n".join(lines)] *)
Fixpoint join_lines (lines : list pystr) : pystr :=
  match lines with
  | [] => []
  | [l] => l
  | l :: rest => l ++ ch_nl :: join_lines rest
  end.

(** The week range ["a-b"], with both numbers as [str] writes them. *)
Definition range_text (a b : Z) : pystr := str_of_int a ++ [ch_minus] ++ str_of_int b.

(** The week expression that lists the ranges [rs]. *)
Definition ranges_text (rs : list (Z * Z)) : pystr :=
  join_comma (map (fun r => range_text (fst r) (snd r)) rs).

(** The period label ["第n-m节"]. *)
Definition slot_label (n m : pystr) : pystr :=
  txt_ordinal ++ n ++ [ch_minus] ++ m ++ txt_period.

(** The value of a text of ASCII digits, read from the left. *)
Definition dval (v : Z) (ds : pystr) : Z :=
  fold_left (fun a c => (a * 10 + Z.of_N (c - 48))%Z) ds v.

(** The least number whose numeral [int] refuses for its length. *)
Definition int_str_bound : Z := (10 ^ Z.of_N int_max_str_digits)%Z.

(** The characters of a list of ranges: ASCII digits, [-] and [,]. *)
Definition range_char (c : char) : bool :=
  is_ascii_digit c || (c =? ch_minus)%N || (c =? ch_comma)%N.

Definition not_comma (c : char) : bool := negb (c =? ch_comma)%N.

(** ** The parsers, seen from outside *)

Definition map_outcome {A B : Type} (f : A -> B) (o : outcome A) : outcome B :=
  match o with
  | Returned a => Returned (f a)
  | Raised e => Raised e
  end.

(** The weeks that a week expression lists, whatever their parity: what the
    loop of line 91 collects when no filter is active (nothing when a part
    raises). *)
Definition listed_weeks (U : unicode_tables) (week_str : pystr) : list Z :=
  match parse_parts U false false (split ch_comma (clean_weeks (strip week_str))) [] with
  | Returned weeks => weeks
  | Raised _ => []
  end.

(** Lines 33 to 68 of [parse_course_info], as a function of the non-blank
    lines of the cell. *)
Definition record_of_lines (U : unicode_tables) (lines : list pystr) : option course :=
  match lines with
  | l0 :: l1 :: l2 :: l3 :: _ =>
    Some (fold_left (classify U) (re_findall U pat_bracket l3)
            {| course_name := strip (hd [] (split ch_lbrack l0));
               teacher := re_sub U pat_outer_bracket [] l1;
               class_info := re_sub U pat_outer_bracket [] l2;
               week_info := []; location := []; time_info := [] |})
  | _ => None
  end.

Section RegexChars.

Variable U : unicode_tables.
Variable Q : char -> bool.

(** Every character that [r] can consume satisfies [Q]. *)
Fixpoint re_chars (r : regex) : Prop :=
  match r with
  | RText t => forallb Q t = true
  | ROne k | RPlus k | RStarLazy k => forall c, in_class U k c = true -> Q c = true
  | RSeq r1 r2 | RAlt r1 r2 => re_chars r1 /\ re_chars r2
  | ROpt r1 | RGroup _ r1 => re_chars r1
  | RBol | REol => True
  end.

End RegexChars.

(** ** Events, as the specification words them *)

(** The ordinals a [datetime] can hold, 1 January 1 to 31 December 9999. *)
Definition date_in_range (o : Z) : bool := ((1 <=? o) && (o <=? MAXORDINAL))%Z.

(** Whether the date of a week exists. *)
Definition week_in_range (offset week : Z) : bool :=
  date_in_range (ordinal semester_start + (7 * (week - 1) + offset)).

(** The event of one week: dated [week - 1] whole weeks and [offset] days
    after the start of the semester, from the start to the end of the clock
    range. *)
Definition event_of (info : course) (time_key : pystr) (offset : Z)
    (clock : Z * Z * Z * Z) (week : Z) : event :=
  let '(start_h, start_m, end_h, end_m) := clock in
  let o := (ordinal semester_start + (7 * (week - 1) + offset))%Z in
  {| summary := course_name info;
     description := describe info week time_key;
     place := location info;
     dtstart := {| ordinal := o; hour := start_h; minute := start_m |};
     dtend := {| ordinal := o; hour := end_h; minute := end_m |} |}.

(** ** Cells and sheets of the examples *)

(** The cell of the end-to-end example. *)
Definition math_cell : pystr :=
  Eval vm_compute in
    join_lines [py "高等数学"; py "[张老师]"; py "[计算机2301]";
                py "[1-16周][教三-301][1-2节]"].

(** The record of [math_cell]. *)
Definition math_info : course :=
  Eval vm_compute in
    {| course_name := py "高等数学"; teacher := py "张老师";
       class_info := py "计算机2301"; week_info := py "1-16周";
       location := py "教三-301"; time_info := py "1-2节" |}.

(** [math_cell] with a fifth line. *)
Definition math_cell_with_note : pystr :=
  Eval vm_compute in math_cell ++ ch_nl :: py "[5-6节][操场][3周]".

(** A cell whose details line has a room number, then a list of weeks. *)
Definition room_then_weeks_cell : pystr :=
  Eval vm_compute in
    join_lines [py "高等数学"; py "[张老师]"; py "[计算机2301]";
                py "[301][1-8,10-16周]"].

(** A cell whose first line is in brackets. *)
Definition bracketed_name_cell : pystr :=
  Eval vm_compute in
    join_lines [py "[高等数学]"; py "[张老师]"; py "[计算机2301]"; py "[1-16周]"].

(** A cell of two lines. *)
Definition short_cell : pystr :=
  Eval vm_compute in join_lines [py "体育"; py "[王老师]"].

(** A week expression with both markers. *)
Definition both_markers : pystr := Eval vm_compute in py "1-4单周双周".

(** Row 2 of a sheet: the weekdays over columns 1 to 7. *)
Definition header_row : list pyval :=
  Eval vm_compute in
    PNone :: map PStr [py "星期一"; py "星期二"; py "星期三"; py "星期四";
                       py "星期五"; py "星期六"; py "星期日"].

Definition blank_row : list pyval := repeat PNone 8.

(** A body row with the label [label] and the cell [cell] under 星期一. *)
Definition monday_row (label cell : pystr) : list pyval :=
  PStr label :: PStr cell :: repeat PNone 6.

(** The sheet of the end-to-end example. *)
Definition example_grid : DataFrame :=
  [blank_row; blank_row; header_row; monday_row (py "第1-2节") math_cell].

(** The same sheet with a single-period label. *)
Definition single_period_grid : DataFrame :=
  [blank_row; blank_row; header_row; monday_row (py "第1-1节") math_cell].

(** A sheet whose first body row has a label outside the clock-range
    table and whose second body row is the row of the example. *)
Definition unknown_slot_grid : DataFrame :=
  [blank_row; blank_row; header_row;
   monday_row (py "第11-12节") math_cell;
   monday_row (py "第1-2节") math_cell].

(** * Definitions of the further properties *)

(** ** Texts in brackets *)

(** [s] without its first character when that is [c]. *)
Definition drop_first (c : char) (s : pystr) : pystr :=
  match s with
  | x :: t => if (x =? c)%N then t else s
  | [] => []
  end.

(** [s] without its last character when that is [c]. *)
Definition drop_last (c : char) (s : pystr) : pystr := rev (drop_first c (rev s)).

(** A line without one leading [[] and one trailing []]. *)
Definition unbracket (line : pystr) : pystr :=
  drop_last ch_rbrack (drop_first ch_lbrack line).

(** The details line that holds the contents [cs], each in brackets. *)
Definition bracketed (cs : list pystr) : pystr :=
  concat (map (fun c => ch_lbrack :: c ++ [ch_rbrack]) cs).

(** ** The three kinds of bracket content *)

Section Kinds.

Variable U : unicode_tables.

(** A content that rule 1 takes for the weeks. *)
Definition week_form (c : pystr) : Prop := is_some (re_match U pat_week c) = true.

(** A content that rule 2 takes for the time. *)
Definition time_form (c : pystr) : Prop :=
  is_some (re_match U pat_week c) = false /\ is_some (re_match U pat_time c) = true.

(** A content that rule 3 takes for the place. *)
Definition place_form (c : pystr) : Prop :=
  is_some (re_match U pat_week c) = false /\ is_some (re_match U pat_time c) = false
  /\ existsb (fun keyword => contains keyword c) keywords = true.

End Kinds.

(** ** Cells in the documented format *)

(** A text without line break. *)
Definition no_break (s : pystr) : Prop := ~ In ch_nl s /\ ~ In ch_cr s.

(** The cell of the docstring of [parse_course_info]: the name, the
    teacher in brackets, the class in brackets, and the details line. *)
Definition cell_text (name t c : pystr) (contents : list pystr) : pystr :=
  join_lines [name; ch_lbrack :: t ++ [ch_rbrack]; ch_lbrack :: c ++ [ch_rbrack];
              bracketed contents].

(** ** Sheets of the further examples *)

(** The sheet of the example cut to 6 columns: the labels and Monday to
    Friday. *)
Definition narrow_grid : DataFrame := map (firstn 6) example_grid.

(** One weekday offset, one clock range and one week with a date. *)
Definition event_shape (e : event) (offset : Z) (clock : Z * Z * Z * Z) : Prop :=
  exists (info : course) (key : pystr) (week : Z),
    week_in_range offset week = true /\ e = event_of info key offset clock week.

(** The events of the sheet of the example. *)
Definition example_events : list event :=
  map (event_of math_info (py "1-2节") 0 (8, 0, 9, 50)%Z)
    [1; 2; 3; 4; 5; 6; 7; 8; 9; 10; 11; 12; 13; 14; 15; 16]%Z.

(** * Lemmas *)

(** ** Strings: equality, prefixes and occurrences *)

Lemma str_eqb_eq (s t : pystr) : str_eqb s t = true <-> s = t.
Proof.
  revert t; induction s as [|a s IH]; intros [|b t]; simpl; split; try congruence; auto.
  - rewrite andb_true_iff, N.eqb_eq, IH. intros [-> ->]; reflexivity.
  - intros H; injection H as -> ->. rewrite N.eqb_refl. apply IH. reflexivity.
Qed.

Lemma str_eqb_refl (s : pystr) : str_eqb s s = true.
Proof. apply str_eqb_eq; reflexivity. Qed.

Lemma str_eqb_neq (s t : pystr) : str_eqb s t = false <-> s <> t.
Proof.
  rewrite <- str_eqb_eq. destruct (str_eqb s t); split; congruence.
Qed.

Lemma starts_with_spec (p s : pystr) :
  starts_with p s = true <-> exists post, s = p ++ post.
Proof.
  revert s; induction p as [|a p IH]; intros s; simpl.
  - split; eauto.
  - destruct s as [|b s].
    + split; [discriminate | intros [post H]; discriminate].
    + rewrite andb_true_iff, N.eqb_eq, IH. split.
      * intros [-> [post ->]]. eauto.
      * intros [post H]. injection H as -> ->. eauto.
Qed.

Lemma starts_with_app (p s : pystr) : starts_with p (p ++ s) = true.
Proof. apply starts_with_spec; eauto. Qed.

Lemma contains_spec (m s : pystr) :
  contains m s = true <-> exists pre post, s = pre ++ m ++ post.
Proof.
  induction s as [|c s IH].
  - simpl. rewrite orb_false_r, starts_with_spec. split.
    + intros [post H]. exists [], post. exact H.
    + intros [pre [post H]]. destruct pre; simpl in H; [eauto | discriminate].
  - cbn [contains]. rewrite orb_true_iff, IH, starts_with_spec. split.
    + intros [[post H] | [pre [post H]]].
      * exists [], post. exact H.
      * exists (c :: pre), post. rewrite H. reflexivity.
    + intros [[|d pre] [post H]].
      * left. eauto.
      * right. injection H as _ H. eauto.
Qed.

Lemma contains_rev (m s : pystr) : contains (rev m) (rev s) = contains m s.
Proof.
  apply eq_true_iff_eq. rewrite !contains_spec. split.
  - intros [pre [post H]]. exists (rev post), (rev pre).
    apply (f_equal (@rev char)) in H. rewrite rev_involutive in H.
    rewrite H, !rev_app_distr, rev_involutive, app_assoc. reflexivity.
  - intros [pre [post H]]. exists (rev post), (rev pre).
    rewrite H, !rev_app_distr, app_assoc. reflexivity.
Qed.

(** A text none of whose characters is [x] holds no occurrence of a text
    that starts with [x], and [replace] leaves it as it is. *)
Lemma starts_with_absent (x : char) (m s : pystr) :
  ~ In x s -> starts_with (x :: m) s = false.
Proof.
  destruct s as [|c s]; simpl; auto.
  intros H. destruct (N.eqb_spec x c) as [->|]; auto. exfalso; auto.
Qed.

Lemma contains_absent (x : char) (m s : pystr) :
  ~ In x s -> contains (x :: m) s = false.
Proof.
  induction s as [|c s IH]; intros H.
  - reflexivity.
  - cbn [contains]. rewrite starts_with_absent by exact H.
    apply IH. intros K; apply H; right; exact K.
Qed.

Lemma replace_absent (x : char) (m new s : pystr) :
  ~ In x s -> replace (x :: m) new s = s.
Proof.
  unfold replace. induction s as [|c s IH]; intros H.
  - reflexivity.
  - cbn [replace_from]. rewrite starts_with_absent by exact H.
    f_equal. apply IH. intros K; apply H; right; exact K.
Qed.

(** ** [strip] *)

Lemma lstrip_snoc (l : pystr) (c : char) :
  lstrip (l ++ [c]) =
  match lstrip l with
  | [] => if is_space c then [] else [c]
  | t => t ++ [c]
  end.
Proof.
  induction l as [|a l IH]; simpl.
  - destruct (is_space c); reflexivity.
  - destruct (is_space a); [exact IH | reflexivity].
Qed.

Lemma rstrip_cons (c : char) (s : pystr) :
  rstrip (c :: s) =
  match rstrip s with
  | [] => if is_space c then [] else [c]
  | t => c :: t
  end.
Proof.
  unfold rstrip. simpl. rewrite lstrip_snoc.
  destruct (lstrip (rev s)) as [|a t].
  - simpl. destruct (is_space c); reflexivity.
  - change (rev ((a :: t) ++ [c])) with (rev ((a :: t) ++ [c])).
    rewrite rev_app_distr. simpl.
    destruct (rev t ++ [a]) eqn:E; [destruct (rev t); discriminate | reflexivity].
Qed.

Lemma lstrip_nil_iff (s : pystr) : lstrip s = [] <-> forallb is_space s = true.
Proof.
  induction s as [|c s IH]; simpl.
  - split; reflexivity.
  - destruct (is_space c); simpl; [exact IH | split; discriminate].
Qed.

Lemma rstrip_nil_iff (s : pystr) : rstrip s = [] <-> forallb is_space s = true.
Proof.
  induction s as [|c s IH].
  - split; reflexivity.
  - rewrite rstrip_cons. simpl. destruct (rstrip s) as [|a t].
    + destruct (is_space c); simpl.
      * rewrite <- IH. split; reflexivity.
      * split; discriminate.
    + split; [discriminate|]. rewrite andb_true_iff. intros [_ H].
      apply IH in H. discriminate.
Qed.

Lemma forallb_lstrip (P : char -> bool) (s : pystr) :
  forallb P s = true -> forallb P (lstrip s) = true.
Proof.
  induction s as [|c s IH]; simpl; auto.
  intros H. apply andb_true_iff in H as [Hc Hs].
  destruct (is_space c); auto. simpl. rewrite Hc, Hs. reflexivity.
Qed.

Lemma lstrip_head (s : pystr) (c : char) (t : pystr) :
  lstrip s = c :: t -> is_space c = false.
Proof.
  induction s as [|a s IH]; simpl; [discriminate|].
  destruct (is_space a) eqn:E; [exact IH|].
  intros H; injection H as -> _. exact E.
Qed.

Lemma strip_nil_iff (s : pystr) : strip s = [] <-> forallb is_space s = true.
Proof.
  unfold strip. rewrite rstrip_nil_iff. split.
  - intros H. destruct (lstrip s) as [|a t] eqn:E.
    + apply lstrip_nil_iff. exact E.
    + exfalso. apply lstrip_head in E. simpl in H.
      apply andb_true_iff in H as [Ha _]. congruence.
  - apply forallb_lstrip.
Qed.

Lemma rstrip_head (s : pystr) (c : char) (t : pystr) :
  rstrip s = c :: t -> exists s', s = c :: s'.
Proof.
  destruct s as [|a s]; [discriminate|].
  rewrite rstrip_cons. destruct (rstrip s).
  - destruct (is_space a); [discriminate|]. intros H; injection H as -> _. eauto.
  - intros H; injection H as -> _. eauto.
Qed.

(** A stripped text that is not empty starts with a character that is not
    white space. *)
Lemma strip_head (s : pystr) (c : char) (t : pystr) :
  strip s = c :: t -> is_space c = false.
Proof.
  unfold strip. intros H. apply rstrip_head in H as [s' H].
  eapply lstrip_head; eauto.
Qed.

Lemma lstrip_fixed (c : char) (s : pystr) :
  is_space c = false -> lstrip (c :: s) = c :: s.
Proof. intros H; simpl; rewrite H; reflexivity. Qed.

(** A text without white space is left as it is. *)
Lemma rstrip_nospace (s : pystr) :
  forallb (fun c => negb (is_space c)) s = true -> rstrip s = s.
Proof.
  induction s as [|c s IH]; [reflexivity|].
  simpl. rewrite andb_true_iff, negb_true_iff. intros [Hc Hs].
  rewrite rstrip_cons, (IH Hs), Hc. destruct s; reflexivity.
Qed.

Lemma strip_nospace (s : pystr) :
  forallb (fun c => negb (is_space c)) s = true -> strip s = s.
Proof.
  intros H. unfold strip.
  assert (lstrip s = s) as ->.
  { destruct s as [|c s]; [reflexivity|]. simpl in H.
    apply andb_true_iff in H as [Hc _]. apply negb_true_iff in Hc.
    apply lstrip_fixed; exact Hc. }
  apply rstrip_nospace; exact H.
Qed.

(** [strip] keeps the occurrences of a text whose ends are not white
    space. *)
Lemma contains_lstrip (x : char) (m s : pystr) :
  is_space x = false -> contains (x :: m) (lstrip s) = contains (x :: m) s.
Proof.
  intros Hx. induction s as [|c s IH]; [reflexivity|].
  cbn [lstrip]. destruct (is_space c) eqn:Ec; [|reflexivity].
  rewrite IH. cbn [contains starts_with].
  destruct (N.eqb_spec x c) as [->|]; [congruence | reflexivity].
Qed.

Lemma contains_rstrip (m : pystr) (y : char) (s : pystr) :
  is_space y = false -> contains (m ++ [y]) (rstrip s) = contains (m ++ [y]) s.
Proof.
  intros Hy. unfold rstrip.
  rewrite <- (contains_rev (m ++ [y]) s), <- (rev_involutive (m ++ [y])) at 1.
  rewrite contains_rev, rev_app_distr. simpl.
  apply contains_lstrip; exact Hy.
Qed.

Lemma contains_strip (x : char) (m : pystr) (y : char) (s : pystr) :
  is_space x = false -> is_space y = false ->
  contains (x :: m ++ [y]) (strip s) = contains (x :: m ++ [y]) s.
Proof.
  intros Hx Hy. unfold strip.
  rewrite (contains_rstrip (x :: m) y _ Hy). simpl.
  apply contains_lstrip; exact Hx.
Qed.

(** ** [sorted(list(set(...)))] *)

Lemma In_insert_sorted (x y : Z) (l : list Z) :
  In x (insert_sorted y l) <-> x = y \/ In x l.
Proof.
  induction l as [|z l IH]; simpl.
  - intuition.
  - destruct (y <=? z)%Z; simpl; rewrite ?IH; intuition.
Qed.

Lemma In_py_sorted (x : Z) (l : list Z) : In x (py_sorted l) <-> In x l.
Proof.
  induction l as [|y l IH]; simpl; [tauto|].
  rewrite In_insert_sorted, IH. intuition.
Qed.

Lemma In_sorted_set (x : Z) (l : list Z) : In x (py_sorted (py_set l)) <-> In x l.
Proof. rewrite In_py_sorted. apply nodup_In. Qed.

Lemma insert_sorted_strict (x : Z) (l : list Z) :
  StronglySorted Z.lt l -> ~ In x l -> StronglySorted Z.lt (insert_sorted x l).
Proof.
  induction 1 as [|y l Hs IH Hy]; intros Hx; simpl.
  - constructor; constructor.
  - assert (x <> y) by (intros ->; apply Hx; left; reflexivity).
    assert (~ In x l) by (intros K; apply Hx; right; exact K).
    destruct (Z.leb_spec x y).
    + constructor; [constructor; assumption|].
      constructor; [lia|].
      rewrite Forall_forall in *. intros z Hz. specialize (Hy z Hz). lia.
    + constructor; [apply IH; assumption|].
      rewrite Forall_forall in *. intros z Hz.
      apply In_insert_sorted in Hz as [->|Hz]; [lia | auto].
Qed.

Lemma py_sorted_strict (l : list Z) : NoDup l -> StronglySorted Z.lt (py_sorted l).
Proof.
  induction 1 as [|x l Hx Hl IH]; simpl.
  - constructor.
  - apply insert_sorted_strict; [exact IH|]. rewrite In_py_sorted. exact Hx.
Qed.

(** The list returned is in ascending order and has no duplicates. *)
Lemma sorted_set_strict (l : list Z) : StronglySorted Z.lt (py_sorted (py_set l)).
Proof. apply py_sorted_strict, NoDup_nodup. Qed.

Lemma insert_sorted_head (x : Z) (l : list Z) :
  Forall (Z.lt x) l -> insert_sorted x l = x :: l.
Proof.
  destruct l as [|y l]; [reflexivity|]. intros H. simpl.
  apply Forall_inv in H. destruct (Z.leb_spec x y); [reflexivity | lia].
Qed.

Lemma py_sorted_fixed (l : list Z) : StronglySorted Z.lt l -> py_sorted l = l.
Proof.
  induction 1 as [|x l Hs IH Hx]; [reflexivity|].
  simpl. rewrite IH. apply insert_sorted_head; exact Hx.
Qed.

Lemma strict_NoDup (l : list Z) : StronglySorted Z.lt l -> NoDup l.
Proof.
  induction 1 as [|x l Hs IH Hx]; constructor; [|exact IH].
  intros K. rewrite Forall_forall in Hx. specialize (Hx x K). lia.
Qed.

Lemma sorted_set_fixed (l : list Z) :
  StronglySorted Z.lt l -> py_sorted (py_set l) = l.
Proof.
  intros H. unfold py_set. rewrite nodup_fixed_point by (apply strict_NoDup; exact H).
  apply py_sorted_fixed; exact H.
Qed.

(** ** [range] *)

Lemma In_py_range (x lo hi : Z) : In x (py_range lo hi) <-> (lo <= x < hi)%Z.
Proof.
  unfold py_range. rewrite in_map_iff. split.
  - intros [i [<- Hi]]. apply in_seq in Hi. lia.
  - intros H. exists (Z.to_nat (x - lo)). split; [lia|]. apply in_seq. lia.
Qed.

Lemma py_range_strict (lo hi : Z) : StronglySorted Z.lt (py_range lo hi).
Proof.
  unfold py_range. generalize (Z.to_nat (hi - lo)) as n. intros n.
  generalize 0%nat as k. induction n as [|n IH]; intros k; simpl.
  - constructor.
  - constructor; [apply IH|].
    rewrite Forall_forall. intros x Hx. apply in_map_iff in Hx as [i [<- Hi]].
    apply in_seq in Hi. lia.
Qed.

Lemma keep_all (week : Z) : keep_week false false week = true.
Proof. reflexivity. Qed.

Lemma keep_both (week : Z) : keep_week true true week = true.
Proof.
  unfold keep_week. simpl.
  destruct (Z.eqb_spec (week mod 2) 1), (Z.eqb_spec (week mod 2) 0); try reflexivity.
  pose proof (Z.mod_pos_bound week 2). lia.
Qed.

Lemma filter_keep_all (l : list Z) : filter (keep_week false false) l = l.
Proof. induction l; simpl; congruence. Qed.

(** ** Decimal numerals *)

Lemma ascii_digit_range (c : char) :
  is_ascii_digit c = true <-> (48 <= c <= 57)%N.
Proof.
  unfold is_ascii_digit. rewrite andb_true_iff, !N.leb_le. tauto.
Qed.

Section Numerals.

Variable U : unicode_tables.

Lemma to_decimal_ascii_digit (c : char) :
  is_ascii_digit c = true -> to_decimal U c = Some (Z.of_N (c - 48)).
Proof.
  intros H. unfold to_decimal. rewrite H.
  apply ascii_digit_range in H.
  destruct (N.ltb_spec c 128); [reflexivity | lia].
Qed.

Lemma is_decimal_ascii_digit (c : char) :
  is_ascii_digit c = true -> is_decimal U c = true.
Proof. intros H. unfold is_decimal. rewrite to_decimal_ascii_digit; auto. Qed.

Lemma int_digits_ascii (ds : pystr) (acc : Z) :
  forallb is_ascii_digit ds = true -> int_digits U acc true ds = Some (dval acc ds).
Proof.
  revert acc. induction ds as [|c ds IH]; intros acc H; simpl in *.
  - reflexivity.
  - apply andb_true_iff in H as [Hc Hs].
    rewrite (to_decimal_ascii_digit _ Hc). apply IH; exact Hs.
Qed.

Lemma ascii_digit_not_space (c : char) : is_ascii_digit c = true -> is_space c = false.
Proof.
  intros H. apply ascii_digit_range in H. unfold is_space.
  repeat match goal with
  | |- context [(?a <=? ?b)%N] => destruct (N.leb_spec a b); try lia
  | |- context [(?a =? ?b)%N] => destruct (N.eqb_spec a b); try lia
  end; reflexivity.
Qed.

Lemma ascii_digit_not_int_space (c : char) :
  is_ascii_digit c = true -> int_space c = false.
Proof.
  intros H. apply ascii_digit_range in H. unfold int_space.
  destruct (N.ltb_spec c 127); [|lia].
  repeat match goal with
  | |- context [(?a <=? ?b)%N] => destruct (N.leb_spec a b); try lia
  | |- context [(?a =? ?b)%N] => destruct (N.eqb_spec a b); try lia
  end; reflexivity.
Qed.

Lemma int_lstrip_digit (c : char) (s : pystr) :
  is_ascii_digit c = true -> int_lstrip (c :: s) = c :: s.
Proof. intros H. simpl. rewrite ascii_digit_not_int_space; auto. Qed.

Lemma digit_count_ascii (ds : pystr) :
  forallb is_ascii_digit ds = true -> int_digit_count U ds = N.of_nat (length ds).
Proof.
  intros H. unfold int_digit_count. f_equal. f_equal.
  induction ds as [|c ds IH]; [reflexivity|].
  cbn [forallb] in H. apply andb_true_iff in H as [Hc Hs].
  cbn [filter]. rewrite (is_decimal_ascii_digit _ Hc), (IH Hs). reflexivity.
Qed.

(** [int] of a text of ASCII digits within the limit is its decimal value. *)
Lemma py_int_ascii (ds : pystr) :
  ds <> [] -> forallb is_ascii_digit ds = true ->
  (N.of_nat (length ds) <= int_max_str_digits)%N ->
  py_int U ds = Some (dval 0 ds).
Proof.
  intros Hne H Hlen. unfold py_int.
  destruct ds as [|c ds]; [congruence|]. clear Hne.
  pose proof H as H0. simpl in H0. apply andb_true_iff in H0 as [Hc Hs].
  rewrite (int_lstrip_digit _ _ Hc).
  assert (exists l d, rev (c :: ds) = d :: l /\ is_ascii_digit d = true) as [l [d [E Hd]]].
  { destruct (rev (c :: ds)) as [|d l] eqn:E.
    - apply (f_equal (@length char)) in E. rewrite length_rev in E. discriminate.
    - exists l, d. split; [reflexivity|].
      rewrite forallb_forall in H. apply H. apply in_rev. rewrite E. left. reflexivity. }
  rewrite E, (int_lstrip_digit _ _ Hd), <- E, rev_involutive.
  apply ascii_digit_range in Hc as Hr.
  destruct (N.eqb_spec c ch_plus) as [K|_]; [unfold ch_plus in K; lia|].
  destruct (N.eqb_spec c ch_minus) as [K|_]; [unfold ch_minus in K; lia|].
  unfold int_limited. rewrite (digit_count_ascii _ H).
  destruct (N.ltb_spec int_max_str_digits (N.of_nat (length (c :: ds)))) as [K|_];
    [apply N.lt_nge in K; contradiction|].
  unfold int_unsigned. rewrite (to_decimal_ascii_digit _ Hc).
  rewrite (int_digits_ascii _ _ Hs). reflexivity.
Qed.

(** [int] of a text of ASCII digits beyond the limit raises. *)
Lemma py_int_long (ds : pystr) :
  forallb is_ascii_digit ds = true ->
  (int_max_str_digits < N.of_nat (length ds))%N ->
  py_int U ds = None.
Proof.
  intros H Hlen. unfold py_int.
  destruct ds as [|c ds]; [reflexivity|].
  pose proof H as H0. cbn [forallb] in H0. apply andb_true_iff in H0 as [Hc Hs].
  rewrite (int_lstrip_digit _ _ Hc).
  assert (exists l d, rev (c :: ds) = d :: l /\ is_ascii_digit d = true) as [l [d [E Hd]]].
  { destruct (rev (c :: ds)) as [|d l] eqn:E.
    - apply (f_equal (@length char)) in E. rewrite length_rev in E. discriminate.
    - exists l, d. split; [reflexivity|].
      rewrite forallb_forall in H. apply H. apply in_rev. rewrite E. left. reflexivity. }
  rewrite E, (int_lstrip_digit _ _ Hd), <- E, rev_involutive.
  apply ascii_digit_range in Hc as Hr.
  destruct (N.eqb_spec c ch_plus) as [K|_]; [unfold ch_plus in K; lia|].
  destruct (N.eqb_spec c ch_minus) as [K|_]; [unfold ch_minus in K; lia|].
  unfold int_limited. rewrite (digit_count_ascii _ H).
  apply N.ltb_lt in Hlen. rewrite Hlen. reflexivity.
Qed.

End Numerals.

Lemma digits_of_app (fuel : nat) (n : N) (acc : pystr) :
  digits_of fuel n acc = digits_of fuel n [] ++ acc.
Proof.
  revert n acc. induction fuel as [|f IH]; intros n acc; cbn [digits_of]; [reflexivity|].
  destruct (n <? 10)%N; [reflexivity|].
  rewrite IH, (IH _ [_]), <- app_assoc. reflexivity.
Qed.

Lemma digits_of_ascii (fuel : nat) (n : N) :
  forallb is_ascii_digit (digits_of fuel n []) = true.
Proof.
  revert n. induction fuel as [|f IH]; intros n; cbn [digits_of]; [reflexivity|].
  assert (is_ascii_digit (48 + n mod 10)%N = true) as Hd.
  { apply ascii_digit_range. pose proof (N.mod_upper_bound n 10%N) as Hm.
    generalize dependent (n mod 10)%N. intros m Hm. lia. }
  destruct (n <? 10)%N.
  - cbn [forallb]. rewrite Hd. reflexivity.
  - rewrite digits_of_app, forallb_app, IH. cbn [forallb]. rewrite Hd. reflexivity.
Qed.

Lemma digits_of_nonempty (fuel : nat) (n : N) : digits_of (S fuel) n [] <> [].
Proof.
  cbn [digits_of]. destruct (n <? 10)%N; [discriminate|].
  rewrite digits_of_app. destruct (digits_of fuel (n / 10) []); discriminate.
Qed.

Lemma dval_app (v : Z) (a b : pystr) : dval v (a ++ b) = dval (dval v a) b.
Proof. unfold dval. apply fold_left_app. Qed.

Lemma digits_of_value (fuel : nat) (n : N) :
  (n < 10 ^ N.of_nat fuel)%N -> dval 0 (digits_of fuel n []) = Z.of_N n.
Proof.
  revert n. induction fuel as [|f IH]; intros n H.
  - simpl in H. assert (n = 0%N) as -> by lia. reflexivity.
  - cbn [digits_of]. destruct (N.ltb_spec n 10%N).
    + unfold dval. cbn [fold_left]. rewrite N.mod_small by lia. lia.
    + rewrite digits_of_app, dval_app, IH.
      * unfold dval. cbn [fold_left].
        pose proof (N.div_mod n 10%N) as Hd.
        pose proof (N.mod_upper_bound n 10%N) as Hm.
        clear IH H.
        generalize dependent (n mod 10)%N. generalize dependent (n / 10)%N.
        intros. lia.
      * rewrite Nnat.Nat2N.inj_succ, N.pow_succ_r' in H.
        apply N.Div0.div_lt_upper_bound. lia.
Qed.

Lemma str_of_N_value (n : N) : dval 0 (str_of_N n) = Z.of_N n.
Proof.
  unfold str_of_N. apply digits_of_value.
  rewrite Nnat.Nat2N.inj_succ, Nnat.N2Nat.id.
  destruct n as [|p]; [reflexivity|].
  apply N.lt_le_trans with (2 ^ N.succ (N.log2 (N.pos p)))%N.
  - apply N.log2_spec. lia.
  - apply N.pow_le_mono_l. lia.
Qed.

Lemma str_of_N_ascii (n : N) : forallb is_ascii_digit (str_of_N n) = true.
Proof. apply digits_of_ascii. Qed.

Lemma str_of_N_nonempty (n : N) : str_of_N n <> [].
Proof. apply digits_of_nonempty. Qed.

Lemma str_of_int_nonneg (z : Z) : (0 <= z)%Z -> str_of_int z = str_of_N (Z.to_N z).
Proof.
  intros H. unfold str_of_int. destruct (Z.ltb_spec z 0); [lia|].
  f_equal. lia.
Qed.

(** A number below [10 ^ k] is written with at most [k] digits. *)
Lemma digits_of_length (fuel : nat) (n k : N) :
  (1 <= k)%N -> (n < 10 ^ k)%N -> (N.of_nat (length (digits_of fuel n [])) <= k)%N.
Proof.
  revert n k. induction fuel as [|f IH]; intros n k Hk H; cbn [digits_of].
  - cbn [length]. lia.
  - destruct (N.ltb_spec n 10%N) as [Hn|Hn].
    + cbn [length]. lia.
    + rewrite digits_of_app, length_app. cbn [length].
      assert (2 <= k)%N as Hk2.
      { destruct (N.le_gt_cases 2 k) as [K|K]; [exact K|].
        assert (k = 1%N) as -> by lia. change (10 ^ 1)%N with 10%N in H. lia. }
      assert (N.of_nat (length (digits_of f (n / 10) [])) <= k - 1)%N as L.
      { apply IH; [lia|].
        apply N.Div0.div_lt_upper_bound.
        rewrite <- N.pow_succ_r'. replace (N.succ (k - 1)) with k by lia. exact H. }
      lia.
Qed.

(** A number from [10 ^ k] on is written with more than [k] digits. *)
Lemma digits_of_long (fuel : nat) (n k : N) :
  (n < 10 ^ N.of_nat fuel)%N -> (10 ^ k <= n)%N ->
  (k < N.of_nat (length (digits_of fuel n [])))%N.
Proof.
  revert n k. induction fuel as [|f IH]; intros n k Hf H.
  - cbn [N.of_nat] in Hf. change (10 ^ 0)%N with 1%N in Hf.
    assert (0 < 10 ^ k)%N by (apply N.neq_0_lt_0, N.pow_nonzero; lia). lia.
  - cbn [digits_of]. destruct (N.ltb_spec n 10%N) as [Hn|Hn].
    + cbn [length]. destruct (N.eq_dec k 0) as [->|Hk]; [lia|].
      assert (10 ^ 1 <= 10 ^ k)%N by (apply N.pow_le_mono_r; lia).
      change (10 ^ 1)%N with 10%N in *. lia.
    + rewrite digits_of_app, length_app. cbn [length].
      destruct (N.eq_dec k 0) as [->|Hk]; [lia|].
      assert (k - 1 < N.of_nat (length (digits_of f (n / 10) [])))%N as L.
      { apply IH.
        - rewrite Nnat.Nat2N.inj_succ, N.pow_succ_r' in Hf.
          apply N.Div0.div_lt_upper_bound. lia.
        - apply N.div_le_lower_bound; [lia|].
          rewrite <- N.pow_succ_r'. replace (N.succ (k - 1)) with k by lia. exact H. }
      lia.
Qed.

Lemma str_of_N_fuel (n : N) : (n < 10 ^ N.of_nat (S (N.to_nat (N.log2 n))))%N.
Proof.
  rewrite Nnat.Nat2N.inj_succ, Nnat.N2Nat.id.
  destruct n as [|p]; [reflexivity|].
  apply N.lt_le_trans with (2 ^ N.succ (N.log2 (N.pos p)))%N.
  - apply N.log2_spec. lia.
  - apply N.pow_le_mono_l. lia.
Qed.

Lemma int_str_bound_pow : int_str_bound = Z.of_N (10 ^ int_max_str_digits).
Proof. unfold int_str_bound. rewrite N2Z.inj_pow. reflexivity. Qed.

(** Every week of a calendar is far below the bound. *)
Lemma int_str_bound_large : (10000000 <= int_str_bound)%Z.
Proof.
  unfold int_str_bound, int_max_str_digits. change 10000000%Z with (10 ^ 7)%Z.
  apply Z.pow_le_mono_r; lia.
Qed.

Lemma str_of_int_short (z : Z) :
  (0 <= z < int_str_bound)%Z ->
  (N.of_nat (length (str_of_int z)) <= int_max_str_digits)%N.
Proof.
  intros H. rewrite str_of_int_nonneg by lia. unfold str_of_N.
  apply digits_of_length; [unfold int_max_str_digits; lia|].
  rewrite int_str_bound_pow in H. lia.
Qed.

Lemma str_of_int_long (z : Z) :
  (int_str_bound <= z)%Z ->
  (int_max_str_digits < N.of_nat (length (str_of_int z)))%N.
Proof.
  intros H. rewrite int_str_bound_pow in H.
  rewrite str_of_int_nonneg by lia. unfold str_of_N.
  apply digits_of_long; [apply str_of_N_fuel | lia].
Qed.

(** [int(str(z)) == z] for a week number whose numeral [int] accepts. *)
Lemma py_int_str_of_int (U : unicode_tables) (z : Z) :
  (0 <= z < int_str_bound)%Z -> py_int U (str_of_int z) = Some z.
Proof.
  intros H. pose proof (str_of_int_short z H) as L.
  rewrite str_of_int_nonneg in * by lia.
  rewrite py_int_ascii.
  - rewrite str_of_N_value. f_equal. lia.
  - apply str_of_N_nonempty.
  - apply str_of_N_ascii.
  - exact L.
Qed.

(** [int(str(z))] raises from [int_str_bound] on. *)
Lemma py_int_str_of_long (U : unicode_tables) (z : Z) :
  (int_str_bound <= z)%Z -> py_int U (str_of_int z) = None.
Proof.
  intros H. pose proof (str_of_int_long z H) as L.
  assert (0 <= z)%Z as Hz.
  { rewrite int_str_bound_pow in H. lia. }
  rewrite str_of_int_nonneg in * by exact Hz.
  apply py_int_long; [apply str_of_N_ascii | exact L].
Qed.

Lemma forallb_repeat {A : Type} (f : A -> bool) (x : A) (n : nat) :
  f x = true -> forallb f (repeat x n) = true.
Proof.
  intros H. induction n as [|n IH]; [reflexivity|].
  cbn [repeat forallb]. rewrite H. exact IH.
Qed.

(** 4300 digits are read and 4301 are refused, leading zeros included. *)
Lemma py_int_limit (U : unicode_tables) :
  py_int U (repeat 57%N 4300) = Some (dval 0 (repeat 57%N 4300))
  /\ py_int U (repeat 57%N 4301) = None
  /\ py_int U (repeat 48%N 4301) = None.
Proof.
  split; [|split].
  - apply py_int_ascii.
    + discriminate.
    + apply forallb_repeat. reflexivity.
    + rewrite repeat_length. unfold int_max_str_digits. lia.
  - apply py_int_long.
    + apply forallb_repeat. reflexivity.
    + rewrite repeat_length. unfold int_max_str_digits. lia.
  - apply py_int_long.
    + apply forallb_repeat. reflexivity.
    + rewrite repeat_length. unfold int_max_str_digits. lia.
Qed.

(** ** [split] *)

Lemma split_absent (sep : char) (s : pystr) : ~ In sep s -> split sep s = [s].
Proof.
  induction s as [|c s IH]; intros H; [reflexivity|].
  cbn [split]. destruct (N.eqb_spec c sep) as [->|_].
  - exfalso; apply H; left; reflexivity.
  - rewrite IH; [reflexivity|]. intros K; apply H; right; exact K.
Qed.

Lemma split_app_sep (sep : char) (s t : pystr) :
  ~ In sep s -> split sep (s ++ sep :: t) = s :: split sep t.
Proof.
  induction s as [|c s IH]; intros H.
  - cbn [app split]. rewrite N.eqb_refl. reflexivity.
  - cbn [app split]. destruct (N.eqb_spec c sep) as [->|_].
    + exfalso; apply H; left; reflexivity.
    + rewrite IH; [reflexivity|]. intros K; apply H; right; exact K.
Qed.

(** ** Week expressions made of ranges *)

Lemma range_char_cases (c : char) :
  range_char c = true -> (48 <= c <= 57)%N \/ c = ch_minus \/ c = ch_comma.
Proof.
  unfold range_char. rewrite !orb_true_iff, !N.eqb_eq, ascii_digit_range. tauto.
Qed.

Lemma range_char_not_space (s : pystr) :
  forallb range_char s = true -> forallb (fun c => negb (is_space c)) s = true.
Proof.
  rewrite !forallb_forall. intros H c Hc. apply H in Hc.
  apply range_char_cases in Hc as [Hc|[->| ->]]; [|reflexivity..].
  rewrite ascii_digit_not_space; [reflexivity|]. apply ascii_digit_range; exact Hc.
Qed.

Lemma range_char_absent (x : char) (s : pystr) :
  (128 <= x)%N -> forallb range_char s = true -> ~ In x s.
Proof.
  intros Hx H K. rewrite forallb_forall in H. apply H in K.
  apply range_char_cases in K as [K|[->| ->]]; unfold ch_minus, ch_comma in *; lia.
Qed.

Lemma digits_range_char (s : pystr) :
  forallb is_ascii_digit s = true -> forallb range_char s = true.
Proof.
  rewrite !forallb_forall. intros H c Hc. unfold range_char. rewrite (H c Hc). reflexivity.
Qed.

Lemma digits_absent (x : char) (s : pystr) :
  (x < 48)%N -> forallb is_ascii_digit s = true -> ~ In x s.
Proof.
  intros Hx H K. rewrite forallb_forall in H. apply H in K.
  apply ascii_digit_range in K. lia.
Qed.

Lemma str_of_int_digits (z : Z) :
  (0 <= z)%Z -> forallb is_ascii_digit (str_of_int z) = true /\ str_of_int z <> [].
Proof.
  intros H. rewrite str_of_int_nonneg by exact H.
  split; [apply str_of_N_ascii | apply str_of_N_nonempty].
Qed.

Lemma range_text_chars (a b : Z) :
  (0 <= a)%Z -> (0 <= b)%Z -> forallb range_char (range_text a b) = true.
Proof.
  intros Ha Hb. unfold range_text.
  rewrite !forallb_app.
  rewrite (digits_range_char (str_of_int a)) by (apply str_of_int_digits; assumption).
  rewrite (digits_range_char (str_of_int b)) by (apply str_of_int_digits; assumption).
  reflexivity.
Qed.

Lemma range_text_nonempty (a b : Z) : range_text a b <> [].
Proof. unfold range_text. destruct (str_of_int a); discriminate. Qed.

Lemma join_comma_cons (p : pystr) (q : pystr) (rest : list pystr) :
  join_comma (p :: q :: rest) = p ++ ch_comma :: join_comma (q :: rest).
Proof. reflexivity. Qed.

Lemma join_comma_head (p : pystr) (rest : list pystr) :
  exists t, join_comma (p :: rest) = p ++ t.
Proof.
  destruct rest as [|q rest].
  - exists []. simpl. rewrite app_nil_r. reflexivity.
  - rewrite join_comma_cons. eauto.
Qed.

Lemma ranges_text_chars (rs : list (Z * Z)) :
  Forall (fun r => (0 <= fst r <= snd r)%Z) rs ->
  forallb range_char (ranges_text rs) = true.
Proof.
  unfold ranges_text. induction 1 as [|r rs Hr Hrs IH]; [reflexivity|].
  destruct rs as [|r' rs].
  - simpl. apply range_text_chars; lia.
  - cbn [map] in *. rewrite join_comma_cons, forallb_app.
    rewrite range_text_chars by lia. cbn [forallb andb]. exact IH.
Qed.

Lemma split_ranges_text (rs : list (Z * Z)) :
  Forall (fun r => (0 <= fst r <= snd r)%Z) rs -> rs <> [] ->
  split ch_comma (ranges_text rs) = map (fun r => range_text (fst r) (snd r)) rs.
Proof.
  unfold ranges_text. induction 1 as [|r rs Hr Hrs IH]; intros Hne; [congruence|].
  assert (~ In ch_comma (range_text (fst r) (snd r))) as Hc.
  { intros K. pose proof (range_text_chars (fst r) (snd r)) as H.
    unfold range_text in *. rewrite !in_app_iff in K.
    destruct K as [K|[K|K]].
    - revert K. apply digits_absent; [reflexivity | apply str_of_int_digits; lia].
    - destruct K as [K|[]]. discriminate.
    - revert K. apply digits_absent; [reflexivity | apply str_of_int_digits; lia]. }
  destruct rs as [|r' rs].
  - simpl. apply split_absent; exact Hc.
  - cbn [map] in *. rewrite join_comma_cons, split_app_sep by exact Hc.
    rewrite IH by discriminate. reflexivity.
Qed.

Section Ranges.

Variable U : unicode_tables.

Lemma parse_part_range (a b : Z) :
  (0 <= a < int_str_bound)%Z -> (0 <= b < int_str_bound)%Z ->
  parse_part U false false (range_text a b) = Returned (py_range a (b + 1)).
Proof.
  intros [Ha La] [Hb Lb]. unfold parse_part.
  rewrite strip_nospace by (apply range_char_not_space, range_text_chars; assumption).
  destruct (str_of_int_digits a Ha) as [Da Na], (str_of_int_digits b Hb) as [Db Nb].
  assert (contains [ch_minus] (range_text a b) = true) as ->.
  { apply contains_spec. exists (str_of_int a), (str_of_int b). reflexivity. }
  unfold range_text. cbn [app].
  rewrite split_app_sep by (apply digits_absent; [reflexivity | exact Da]).
  rewrite split_absent by (apply digits_absent; [reflexivity | exact Db]).
  rewrite !py_int_str_of_int by (split; assumption).
  rewrite filter_keep_all. reflexivity.
Qed.

(** The part ["a-b"] raises when one of its numerals is too long. *)
Lemma parse_part_long_range (io ie : bool) (a b : Z) :
  (0 <= a)%Z -> (0 <= b)%Z -> (int_str_bound <= a \/ int_str_bound <= b)%Z ->
  parse_part U io ie (range_text a b) = Raised ValueError.
Proof.
  intros Ha Hb Hl. unfold parse_part.
  rewrite strip_nospace by (apply range_char_not_space, range_text_chars; assumption).
  destruct (str_of_int_digits a Ha) as [Da Na], (str_of_int_digits b Hb) as [Db Nb].
  assert (contains [ch_minus] (range_text a b) = true) as ->.
  { apply contains_spec. exists (str_of_int a), (str_of_int b). reflexivity. }
  unfold range_text. cbn [app].
  rewrite split_app_sep by (apply digits_absent; [reflexivity | exact Da]).
  rewrite split_absent by (apply digits_absent; [reflexivity | exact Db]).
  destruct Hl as [Hl|Hl].
  - rewrite (py_int_str_of_long U a Hl). reflexivity.
  - rewrite (py_int_str_of_long U b Hl).
    destruct (py_int U (str_of_int a)); reflexivity.
Qed.

Lemma ranges_bounded (rs : list (Z * Z)) :
  Forall (fun r => (0 <= fst r <= snd r)%Z /\ (snd r < int_str_bound)%Z) rs ->
  Forall (fun r => (0 <= fst r <= snd r)%Z) rs.
Proof. apply Forall_impl. intros r [H _]. exact H. Qed.

Lemma parse_parts_ranges (rs : list (Z * Z)) (weeks : list Z) :
  Forall (fun r => (0 <= fst r <= snd r)%Z /\ (snd r < int_str_bound)%Z) rs ->
  parse_parts U false false (map (fun r => range_text (fst r) (snd r)) rs) weeks =
  Returned (weeks ++ flat_map (fun r => py_range (fst r) (snd r + 1)) rs).
Proof.
  intros H. revert weeks. induction H as [|r rs Hr Hrs IH]; intros weeks; simpl.
  - rewrite app_nil_r. reflexivity.
  - rewrite parse_part_range by lia. rewrite IH, app_assoc. reflexivity.
Qed.

Lemma parse_weeks_body_ranges (rs : list (Z * Z)) :
  Forall (fun r => (0 <= fst r <= snd r)%Z /\ (snd r < int_str_bound)%Z) rs -> rs <> [] ->
  parse_weeks_body U (ranges_text rs) =
  Returned (py_sorted (py_set (flat_map (fun r => py_range (fst r) (snd r + 1)) rs))).
Proof.
  intros H Hne. unfold parse_weeks_body.
  pose proof (ranges_text_chars rs (ranges_bounded rs H)) as Hc.
  rewrite strip_nospace by (apply range_char_not_space; exact Hc).
  unfold clean_weeks, txt_odd_week, txt_even_week, txt_week.
  rewrite !contains_absent by (apply range_char_absent; [lia | exact Hc]).
  rewrite (replace_absent _ _ [] (ranges_text rs))
    by (apply range_char_absent; [lia | exact Hc]).
  rewrite (replace_absent _ _ [] (ranges_text rs))
    by (apply range_char_absent; [lia | exact Hc]).
  rewrite (replace_absent _ _ [] (ranges_text rs))
    by (apply range_char_absent; [lia | exact Hc]).
  rewrite split_ranges_text by (apply ranges_bounded; exact H) || exact Hne.
  rewrite parse_parts_ranges by exact H. reflexivity.
Qed.

Lemma ranges_text_truthy (rs : list (Z * Z)) :
  rs <> [] -> truthy (PStr (ranges_text rs)) = true.
Proof.
  destruct rs as [|r rs]; [congruence|]. intros _. unfold ranges_text.
  cbn [map]. destruct (join_comma_head (range_text (fst r) (snd r))
    (map (fun r => range_text (fst r) (snd r)) rs)) as [t ->].
  pose proof (range_text_nonempty (fst r) (snd r)) as H.
  destruct (range_text (fst r) (snd r)); [congruence | reflexivity].
Qed.

Lemma parse_weeks_of_ranges (rs : list (Z * Z)) :
  Forall (fun r => (0 <= fst r <= snd r)%Z /\ (snd r < int_str_bound)%Z) rs ->
  parse_weeks U (PStr (ranges_text rs)) =
  (py_sorted (py_set (flat_map (fun r => py_range (fst r) (snd r + 1)) rs)), []).
Proof.
  intros H. destruct rs as [|r rs]; [reflexivity|].
  unfold parse_weeks. rewrite ranges_text_truthy by discriminate. cbn [negb].
  rewrite parse_weeks_body_ranges by (assumption || discriminate). reflexivity.
Qed.

End Ranges.

(** ** The odd and even filters *)

Lemma filter_filter_keep (io ie : bool) (l : list Z) :
  filter (keep_week io ie) (filter (keep_week false false) l) = filter (keep_week io ie) l.
Proof. rewrite filter_keep_all. reflexivity. Qed.

Section Filters.

Variable U : unicode_tables.

(** A part appends, of the weeks it lists, those that pass the filter. *)
Lemma parse_part_filter (io ie : bool) (part : pystr) :
  parse_part U io ie part =
  map_outcome (filter (keep_week io ie)) (parse_part U false false part).
Proof.
  unfold parse_part. destruct (contains [ch_minus] (strip part)).
  - destruct (split ch_minus (strip part)) as [|a [|b [|c l]]]; try reflexivity.
    destruct (py_int U a), (py_int U b); try reflexivity.
    simpl. rewrite filter_keep_all. reflexivity.
  - destruct (isdigit U (strip part)); [|reflexivity].
    destruct (py_int U (strip part)) as [week|]; [|reflexivity].
    simpl. destruct (keep_week io ie week); reflexivity.
Qed.

Lemma parse_parts_filter (io ie : bool) (parts : list pystr) (weeks : list Z) :
  parse_parts U io ie parts (filter (keep_week io ie) weeks) =
  map_outcome (filter (keep_week io ie)) (parse_parts U false false parts weeks).
Proof.
  revert weeks. induction parts as [|part parts IH]; intros weeks; simpl.
  - reflexivity.
  - rewrite parse_part_filter.
    destruct (parse_part U false false part) as [ws|e]; simpl; [|reflexivity].
    rewrite <- filter_app. apply IH.
Qed.

(** The body of [parse_weeks] returns the listed weeks that pass the
    filter set by the two markers, or raises what the listing raises. *)
Lemma parse_weeks_body_filter (s : pystr) :
  parse_weeks_body U s =
  map_outcome
    (fun weeks =>
       py_sorted (py_set (filter (keep_week (contains txt_odd_week s)
                                            (contains txt_even_week s)) weeks)))
    (parse_parts U false false (split ch_comma (clean_weeks (strip s))) []).
Proof.
  unfold parse_weeks_body.
  change txt_odd_week with (21333%N :: [] ++ [21608%N]).
  change txt_even_week with (21452%N :: [] ++ [21608%N]).
  rewrite !contains_strip by reflexivity.
  set (io := contains _ s). set (ie := contains _ s).
  change (@nil Z) with (filter (keep_week io ie) []) at 1.
  rewrite parse_parts_filter.
  destruct (parse_parts U false false _ []); reflexivity.
Qed.

Lemma listed_weeks_nil : listed_weeks U [] = [].
Proof. reflexivity. Qed.

Lemma In_parse_weeks (s : pystr) (w : Z) :
  In w (fst (parse_weeks U (PStr s))) <->
  In w (listed_weeks U s) /\
  keep_week (contains txt_odd_week s) (contains txt_even_week s) w = true.
Proof.
  destruct s as [|c s].
  - rewrite listed_weeks_nil. simpl. tauto.
  - unfold parse_weeks. cbn [truthy negb]. rewrite parse_weeks_body_filter.
    unfold listed_weeks.
    destruct (parse_parts U false false _ []) as [ws|e]; simpl.
    + rewrite In_sorted_set, filter_In. tauto.
    + tauto.
Qed.

(** The only exception of the body is the [ValueError] of a part. *)
Lemma parse_part_raises (io ie : bool) (part : pystr) (e : exn) :
  parse_part U io ie part = Raised e -> e = ValueError.
Proof.
  unfold parse_part. destruct (contains [ch_minus] (strip part)).
  - destruct (split ch_minus (strip part)) as [|a [|b [|c l]]]; try congruence.
    destruct (py_int U a), (py_int U b); congruence.
  - destruct (isdigit U (strip part)); [|discriminate].
    destruct (py_int U (strip part)); congruence.
Qed.




End Filters.

Lemma keep_week_odd (w : Z) : keep_week true false w = true <-> (w mod 2 = 1)%Z.
Proof.
  unfold keep_week. simpl. rewrite !orb_false_r. apply Z.eqb_eq.
Qed.

Lemma keep_week_even (w : Z) : keep_week false true w = true <-> (w mod 2 = 0)%Z.
Proof.
  unfold keep_week. simpl. rewrite !orb_false_r. apply Z.eqb_eq.
Qed.

(** ** The lines of a cell *)

Lemma forallb_replace_from (P : char -> bool) (old new s : pystr) (skip : nat) :
  forallb P new = true -> forallb P s = true ->
  forallb P (replace_from old new s skip) = true.
Proof.
  intros Hn. revert skip. induction s as [|c s IH]; intros skip H; [reflexivity|].
  simpl in H. apply andb_true_iff in H as [Hc Hs].
  cbn [replace_from]. destruct skip as [|n]; [|apply IH; exact Hs].
  destruct (starts_with old (c :: s)).
  - rewrite forallb_app, Hn. apply IH; exact Hs.
  - cbn [forallb]. rewrite Hc. apply IH; exact Hs.
Qed.

(** A cell of white space has no line. *)
Lemma cell_lines_blank (s : pystr) : strip s = [] -> cell_lines s = [].
Proof.
  intros H. unfold cell_lines.
  assert (strip (replace [ch_cr; ch_nl] [ch_nl] s) = []) as ->.
  { apply strip_nil_iff. apply forallb_replace_from; [reflexivity|].
    apply strip_nil_iff; exact H. }
  reflexivity.
Qed.

(** Every line kept starts with a character that is not white space. *)
Lemma cell_lines_head (s line : pystr) :
  In line (cell_lines s) -> exists c t, line = c :: t /\ is_space c = false.
Proof.
  unfold cell_lines. intros H. apply in_map_iff in H as [raw [<- H]].
  apply filter_In in H as [_ H].
  destruct (strip raw) as [|c t] eqn:E; [discriminate|].
  exists c, t. split; [reflexivity|]. eapply strip_head; exact E.
Qed.

Section Cells.

Variable U : unicode_tables.

Lemma parse_course_info_lines (s : pystr) :
  parse_course_info U (PStr s) = record_of_lines U (cell_lines s).
Proof.
  unfold parse_course_info.
  destruct s as [|c s]; [reflexivity|]. cbn [truthy negb orb].
  destruct (str_eqb (strip (c :: s)) []) eqn:E.
  - apply str_eqb_eq in E. rewrite cell_lines_blank by exact E. reflexivity.
  - reflexivity.
Qed.

Lemma record_of_lines_firstn (lines : list pystr) :
  record_of_lines U (firstn 4 lines) = record_of_lines U lines.
Proof.
  destruct lines as [|l0 [|l1 [|l2 [|l3 rest]]]]; reflexivity.
Qed.

Lemma classify_course_name (r : course) (content : pystr) :
  course_name (classify U r content) = course_name r.
Proof.
  unfold classify.
  repeat match goal with |- context [if ?b then _ else _] => destruct b end;
    reflexivity.
Qed.

Lemma fold_classify_course_name (l : list pystr) (r : course) :
  course_name (fold_left (classify U) l r) = course_name r.
Proof.
  revert r. induction l as [|x l IH]; intros r; simpl; [reflexivity|].
  rewrite IH. apply classify_course_name.
Qed.

End Cells.

(** The text before the first [[] of a line that starts with a character
    other than white space. *)
Lemma name_of_line (c : char) (t : pystr) :
  is_space c = false ->
  (strip (hd [] (split ch_lbrack (c :: t))) = [] <-> c = ch_lbrack).
Proof.
  intros Hc. cbn [split]. destruct (N.eqb_spec c ch_lbrack) as [->|Hne].
  - simpl. split; reflexivity.
  - split; [|congruence]. intros H. exfalso.
    destruct (split ch_lbrack t) as [|p ps]; cbn [hd] in H;
      apply strip_nil_iff in H; simpl in H; rewrite Hc in H; discriminate.
Qed.

(** ** Matching a period label *)

Section Slots.

Variable U : unicode_tables.

(** A greedy repetition in front of a character outside the class takes
    the whole run when the rest of the pattern then matches. *)
Lemma plus_greedy_run {A : Type} (k : cclass) (ds rest : pystr) (p : nat)
    (cont : nat -> pystr -> option A) (a : A) :
  ds <> [] -> forallb (in_class U k) ds = true ->
  match rest with [] => True | c :: _ => in_class U k c = false end ->
  cont (p + length ds)%nat rest = Some a ->
  plus_greedy U k p (ds ++ rest) cont = Some a.
Proof.
  intros Hne Hds Hrest. revert p.
  induction ds as [|c ds IH]; intros p Hc; [congruence|].
  simpl in Hds. apply andb_true_iff in Hds as [Hk Hds].
  cbn [app plus_greedy]. rewrite Hk.
  destruct ds as [|c' ds].
  - cbn [app] in *. simpl in Hc. rewrite Nat.add_1_r in Hc.
    destruct rest as [|x rest]; cbn [plus_greedy].
    + exact Hc.
    + rewrite Hrest. exact Hc.
  - rewrite (IH ltac:(discriminate) Hds (S p)); [reflexivity|].
    rewrite <- Hc. f_equal. simpl. lia.
Qed.

Lemma firstn_run (ds rest : pystr) (p : nat) :
  firstn (p + length ds - p) (ds ++ rest) = ds.
Proof.
  replace (p + length ds - p)%nat with (length ds + 0)%nat by lia.
  rewrite firstn_app_2. simpl. apply app_nil_r.
Qed.

Lemma search_from_found (r : regex) (p : nat) (s : pystr) (mo : mobj) :
  match_at U r p s = Some mo -> search_from U r p s = Some mo.
Proof. intros H. destruct s; simpl; rewrite H; reflexivity. Qed.

(** The pattern of line 143 finds the two numbers of a label. *)
Lemma search_slot_label (n m : pystr) :
  n <> [] -> m <> [] ->
  forallb (is_decimal U) n = true -> forallb (is_decimal U) m = true ->
  exists mo, re_search U pat_slot (slot_label n m) = Some mo
             /\ group mo 1 = n /\ group mo 2 = m.
Proof.
  intros Hn Hm Dn Dm. eexists. split.
  - unfold re_search, slot_label. apply search_from_found.
    unfold match_at, pat_slot, txt_ordinal, txt_period.
    cbn [rmatch app starts_with length skipn]. rewrite N.eqb_refl. cbn [andb].
    erewrite (plus_greedy_run CDigit n _ _ _ _ Hn Dn); [reflexivity | reflexivity |].
    cbn [starts_with]. unfold ch_minus. rewrite N.eqb_refl. cbn [andb length skipn].
    erewrite (plus_greedy_run CDigit m _ _ _ _ Hm Dm); [reflexivity | reflexivity |].
    cbn [starts_with]. rewrite N.eqb_refl. cbn [andb].
    reflexivity.
  - unfold group. cbn [m_groups lookup_group Nat.eqb].
    split; apply firstn_run.
Qed.

Lemma match_slot_prefix (p : nat) (s : pystr) (mo : mobj) :
  match_at U pat_slot p s = Some mo -> starts_with txt_ordinal s = true.
Proof.
  unfold match_at, pat_slot. cbn [rmatch].
  destruct (starts_with txt_ordinal s); [reflexivity | discriminate].
Qed.

Lemma search_slot_contains (s : pystr) (p : nat) (mo : mobj) :
  search_from U pat_slot p s = Some mo -> contains txt_ordinal s = true.
Proof.
  revert p. induction s as [|c s IH]; intros p; cbn [search_from contains].
  - destruct (match_at U pat_slot p []) eqn:E; [|discriminate].
    intros _. apply match_slot_prefix in E. rewrite E. reflexivity.
  - destruct (match_at U pat_slot p (c :: s)) eqn:E.
    + intros _. apply match_slot_prefix in E. rewrite E. reflexivity.
    + intros H. apply IH in H. rewrite H. apply orb_true_r.
Qed.

End Slots.

(** ** The clock-range table *)

Lemma dict_get_In {V : Type} (d : list (pystr * V)) (key : pystr) (v : V) :
  dict_get d key = Some v -> In key (map fst d).
Proof.
  induction d as [|[k x] d IH]; simpl; [discriminate|].
  destruct (str_eqb key k) eqn:E.
  - intros _. left. symmetry. apply str_eqb_eq; exact E.
  - intros H. right. apply IH; exact H.
Qed.

(** Two texts cut at the first character outside a class agree piece by
    piece. *)
Lemma app_sep_inj (P : char -> bool) (sep : char) (a a' b b' : pystr) :
  P sep = false -> forallb P a = true -> forallb P a' = true ->
  a ++ sep :: b = a' ++ sep :: b' -> a = a' /\ b = b'.
Proof.
  intros Hsep. revert a'. induction a as [|x a IH]; intros [|y a'] Ha Ha' H;
    simpl in *.
  - injection H as H. auto.
  - injection H as <- _. apply andb_true_iff in Ha' as [K _]. congruence.
  - injection H as -> _. apply andb_true_iff in Ha as [K _]. congruence.
  - injection H as -> H.
    apply andb_true_iff in Ha as [_ Ha]. apply andb_true_iff in Ha' as [_ Ha'].
    destruct (IH a' Ha Ha' H) as [-> ->]. auto.
Qed.

(** ** Events *)

Lemma semester_start_ordinal : ordinal semester_start = 739299%Z.
Proof. reflexivity. Qed.

(** The bound on a [timedelta] never decides: a shift that large leaves
    the calendar anyway. *)
Lemma make_event_spec (info : course) (time_key : pystr) (offset : Z)
    (clock : Z * Z * Z * Z) (week : Z) :
  make_event info time_key offset clock week =
  if week_in_range offset week
  then Returned (event_of info time_key offset clock week)
  else Raised OverflowError.
Proof.
  destruct clock as [[[sh sm] eh] em].
  unfold make_event, add_weeks_days, week_in_range, date_in_range, event_of.
  rewrite semester_start_ordinal. unfold MAX_DELTA_DAYS, MAXORDINAL, replace_time.
  cbn [ordinal hour minute].
  set (days := (7 * (week - 1) + offset)%Z).
  destruct (Z.ltb_spec 999999999 (Z.abs days)).
  - destruct (Z.leb_spec 1 (739299 + days)), (Z.leb_spec (739299 + days) 3652059);
      try reflexivity; lia.
  - destruct (Z.ltb_spec (739299 + days) 1), (Z.ltb_spec 3652059 (739299 + days)),
      (Z.leb_spec 1 (739299 + days)), (Z.leb_spec (739299 + days) 3652059);
      try reflexivity; lia.
Qed.

Lemma week_loop_events (info : course) (time_key : pystr) (offset : Z)
    (clock : Z * Z * Z * Z) (weeks : list Z) :
  fst (week_loop info time_key offset clock weeks) =
  map (event_of info time_key offset clock) (filter (week_in_range offset) weeks).
Proof.
  induction weeks as [|week weeks IH]; [reflexivity|].
  cbn [week_loop filter].
  destruct (week_loop info time_key offset clock weeks) as [evs ds].
  rewrite make_event_spec. simpl in IH.
  destruct (week_in_range offset week); simpl; congruence.
Qed.

Lemma weekday_key_truthy (weekday : pystr) (offset : Z) :
  dict_get weekday_map weekday = Some offset -> truthy (PStr weekday) = true.
Proof. destruct weekday; [discriminate | reflexivity]. Qed.

Section Columns.

Variable U : unicode_tables.

(** A cell that parses yields the events of its weeks, in order. *)
Lemma do_column_events (df : DataFrame) (row_idx : nat) (time_key : pystr)
    (clock : Z * Z * Z * Z) (col_idx : nat) (weekday : pystr) (offset : Z)
    (cell : pyval) (info : course) :
  iloc df 2 col_idx = Returned (PStr weekday) ->
  dict_get weekday_map weekday = Some offset ->
  iloc df row_idx col_idx = Returned cell ->
  parse_course_info U cell = Some info ->
  exists ds,
    do_column U df row_idx time_key clock col_idx =
    Returned (map (event_of info time_key offset clock)
                (filter (week_in_range offset)
                   (fst (parse_weeks U (PStr (week_info info))))), ds).
Proof.
  intros Hw Ho Hc Hp. unfold do_column. rewrite Hw.
  rewrite (weekday_key_truthy _ _ Ho). cbn [dict_get_val]. rewrite Ho, Hc.
  destruct cell as [| | |s|]; try discriminate Hp.
  assert (negb (truthy (PStr s)) || str_eqb (strip (py_str (PStr s))) [] = false) as ->.
  { cbn [py_str]. unfold parse_course_info in Hp.
    destruct (negb (truthy (PStr s)) || str_eqb (strip s) []); [discriminate | reflexivity]. }
  rewrite Hp.
  destruct (parse_weeks U (PStr (week_info info))) as [weeks d1]. cbn [fst].
  destruct weeks as [|w weeks]; [eexists; reflexivity|].
  pose proof (week_loop_events info time_key offset clock (w :: weeks)) as H.
  destruct (week_loop info time_key offset clock (w :: weeks)) as [evs d2].
  simpl in H. rewrite H. eexists; reflexivity.
Qed.

(** ** Rows *)

Lemma do_row_label (df : DataFrame) (row_idx : nat) (label : pystr) (mo : mobj) :
  iloc df row_idx 0 = Returned (PStr label) ->
  re_search U pat_slot label = Some mo ->
  do_row U df row_idx =
  if str_eqb (group mo 1) (group mo 2) then Returned ([], [])
  else
    match dict_get class_time_map (time_key_of mo) with
    | None => Returned ([], [DiagUnknownSlot (PStr label)])
    | Some clock => column_loop U df row_idx (time_key_of mo) clock (seq 1 7)
    end.
Proof.
  intros Hi Hs. unfold do_row. rewrite Hi. cbn [py_str].
  pose proof (search_slot_contains U label 0 mo Hs) as Hc. rewrite Hc.
  assert (truthy (PStr label) = true) as ->.
  { destruct label; [discriminate Hc | reflexivity]. }
  cbn [negb orb]. rewrite Hs. reflexivity.
Qed.

(** No key of the clock-range table names a period twice. *)
Lemma table_keys_distinct (n m : pystr) (clock : Z * Z * Z * Z) :
  forallb (is_decimal U) n = true -> forallb (is_decimal U) m = true ->
  dict_get class_time_map (n ++ [ch_minus] ++ m ++ txt_period) = Some clock ->
  py_int U n <> py_int U m.
Proof.
  intros Dn Dm H. apply dict_get_In in H. cbn [map fst class_time_map] in H.
  assert (forall d1 d2 : pystr,
            forallb (is_decimal U) d1 = true -> forallb (is_decimal U) d2 = true ->
            d1 ++ [ch_minus] ++ d2 ++ txt_period = n ++ [ch_minus] ++ m ++ txt_period ->
            n = d1 /\ m = d2) as K.
  { intros d1 d2 D1 D2 E. symmetry in E.
    apply (app_sep_inj (is_decimal U) ch_minus) in E as [-> E]; try assumption;
      [|reflexivity].
    apply app_inv_tail in E. auto. }
  repeat destruct H as [H|H]; try contradiction;
    match type of H with
    | ?k = _ =>
      match k with
      | [?a; _; ?b; _] => destruct (K [a] [b] eq_refl eq_refl H) as [-> ->]
      | [?a; _; ?b; ?c; _] => destruct (K [a] [b; c] eq_refl eq_refl H) as [-> ->]
      end
    end; vm_compute; discriminate.
Qed.

End Columns.

(** ** What a match consumes *)

Section Consumed.

Variable U : unicode_tables.
Variable Q : char -> bool.
Variable A : Type.

Lemma plus_greedy_consumed (k : cclass) (s : pystr) (p : nat)
    (cont : nat -> pystr -> option A) (a : A) :
  (forall c, in_class U k c = true -> Q c = true) ->
  plus_greedy U k p s cont = Some a ->
  exists pre s' p', s = pre ++ s' /\ forallb Q pre = true /\ cont p' s' = Some a.
Proof.
  intros Hk. revert p. induction s as [|c s IH]; intros p; cbn [plus_greedy];
    [discriminate|].
  destruct (in_class U k c) eqn:Ec; [|discriminate].
  destruct (plus_greedy U k (S p) s cont) as [b|] eqn:E.
  - intros H; injection H as ->. apply IH in E as [pre [s' [p' [-> [Hq Hc]]]]].
    exists (c :: pre), s', p'. cbn [forallb app]. rewrite (Hk c Ec), Hq. auto.
  - intros H. exists [c], s, (S p). cbn [forallb app]. rewrite (Hk c Ec). auto.
Qed.

Lemma star_lazy_consumed (k : cclass) (s : pystr) (p : nat)
    (cont : nat -> pystr -> option A) (a : A) :
  (forall c, in_class U k c = true -> Q c = true) ->
  star_lazy U k p s cont = Some a ->
  exists pre s' p', s = pre ++ s' /\ forallb Q pre = true /\ cont p' s' = Some a.
Proof.
  intros Hk. revert p. induction s as [|c s IH]; intros p; cbn [star_lazy].
  - destruct (cont p []) eqn:E; [|discriminate].
    intros H; injection H as ->. exists [], [], p. auto.
  - destruct (cont p (c :: s)) eqn:E.
    + intros H; injection H as ->. exists [], (c :: s), p. auto.
    + destruct (in_class U k c) eqn:Ec; [|discriminate].
      intros H. apply IH in H as [pre [s' [p' [-> [Hq Hc]]]]].
      exists (c :: pre), s', p'. cbn [forallb app]. rewrite (Hk c Ec), Hq. auto.
Qed.

(** A match goes on with its continuation after a prefix of the subject
    made of characters that the pattern can consume. *)
Lemma rmatch_consumed (r : regex) (p : nat) (s : pystr) (g : groups)
    (cont : nat -> pystr -> groups -> option A) (a : A) :
  re_chars U Q r ->
  rmatch U r p s g cont = Some a ->
  exists pre s' p' g',
    s = pre ++ s' /\ forallb Q pre = true /\ cont p' s' g' = Some a.
Proof.
  revert p s g cont.
  induction r as [t|k|k|k|r1 IH1 r2 IH2|r1 IH1 r2 IH2|r1 IH1|i r1 IH1| |];
    intros p s g cont Hr; cbn [rmatch]; cbn [re_chars] in Hr.
  - destruct (starts_with t s) eqn:E; [|discriminate].
    apply starts_with_spec in E as [post ->]. intros H.
    exists t, post, (p + length t)%nat, g. repeat split; auto.
    rewrite <- H. f_equal. rewrite skipn_app, skipn_all, Nat.sub_diag. reflexivity.
  - destruct s as [|c s]; [discriminate|].
    destruct (in_class U k c) eqn:Ec; [|discriminate]. intros H.
    exists [c], s, (S p), g. cbn [forallb app]. rewrite (Hr c Ec). auto.
  - intros H. apply plus_greedy_consumed in H as [pre [s' [p' H]]]; [|exact Hr].
    exists pre, s', p', g. exact H.
  - intros H. apply star_lazy_consumed in H as [pre [s' [p' H]]]; [|exact Hr].
    exists pre, s', p', g. exact H.
  - destruct Hr as [H1 H2]. intros H.
    apply IH1 in H as [pre1 [s1 [p1 [g1 [-> [Hq1 H]]]]]]; [|exact H1].
    apply IH2 in H as [pre2 [s2 [p2 [g2 [-> [Hq2 H]]]]]]; [|exact H2].
    exists (pre1 ++ pre2), s2, p2, g2. rewrite forallb_app, Hq1, Hq2, app_assoc. auto.
  - destruct Hr as [H1 H2].
    destruct (rmatch U r1 p s g cont) as [b|] eqn:E.
    + intros H; injection H as ->. apply IH1 in E; assumption.
    + intros H. apply IH2 in H; assumption.
  - destruct (rmatch U r1 p s g cont) as [b|] eqn:E.
    + intros H; injection H as ->. apply IH1 in E; assumption.
    + intros H. exists [], s, p, g. auto.
  - intros H. apply IH1 in H as [pre [s' [p' [g' H]]]]; [|exact Hr].
    exists pre, s', p', ((i, firstn (p' - p) s) :: g'). exact H.
  - destruct (Nat.eqb p 0); [|discriminate]. intros H. exists [], s, p, g. auto.
  - intros H. exists [], s, p, g. repeat split; auto.
    destruct s as [|c [|d s]]; try discriminate; auto.
    destruct (c =? ch_nl)%N; [exact H | discriminate].
Qed.

End Consumed.

Section WeekPattern.

Variable U : unicode_tables.

Lemma pat_week_chars : re_chars U not_comma (RSeq (RGroup 1 (RAlt re_range (RPlus CDigit)))
       (ROpt (RGroup 2 (RAlt (RText txt_odd_week)
                                (RAlt (RText txt_even_week) (RText txt_week)))))).
Proof.
  assert (forall c, in_class U CDigit c = true -> not_comma c = true) as Hd.
  { intros c Hc. unfold not_comma. destruct (N.eqb_spec c ch_comma) as [->|]; [|reflexivity].
    discriminate Hc. }
  cbn [re_chars re_range]. repeat split; try exact Hd; reflexivity.
Qed.

(** Rule 1 of the classification never takes a content with a comma. *)
Lemma pat_week_no_comma (content : pystr) :
  In ch_comma content -> re_match U pat_week content = None.
Proof.
  intros Hin. destruct (re_match U pat_week content) as [mo|] eqn:E; [|reflexivity].
  exfalso. unfold re_match, match_at, pat_week in E.
  cbn [rmatch Nat.eqb] in E.
  change (rmatch U (RGroup 1 (RAlt re_range (RPlus CDigit))) 0 content []
            (fun p' s' g' =>
               rmatch U (ROpt (RGroup 2 (RAlt (RText txt_odd_week)
                    (RAlt (RText txt_even_week) (RText txt_week))))) p' s' g'
                 (fun p'0 s'0 g'0 =>
                    rmatch U REol p'0 s'0 g'0
                      (fun p1 _ g1 => Some {| m_start := 0; m_end := p1; m_groups := g1 |})))
          = Some mo) in E.
  destruct pat_week_chars as [H1 H2].
  apply (rmatch_consumed U not_comma) in E as [pre1 [s1 [p1 [g1 [-> [Hq1 E]]]]]]; [|exact H1].
  apply (rmatch_consumed U not_comma) in E as [pre2 [s2 [p2 [g2 [-> [Hq2 E]]]]]]; [|exact H2].
  cbn [rmatch] in E.
  rewrite !in_app_iff in Hin. rewrite forallb_forall in Hq1, Hq2.
  destruct Hin as [K|[K|K]].
  - apply Hq1 in K. discriminate K.
  - apply Hq2 in K. discriminate K.
  - destruct s2 as [|c [|d s2]]; try discriminate; [destruct K|].
    destruct K as [->|[]]. discriminate E.
Qed.

End WeekPattern.

(** * Runs of the model *)

(** Texts of ASCII and CJK characters never reach the tables [U]: the
    runs below hold for every choice of them. *)

Section Runs.

Variable U : unicode_tables.

Example int_of_texts :
  py_int U (py " 12 ") = Some 12%Z /\ py_int U (py "+7") = Some 7%Z
  /\ py_int U (py "1_0") = Some 10%Z /\ py_int U (py "007") = Some 7%Z
  /\ py_int U (py "") = None /\ py_int U (py "1__0") = None
  /\ py_int U (py "十") = None.
Proof. repeat split; vm_compute; reflexivity. Qed.

Example str_of_ints :
  str_of_int 0 = py "0" /\ str_of_int 2025 = py "2025" /\ str_of_int (-3) = py "-3".
Proof. repeat split; vm_compute; reflexivity. Qed.

Example strip_and_split :
  strip (py "  a b  ") = py "a b"
  /\ split ch_comma (py "1-8,,10") = [py "1-8"; []; py "10"]
  /\ replace txt_week [] (py "1周,2周") = py "1,2".
Proof. repeat split; vm_compute; reflexivity. Qed.

Example findall_brackets :
  re_findall U pat_bracket (py "[1-16周][教三-301]x[1-2节] [") =
  [py "1-16周"; py "教三-301"; py "1-2节"].
Proof. vm_compute. reflexivity. Qed.

Example sub_outer_brackets :
  re_sub U pat_outer_bracket [] (py "[张老师]") = py "张老师"
  /\ re_sub U pat_outer_bracket [] (py "[a][b]") = py "a][b"
  /\ re_sub U pat_outer_bracket [] (py "张老师") = py "张老师".
Proof. repeat split; vm_compute; reflexivity. Qed.

(** The first alternative of the week pattern fails on a single number and
    the second one takes it; a trailing text is refused by [$]. *)
Example week_pattern :
  is_some (re_match U pat_week (py "12周")) = true
  /\ is_some (re_match U pat_week (py "1-15单周")) = true
  /\ is_some (re_match U pat_week (py "1-2节")) = false
  /\ is_some (re_match U pat_week (py "3,5周")) = false.
Proof. repeat split; vm_compute; reflexivity. Qed.

Example search_slot :
  option_map (fun m => (group m 1, group m 2)) (re_search U pat_slot (py "上午 第3-4节"))
  = Some (py "3", py "4").
Proof. vm_compute. reflexivity. Qed.

Example parse_math_cell : parse_course_info U (PStr math_cell) = Some math_info.
Proof. vm_compute. reflexivity. Qed.

(** The formats of the docstring of [parse_weeks]. *)
Example weeks_of_docstring :
  parse_weeks U (PStr (py "2-16周")) = (py_range 2 17, [])
  /\ parse_weeks U (PStr (py "1-8,10-16周")) = (py_range 1 9 ++ py_range 10 17, [])
  /\ parse_weeks U (PStr (py "15周")) = ([15%Z], [])
  /\ parse_weeks U (PStr (py "3, 5,7-9周")) = ([3; 5; 7; 8; 9]%Z, []).
Proof. repeat split; vm_compute; reflexivity. Qed.

Example semester_start_monday :
  ordinal semester_start = 739299%Z /\ weekday_of semester_start = 0%Z
  /\ ordinal (datetime_ymd 9999 12 31) = MAXORDINAL.
Proof. repeat split; vm_compute; reflexivity. Qed.

End Runs.

(** * The claims *)

(** C1: a cell that parses yields, for every week of its week set whose
    date exists, one event dated [semester_start + (week - 1)] weeks [+] the
    weekday's offset, with the clock range of the slot as start and end
    time; the sheet of the example yields 16 events, on the 16 Mondays from
    17 February 2025, from 08:00 to 09:50, with the teacher and the place in
    the description. *)
Theorem event_dates_from_weeks (U : unicode_tables) :
  (forall (df : DataFrame) (row_idx : nat) (time_key : pystr) (clock : Z * Z * Z * Z)
          (col_idx : nat) (weekday : pystr) (offset : Z) (cell : pyval) (info : course),
      iloc df 2 col_idx = Returned (PStr weekday) ->
      dict_get weekday_map weekday = Some offset ->
      iloc df row_idx col_idx = Returned cell ->
      parse_course_info U cell = Some info ->
      exists ds,
        do_column U df row_idx time_key clock col_idx =
        Returned (map (event_of info time_key offset clock)
                    (filter (week_in_range offset)
                       (fst (parse_weeks U (PStr (week_info info))))), ds))
  /\ (exists r,
        create_ical_from_excel U example_grid = Returned r
        /\ event_count r = 16%nat
        /\ printed r = []
        /\ calendar r =
           map (event_of math_info (py "1-2节") 0 (8, 0, 9, 50)%Z)
             [1; 2; 3; 4; 5; 6; 7; 8; 9; 10; 11; 12; 13; 14; 15; 16]%Z
        /\ map dtstart (calendar r) =
           map (fun i => {| ordinal := ordinal semester_start + 7 * Z.of_nat i;
                            hour := 8; minute := 0 |}) (seq 0 16)
        /\ map dtend (calendar r) =
           map (fun i => {| ordinal := ordinal semester_start + 7 * Z.of_nat i;
                            hour := 9; minute := 50 |}) (seq 0 16)
        /\ Forall (fun e => weekday_of (dtstart e) = 0%Z) (calendar r)
        /\ Forall (fun e => contains (py "教师: 张老师") (description e) = true
                            /\ contains (py "地点: 教三-301") (description e) = true)
             (calendar r)).
Proof.
  split.
  - intros. eapply do_column_events; eassumption.
  - eexists. split; [vm_compute; reflexivity|].
    repeat split; try (vm_compute; reflexivity);
      vm_compute; repeat constructor.
Qed.

Lemma event_dates_from_weeks_witness :
  exists ds,
    do_column ascii_digits_only example_grid 3 (py "1-2节") (8, 0, 9, 50)%Z 1 =
    Returned (map (event_of math_info (py "1-2节") 0 (8, 0, 9, 50)%Z)
                (filter (week_in_range 0)
                   (fst (parse_weeks ascii_digits_only (PStr (week_info math_info))))), ds).
Proof.
  apply (proj1 (event_dates_from_weeks ascii_digits_only) example_grid 3%nat
           (py "1-2节") (8, 0, 9, 50)%Z 1%nat (py "星期一") 0%Z (PStr math_cell) math_info);
    vm_compute; reflexivity.
Defined.

(** C2: for a range ["a-b"] of week numbers [a <= b] without marker,
    whose numerals [int] accepts (at most [int_max_str_digits] digits, that
    is [b < int_str_bound]), [parse_weeks] returns [a, a+1, ..., b]; for a
    comma-separated list of such ranges it returns, in ascending order and
    without duplicates, the weeks of the ranges and no other;
    ["1-8,10-16"] has no week 9. *)
Theorem parse_weeks_ranges (U : unicode_tables) :
  (forall a b : Z, (0 <= a <= b)%Z -> (b < int_str_bound)%Z ->
      parse_weeks U (PStr (range_text a b)) = (py_range a (b + 1), [])
      /\ StronglySorted Z.lt (py_range a (b + 1))
      /\ forall w, In w (py_range a (b + 1)) <-> (a <= w <= b)%Z)
  /\ (forall rs : list (Z * Z),
        Forall (fun r => (0 <= fst r <= snd r)%Z /\ (snd r < int_str_bound)%Z) rs ->
        exists ws,
          parse_weeks U (PStr (ranges_text rs)) = (ws, [])
          /\ StronglySorted Z.lt ws
          /\ forall w, In w ws <-> exists r, In r rs /\ (fst r <= w <= snd r)%Z)
  /\ parse_weeks U (PStr (py "1-8,10-16")) =
     ([1; 2; 3; 4; 5; 6; 7; 8; 10; 11; 12; 13; 14; 15; 16]%Z, []).
Proof.
  split; [|split].
  - intros a b H L. split; [|split].
    + change (range_text a b) with (ranges_text [(a, b)]).
      rewrite parse_weeks_of_ranges by (repeat constructor; simpl; lia).
      cbn [flat_map fst snd]. rewrite app_nil_r.
      rewrite sorted_set_fixed by apply py_range_strict. reflexivity.
    + apply py_range_strict.
    + intros w. rewrite In_py_range. lia.
  - intros rs H. eexists. split; [apply parse_weeks_of_ranges; exact H|].
    split; [apply sorted_set_strict|].
    intros w. rewrite In_sorted_set, in_flat_map. split.
    + intros [r [Hr Hw]]. exists r. split; [exact Hr|].
      apply In_py_range in Hw. lia.
    + intros [r [Hr Hw]]. exists r. split; [exact Hr|].
      apply In_py_range. lia.
  - vm_compute. reflexivity.
Qed.

Lemma parse_weeks_ranges_witness :
  parse_weeks ascii_digits_only (PStr (range_text 1 16)) = (py_range 1 (16 + 1), []).
Proof.
  apply (proj1 (parse_weeks_ranges ascii_digits_only) 1%Z 16%Z);
    [lia | pose proof int_str_bound_large; lia].
Defined.

(** C3, as the source has it: a week is returned when it is listed and
    passes the filter of the markers, which keeps odd weeks when only 单周
    is present, even weeks when only 双周 is present, and every week when
    neither or both are present; ["1-15单周"] gives the odd weeks of 1..15
    and ["2-16双周"] the even weeks of 2..16. *)
Theorem parse_weeks_parity (U : unicode_tables) :
  (forall (s : pystr) (w : Z),
      In w (fst (parse_weeks U (PStr s))) <->
      In w (listed_weeks U s) /\
      match contains txt_odd_week s, contains txt_even_week s with
      | true, false => (w mod 2 = 1)%Z
      | false, true => (w mod 2 = 0)%Z
      | _, _ => True
      end)
  /\ parse_weeks U (PStr (py "1-15单周")) = ([1; 3; 5; 7; 9; 11; 13; 15]%Z, [])
  /\ parse_weeks U (PStr (py "2-16双周")) = ([2; 4; 6; 8; 10; 12; 14; 16]%Z, []).
Proof.
  split; [|split; vm_compute; reflexivity].
  intros s w. rewrite In_parse_weeks.
  destruct (contains txt_odd_week s), (contains txt_even_week s).
  - rewrite keep_both. tauto.
  - rewrite keep_week_odd. tauto.
  - rewrite keep_week_even. tauto.
  - rewrite keep_all. tauto.
Qed.

(** C3 as stated fails: with both markers present the even weeks stay. *)
Lemma parse_weeks_both_markers :
  contains txt_odd_week both_markers = true
  /\ parse_weeks ascii_digits_only (PStr both_markers) = ([1; 2; 3; 4]%Z, []).
Proof. split; vm_compute; reflexivity. Qed.



(** C5 does not hold of the source: the pattern of rule 1 takes one number
    or one range, so a content with a comma never matches it; after a
    bracket that set [week_info], the list ["1-8,10-16周"] is taken for the
    time. *)
Theorem comma_list_misses_rule_1 (U : unicode_tables) :
  (forall content : pystr, In ch_comma content -> re_match U pat_week content = None)
  /\ parse_course_info U (PStr room_then_weeks_cell) =
     Some {| course_name := py "高等数学"; teacher := py "张老师";
             class_info := py "计算机2301"; week_info := py "301";
             location := []; time_info := py "1-8,10-16周" |}.
Proof.
  split; [apply pat_week_no_comma | vm_compute; reflexivity].
Qed.

(** C6, as the source has it: the name of a record is the stripped text
    before the first [[] of the first non-blank line, and it is empty
    exactly when that line starts with [[]. *)
Theorem course_name_empty_iff (U : unicode_tables) (v : pyval) (r : course) :
  parse_course_info U v = Some r ->
  exists (s l0 : pystr) (rest : list pystr),
    v = PStr s /\ cell_lines s = l0 :: rest
    /\ course_name r = strip (hd [] (split ch_lbrack l0))
    /\ (course_name r = [] <-> starts_with [ch_lbrack] l0 = true).
Proof.
  intros H. destruct v as [| | |s|]; try discriminate H.
  rewrite parse_course_info_lines in H. unfold record_of_lines in H.
  destruct (cell_lines s) as [|l0 [|l1 [|l2 [|l3 rest]]]] eqn:E; try discriminate H.
  injection H as <-. exists s, l0, (l1 :: l2 :: l3 :: rest).
  rewrite fold_classify_course_name. cbn [course_name].
  repeat split; try reflexivity; try exact E.
  - intros H. destruct (cell_lines_head s l0) as [c [t [-> Hc]]];
      [rewrite E; left; reflexivity|].
    apply (name_of_line c t Hc) in H. subst c. reflexivity.
  - intros H. destruct (cell_lines_head s l0) as [c [t [-> Hc]]];
      [rewrite E; left; reflexivity|].
    apply (name_of_line c t Hc). cbn [starts_with] in H.
    apply andb_true_iff in H as [H _]. apply N.eqb_eq in H. congruence.
Qed.

Lemma course_name_empty_iff_witness :
  exists (s l0 : pystr) (rest : list pystr),
    PStr math_cell = PStr s /\ cell_lines s = l0 :: rest
    /\ course_name math_info = strip (hd [] (split ch_lbrack l0))
    /\ (course_name math_info = [] <-> starts_with [ch_lbrack] l0 = true).
Proof.
  apply (course_name_empty_iff ascii_digits_only (PStr math_cell) math_info).
  vm_compute. reflexivity.
Defined.

(** C6 as stated fails: a first line in brackets gives a record with an
    empty name. *)
Lemma course_name_can_be_empty :
  exists r, parse_course_info ascii_digits_only (PStr bracketed_name_cell) = Some r
            /\ course_name r = [].
Proof. eexists. split; vm_compute; reflexivity. Qed.

(** C7: a cell with fewer than 4 non-blank lines gives no record, as the
    cell ["体育\n[王老师]"] shows. *)
Theorem short_cell_is_none (U : unicode_tables) :
  (forall s : pystr, (length (cell_lines s) < 4)%nat -> parse_course_info U (PStr s) = None)
  /\ parse_course_info U (PStr short_cell) = None.
Proof.
  split; [|vm_compute; reflexivity].
  intros s H. rewrite parse_course_info_lines.
  destruct (cell_lines s) as [|l0 [|l1 [|l2 [|l3 rest]]]]; try reflexivity.
  simpl in H. lia.
Qed.

Lemma short_cell_is_none_witness :
  parse_course_info ascii_digits_only (PStr short_cell) = None.
Proof.
  apply (proj1 (short_cell_is_none ascii_digits_only) short_cell).
  vm_compute. lia.
Defined.

(** C8: a row whose label is ["第n-m节"] with [n] and [m] the same number
    yields no event, whatever its cells hold; when the two numbers are
    written alike nothing is printed either. *)
Theorem single_period_row_skipped (U : unicode_tables) (df : DataFrame)
    (row_idx : nat) (n m : pystr) :
  iloc df row_idx 0 = Returned (PStr (slot_label n m)) ->
  n <> [] -> m <> [] ->
  forallb (is_decimal U) n = true -> forallb (is_decimal U) m = true ->
  py_int U n = py_int U m ->
  exists ds, do_row U df row_idx = Returned ([], ds) /\ (n = m -> ds = []).
Proof.
  intros Hi Hn Hm Dn Dm Heq.
  destruct (search_slot_label U n m Hn Hm Dn Dm) as [mo [Hs [G1 G2]]].
  rewrite (do_row_label U df row_idx _ mo Hi Hs), G1, G2.
  destruct (str_eqb n m) eqn:E.
  - exists []. auto.
  - unfold time_key_of. rewrite G1, G2.
    destruct (dict_get class_time_map _) as [clock|] eqn:K.
    + exfalso. revert Heq. eapply table_keys_distinct; eassumption.
    + eexists. split; [reflexivity|]. intros ->. rewrite str_eqb_refl in E. discriminate.
Qed.

Lemma single_period_row_skipped_witness :
  exists ds,
    do_row ascii_digits_only single_period_grid 3 = Returned ([], ds)
    /\ (py "1" = py "1" -> ds = []).
Proof.
  apply (single_period_row_skipped ascii_digits_only single_period_grid 3%nat
           (py "1") (py "1"));
    try reflexivity; vm_compute; discriminate.
Defined.

(** C9: a row whose period label is extracted and is not a key of the
    clock-range table yields no event and one message with the label, and
    the rows after it are processed as they would be without it. *)
Theorem unknown_slot_row_skipped (U : unicode_tables) (df : DataFrame)
    (row_idx : nat) (label : pystr) (mo : mobj) (rest : list nat) :
  iloc df row_idx 0 = Returned (PStr label) ->
  re_search U pat_slot label = Some mo ->
  group mo 1 <> group mo 2 ->
  dict_get class_time_map (time_key_of mo) = None ->
  do_row U df row_idx = Returned ([], [DiagUnknownSlot (PStr label)])
  /\ row_loop U df (row_idx :: rest) =
     match row_loop U df rest with
     | Returned (evs, ds) => Returned (evs, DiagUnknownSlot (PStr label) :: ds)
     | Raised e => Raised e
     end.
Proof.
  intros Hi Hs Hg Hk.
  assert (do_row U df row_idx = Returned ([], [DiagUnknownSlot (PStr label)])) as H.
  { rewrite (do_row_label U df row_idx _ mo Hi Hs), Hk.
    apply str_eqb_neq in Hg. rewrite Hg. reflexivity. }
  split; [exact H|].
  cbn [row_loop]. rewrite H.
  destruct (row_loop U df rest) as [[evs ds]|e]; reflexivity.
Qed.

Lemma unknown_slot_row_skipped_witness :
  do_row ascii_digits_only unknown_slot_grid 3 =
  Returned ([], [DiagUnknownSlot (PStr (py "第11-12节"))])
  /\ row_loop ascii_digits_only unknown_slot_grid [3%nat; 4%nat] =
     match row_loop ascii_digits_only unknown_slot_grid [4%nat] with
     | Returned (evs, ds) =>
       Returned (evs, DiagUnknownSlot (PStr (py "第11-12节")) :: ds)
     | Raised e => Raised e
     end.
Proof.
  apply (unknown_slot_row_skipped ascii_digits_only unknown_slot_grid 3%nat
           (py "第11-12节")
           {| m_start := 0; m_end := 7;
              m_groups := [(2%nat, py "12"); (1%nat, py "11")] |}
           [4%nat]);
    vm_compute; try reflexivity; discriminate.
Defined.

(** The sheet of the witness of C9: the row after the skipped one gives
    its 16 events. *)
Lemma unknown_slot_then_known (U : unicode_tables) :
  exists r,
    create_ical_from_excel U unknown_slot_grid = Returned r
    /\ event_count r = 16%nat
    /\ printed r = [DiagUnknownSlot (PStr (py "第11-12节"))].
Proof. eexists. split; [vm_compute; reflexivity|]. split; reflexivity. Qed.

(** C10: the record depends on the first four non-blank lines only: two
    cells that agree on them give the same result. *)
Theorem later_lines_ignored (U : unicode_tables) (s1 s2 : pystr) :
  firstn 4 (cell_lines s1) = firstn 4 (cell_lines s2) ->
  parse_course_info U (PStr s1) = parse_course_info U (PStr s2).
Proof.
  intros H. rewrite !parse_course_info_lines.
  rewrite <- (record_of_lines_firstn U (cell_lines s1)), H.
  apply record_of_lines_firstn.
Qed.

Lemma later_lines_ignored_witness :
  parse_course_info ascii_digits_only (PStr math_cell) =
  parse_course_info ascii_digits_only (PStr math_cell_with_note).
Proof.
  apply (later_lines_ignored ascii_digits_only math_cell math_cell_with_note).
  vm_compute. reflexivity.
Defined.

(** * Further properties *)

(** ** Characters kept by the string operations *)

Lemma In_lstrip (c : char) (s : pystr) : In c (lstrip s) -> In c s.
Proof.
  induction s as [|a s IH]; simpl; [tauto|].
  destruct (is_space a); simpl; tauto.
Qed.

Lemma In_strip (c : char) (s : pystr) : In c (strip s) -> In c s.
Proof.
  unfold strip, rstrip. intros H. apply In_lstrip.
  apply in_rev. apply In_lstrip. apply in_rev. exact H.
Qed.

Lemma In_replace_from (c : char) (old s : pystr) (skip : nat) :
  In c (replace_from old [] s skip) -> In c s.
Proof.
  revert skip. induction s as [|a s IH]; intros skip; cbn [replace_from]; [tauto|].
  destruct skip as [|n].
  - destruct (starts_with old (a :: s)); cbn [app].
    + intros H. right. eapply IH; exact H.
    + intros [->|H]; [left; reflexivity | right; eapply IH; exact H].
  - intros H. right. eapply IH; exact H.
Qed.

Lemma In_clean_weeks (c : char) (s : pystr) : In c (clean_weeks s) -> In c s.
Proof.
  unfold clean_weeks, replace. intros H.
  repeat apply In_replace_from in H. exact H.
Qed.

Lemma In_split (sep c : char) (s part : pystr) :
  In part (split sep s) -> In c part -> In c s.
Proof.
  revert part. induction s as [|a s IH]; intros part; cbn [split].
  - intros [<-|[]] [].
  - destruct (N.eqb_spec a sep) as [->|Hne].
    + intros [<-|H] Hc; [destruct Hc | right; eapply IH; eassumption].
    + destruct (split sep s) as [|p ps] eqn:E.
      * intros [<-|[]] [<-|[]]. left. reflexivity.
      * intros [<-|H] Hc.
        -- destruct Hc as [<-|Hc]; [left; reflexivity|].
           right. apply (IH p); [left; reflexivity | exact Hc].
        -- right. apply (IH part); [right; exact H | exact Hc].
Qed.

Lemma split_no_sep (sep : char) (s part : pystr) :
  In part (split sep s) -> ~ In sep part.
Proof.
  revert part. induction s as [|a s IH]; intros part; cbn [split].
  - intros [<-|[]] [].
  - destruct (N.eqb_spec a sep) as [->|Hne].
    + intros [<-|H]; [intros [] | apply IH; exact H].
    + destruct (split sep s) as [|p ps] eqn:E.
      * intros [<-|[]] [K|[]]. congruence.
      * intros [<-|H].
        -- intros [K|K]; [congruence|]. apply (IH p); [left; reflexivity | exact K].
        -- apply IH. right. exact H.
Qed.

(** ** Parts of a week expression *)

Section Parts.

Variable U : unicode_tables.

Lemma isdigit_ascii (ds : pystr) :
  ds <> [] -> forallb is_ascii_digit ds = true -> isdigit U ds = true.
Proof.
  intros Hne H. unfold isdigit. destruct ds as [|c ds]; [congruence|].
  rewrite forallb_forall in *. intros x Hx. specialize (H x Hx).
  unfold ch_isdigit. rewrite H. apply ascii_digit_range in H.
  destruct (N.ltb_spec x 128); [reflexivity | lia].
Qed.

Lemma isdigit_none (part : pystr) :
  (forall c, In c part -> ch_isdigit U c = false) -> isdigit U part = false.
Proof.
  intros H. unfold isdigit. destruct part as [|c part]; [reflexivity|].
  cbn [forallb]. rewrite (H c) by (left; reflexivity). reflexivity.
Qed.

(** The first part that raises ends the loop: no part after it is read
    and the weeks collected so far are lost. *)
Lemma parse_parts_raised_part (io ie : bool) (parts : list pystr) (weeks : list Z)
    (part : pystr) (e : exn) :
  In part parts -> parse_part U io ie part = Raised e ->
  parse_parts U io ie parts weeks = Raised ValueError.
Proof.
  intros Hin Hp. revert weeks. induction parts as [|p parts IH]; intros weeks;
    [destruct Hin|].
  cbn [parse_parts]. destruct (parse_part U io ie p) as [ws|x] eqn:E.
  - destruct Hin as [->|Hin]; [congruence|]. apply IH; exact Hin.
  - f_equal. eapply parse_part_raises; exact E.
Qed.

Lemma parse_parts_nothing (io ie : bool) (parts : list pystr) (weeks : list Z) :
  (forall part, In part parts -> parse_part U io ie part = Returned []) ->
  parse_parts U io ie parts weeks = Returned weeks.
Proof.
  revert weeks. induction parts as [|p parts IH]; intros weeks H; [reflexivity|].
  cbn [parse_parts]. rewrite (H p) by (left; reflexivity).
  rewrite app_nil_r. apply IH. intros part Hp. apply H. right. exact Hp.
Qed.

End Parts.

Lemma replace_suffix (x : char) (new ds : pystr) :
  ~ In x ds -> replace [x] new (ds ++ [x]) = ds ++ new.
Proof.
  unfold replace. induction ds as [|c ds IH]; intros H.
  - cbn [app replace_from starts_with]. rewrite N.eqb_refl. cbn [andb length Nat.sub].
    rewrite app_nil_r. reflexivity.
  - cbn [app replace_from starts_with].
    destruct (N.eqb_spec x c) as [->|_]; [exfalso; apply H; left; reflexivity|].
    cbn [andb]. f_equal. apply IH. intros K; apply H; right; exact K.
Qed.

Lemma replace_from_skip_all (old new m : pystr) :
  replace_from old new m (length m) = [].
Proof. induction m as [|c m IH]; [reflexivity | exact IH]. Qed.

Lemma starts_with_refl (p : pystr) : starts_with p p = true.
Proof. apply starts_with_spec. exists []. symmetry. apply app_nil_r. Qed.

(** A marker at the end of a text that does not hold its first character
    is removed, and nothing else. *)
Lemma replace_marker_suffix (x : char) (m new ds : pystr) :
  ~ In x ds -> replace (x :: m) new (ds ++ x :: m) = ds ++ new.
Proof.
  unfold replace. induction ds as [|c ds IH]; intros H.
  - cbn [app replace_from]. rewrite starts_with_refl.
    cbn [length Nat.sub]. rewrite Nat.sub_0_r, replace_from_skip_all, app_nil_r.
    reflexivity.
  - cbn [app replace_from starts_with].
    destruct (N.eqb_spec x c) as [->|_]; [exfalso; apply H; left; reflexivity|].
    cbn [andb app]. f_equal. apply IH. intros K; apply H; right; exact K.
Qed.

Lemma digits_not_space (ds : pystr) :
  forallb is_ascii_digit ds = true -> forallb (fun c => negb (is_space c)) ds = true.
Proof.
  rewrite !forallb_forall. intros H c Hc.
  rewrite ascii_digit_not_space; [reflexivity | apply H; exact Hc].
Qed.

Lemma digits_absent_high (x : char) (s : pystr) :
  (57 < x)%N -> forallb is_ascii_digit s = true -> ~ In x s.
Proof.
  intros Hx H K. rewrite forallb_forall in H. apply H in K.
  apply ascii_digit_range in K. lia.
Qed.

Section SingleWeeks.

Variable U : unicode_tables.

(** A part that is one number gives that week, when it passes the filter;
    it raises when [int] refuses the numeral for its length. *)
Lemma parse_part_number (io ie : bool) (n : Z) :
  (0 <= n)%Z ->
  parse_part U io ie (str_of_int n) =
  if (n <? int_str_bound)%Z then Returned (if keep_week io ie n then [n] else [])
  else Raised ValueError.
Proof.
  intros Hn. destruct (str_of_int_digits n Hn) as [Dn Nn].
  unfold parse_part. rewrite strip_nospace by (apply digits_not_space; exact Dn).
  rewrite contains_absent by (apply digits_absent; [reflexivity | exact Dn]).
  rewrite isdigit_ascii by assumption.
  destruct (Z.ltb_spec n int_str_bound) as [L|L].
  - rewrite py_int_str_of_int by (split; assumption). reflexivity.
  - rewrite py_int_str_of_long by exact L. reflexivity.
Qed.

(** The weeks of a text made of one number and a marker that starts with
    a character above the digits, for a numeral that [int] accepts. *)
Lemma parse_weeks_body_number (n : Z) :
  (0 <= n < int_str_bound)%Z ->
  parse_weeks_body U (str_of_int n) = Returned [n]
  /\ parse_weeks_body U (str_of_int n ++ txt_week) = Returned [n]
  /\ parse_weeks_body U (str_of_int n ++ txt_odd_week) =
     Returned (if (n mod 2 =? 1)%Z then [n] else [])
  /\ parse_weeks_body U (str_of_int n ++ txt_even_week) =
     Returned (if (n mod 2 =? 0)%Z then [n] else []).
Proof.
  intros [Hn Ln].
  assert (forall io ie, parse_part U io ie (str_of_int n) =
                        Returned (if keep_week io ie n then [n] else [])) as Hpart.
  { intros io ie. rewrite parse_part_number by exact Hn.
    destruct (Z.ltb_spec n int_str_bound) as [_|K]; [reflexivity | lia]. }
  destruct (str_of_int_digits n Hn) as [Dn Nn].
  pose proof (digits_not_space _ Dn) as Sn.
  assert (forall x, (57 < x)%N -> ~ In x (str_of_int n)) as Hx
    by (intros x Hx; apply digits_absent_high; assumption).
  assert (~ In ch_comma (str_of_int n)) as Hc
    by (apply digits_absent; [reflexivity | exact Dn]).
  assert (forall m, forallb (fun c => negb (is_space c)) m = true ->
                    strip (str_of_int n ++ m) = str_of_int n ++ m) as Hs.
  { intros m Hm. apply strip_nospace. rewrite forallb_app, Sn, Hm. reflexivity. }
  repeat split.
  - unfold parse_weeks_body, clean_weeks, txt_odd_week, txt_even_week, txt_week.
    rewrite strip_nospace by exact Sn.
    rewrite !contains_absent by (apply Hx; lia).
    rewrite (replace_absent _ _ [] (str_of_int n)) by (apply Hx; lia).
    rewrite (replace_absent _ _ [] (str_of_int n)) by (apply Hx; lia).
    rewrite (replace_absent _ _ [] (str_of_int n)) by (apply Hx; lia).
    rewrite split_absent by exact Hc. cbn [parse_parts].
    rewrite Hpart. reflexivity.
  - unfold parse_weeks_body, clean_weeks, txt_odd_week, txt_even_week, txt_week.
    rewrite Hs by reflexivity.
    rewrite !contains_absent
      by (rewrite in_app_iff; intros [K|[K|[]]]; [revert K; apply Hx; lia | discriminate K]).
    rewrite (replace_absent _ _ [] (str_of_int n ++ [21608%N]))
      by (rewrite in_app_iff; intros [K|[K|[]]]; [revert K; apply Hx; lia | discriminate K]).
    rewrite (replace_absent _ _ [] (str_of_int n ++ [21608%N]))
      by (rewrite in_app_iff; intros [K|[K|[]]]; [revert K; apply Hx; lia | discriminate K]).
    rewrite replace_marker_suffix by (apply Hx; lia). rewrite app_nil_r.
    rewrite split_absent by exact Hc. cbn [parse_parts].
    rewrite Hpart. reflexivity.
  - unfold parse_weeks_body, clean_weeks.
    rewrite Hs by reflexivity.
    assert (contains txt_odd_week (str_of_int n ++ txt_odd_week) = true) as ->
      by (apply contains_spec; exists (str_of_int n), []; reflexivity).
    unfold txt_odd_week, txt_even_week, txt_week.
    rewrite contains_absent
      by (rewrite in_app_iff; intros [K|[K|[K|[]]]];
          [revert K; apply Hx; lia | discriminate K | discriminate K]).
    rewrite replace_marker_suffix by (apply Hx; lia). rewrite app_nil_r.
    rewrite (replace_absent _ _ [] (str_of_int n)) by (apply Hx; lia).
    rewrite (replace_absent _ _ [] (str_of_int n)) by (apply Hx; lia).
    rewrite split_absent by exact Hc. cbn [parse_parts].
    rewrite Hpart.
    unfold keep_week. cbn [andb orb negb]. rewrite !orb_false_r.
    destruct (n mod 2 =? 1)%Z; reflexivity.
  - unfold parse_weeks_body, clean_weeks.
    rewrite Hs by reflexivity.
    assert (contains txt_even_week (str_of_int n ++ txt_even_week) = true) as ->
      by (apply contains_spec; exists (str_of_int n), []; reflexivity).
    unfold txt_odd_week, txt_even_week, txt_week.
    rewrite contains_absent
      by (rewrite in_app_iff; intros [K|[K|[K|[]]]];
          [revert K; apply Hx; lia | discriminate K | discriminate K]).
    rewrite (replace_absent _ _ [] (str_of_int n ++ [21452%N; 21608%N]))
      by (rewrite in_app_iff; intros [K|[K|[K|[]]]];
          [revert K; apply Hx; lia | discriminate K | discriminate K]).
    rewrite replace_marker_suffix by (apply Hx; lia). rewrite app_nil_r.
    rewrite (replace_absent _ _ [] (str_of_int n)) by (apply Hx; lia).
    rewrite split_absent by exact Hc. cbn [parse_parts].
    rewrite Hpart.
    unfold keep_week. cbn [andb orb negb]. rewrite !orb_false_r.
    destruct (n mod 2 =? 0)%Z; reflexivity.
Qed.

(** What is left of one number and a marker once the markers are removed. *)
Lemma clean_weeks_number (n : Z) (m : pystr) :
  (0 <= n)%Z -> In m [[]; txt_week; txt_odd_week; txt_even_week] ->
  clean_weeks (strip (str_of_int n ++ m)) = str_of_int n.
Proof.
  intros Hn Hm. destruct (str_of_int_digits n Hn) as [Dn Nn].
  pose proof (digits_not_space _ Dn) as Sn.
  assert (forall x, (57 < x)%N -> ~ In x (str_of_int n)) as Hx
    by (intros x Hx; apply digits_absent_high; assumption).
  assert (strip (str_of_int n ++ m) = str_of_int n ++ m) as ->.
  { apply strip_nospace. rewrite forallb_app, Sn.
    destruct Hm as [<-|[<-|[<-|[<-|[]]]]]; reflexivity. }
  unfold clean_weeks.
  destruct Hm as [<-|[<-|[<-|[<-|[]]]]]; unfold txt_odd_week, txt_even_week, txt_week.
  - rewrite app_nil_r.
    rewrite (replace_absent _ _ [] (str_of_int n)) by (apply Hx; lia).
    rewrite (replace_absent _ _ [] (str_of_int n)) by (apply Hx; lia).
    rewrite (replace_absent _ _ [] (str_of_int n)) by (apply Hx; lia).
    reflexivity.
  - rewrite (replace_absent _ _ [] (str_of_int n ++ [21608%N]))
      by (rewrite in_app_iff; intros [K|[K|[]]]; [revert K; apply Hx; lia | discriminate K]).
    rewrite (replace_absent _ _ [] (str_of_int n ++ [21608%N]))
      by (rewrite in_app_iff; intros [K|[K|[]]]; [revert K; apply Hx; lia | discriminate K]).
    rewrite replace_marker_suffix by (apply Hx; lia). apply app_nil_r.
  - rewrite replace_marker_suffix by (apply Hx; lia). rewrite app_nil_r.
    rewrite (replace_absent _ _ [] (str_of_int n)) by (apply Hx; lia).
    rewrite (replace_absent _ _ [] (str_of_int n)) by (apply Hx; lia).
    reflexivity.
  - rewrite (replace_absent _ _ [] (str_of_int n ++ [21452%N; 21608%N]))
      by (rewrite in_app_iff; intros [K|[K|[K|[]]]];
          [revert K; apply Hx; lia | discriminate K | discriminate K]).
    rewrite replace_marker_suffix by (apply Hx; lia). rewrite app_nil_r.
    rewrite (replace_absent _ _ [] (str_of_int n)) by (apply Hx; lia).
    reflexivity.
Qed.

(** A number whose numeral [int] refuses makes the body raise, with or
    without a marker. *)
Lemma parse_weeks_body_long_number (n : Z) (m : pystr) :
  (int_str_bound <= n)%Z -> In m [[]; txt_week; txt_odd_week; txt_even_week] ->
  parse_weeks_body U (str_of_int n ++ m) = Raised ValueError.
Proof.
  intros Ln Hm.
  assert (0 <= n)%Z as Hn by (rewrite int_str_bound_pow in Ln; lia).
  destruct (str_of_int_digits n Hn) as [Dn Nn].
  unfold parse_weeks_body. rewrite (clean_weeks_number n m Hn Hm).
  rewrite split_absent by (apply digits_absent; [reflexivity | exact Dn]).
  cbn [parse_parts]. rewrite parse_part_number by exact Hn.
  destruct (Z.ltb_spec n int_str_bound) as [K|_]; [lia | reflexivity].
Qed.

Lemma str_of_int_truthy (n : Z) (m : pystr) :
  (0 <= n)%Z -> truthy (PStr (str_of_int n ++ m)) = true.
Proof.
  intros Hn. destruct (str_of_int_digits n Hn) as [_ Nn].
  destruct (str_of_int n); [congruence | reflexivity].
Qed.

End SingleWeeks.

Lemma py_range_empty (lo hi : Z) : (hi <= lo)%Z -> py_range lo hi = [].
Proof.
  intros H. unfold py_range. replace (Z.to_nat (hi - lo)) with 0%nat by lia. reflexivity.
Qed.

Section MoreWeeks.

Variable U : unicode_tables.

Lemma parse_weeks_one_range (a b : Z) :
  (0 <= a)%Z -> (0 <= b)%Z ->
  parse_weeks U (PStr (range_text a b)) =
  match parse_part U false false (range_text a b) with
  | Returned ws => (py_sorted (py_set ws), [])
  | Raised e => ([], [DiagWeeks e (range_text a b)])
  end.
Proof.
  intros Ha Hb. pose proof (range_text_chars a b Ha Hb) as Hc.
  assert (~ In ch_comma (range_text a b)) as Hcomma.
  { unfold range_text. rewrite !in_app_iff. intros [K|[K|K]].
    - revert K. apply digits_absent; [reflexivity | apply str_of_int_digits; exact Ha].
    - destruct K as [K|[]]. discriminate K.
    - revert K. apply digits_absent; [reflexivity | apply str_of_int_digits; exact Hb]. }
  unfold parse_weeks.
  assert (truthy (PStr (range_text a b)) = true) as ->.
  { pose proof (range_text_nonempty a b). destruct (range_text a b); [congruence | reflexivity]. }
  cbn [negb]. unfold parse_weeks_body.
  rewrite strip_nospace by (apply range_char_not_space; exact Hc).
  unfold clean_weeks, txt_odd_week, txt_even_week, txt_week.
  rewrite !contains_absent by (apply range_char_absent; [lia | exact Hc]).
  rewrite (replace_absent _ _ [] (range_text a b))
    by (apply range_char_absent; [lia | exact Hc]).
  rewrite (replace_absent _ _ [] (range_text a b))
    by (apply range_char_absent; [lia | exact Hc]).
  rewrite (replace_absent _ _ [] (range_text a b))
    by (apply range_char_absent; [lia | exact Hc]).
  rewrite split_absent by exact Hcomma. cbn [parse_parts].
  destruct (parse_part U false false (range_text a b)); reflexivity.
Qed.

(** X1: one week number, alone or followed by 周, gives that week; followed
    by 单周 it is kept when odd, followed by 双周 when even.  This is so as
    long as [int] accepts the numeral; a longer one gives no week and one
    message, with or without a marker. *)
Theorem parse_weeks_single_number (n : Z) :
  (0 <= n)%Z ->
  ((n < int_str_bound)%Z ->
     parse_weeks U (PStr (str_of_int n)) = ([n], [])
     /\ parse_weeks U (PStr (str_of_int n ++ txt_week)) = ([n], [])
     /\ parse_weeks U (PStr (str_of_int n ++ txt_odd_week)) =
        (if (n mod 2 =? 1)%Z then [n] else [], [])
     /\ parse_weeks U (PStr (str_of_int n ++ txt_even_week)) =
        (if (n mod 2 =? 0)%Z then [n] else [], []))
  /\ ((int_str_bound <= n)%Z ->
      forall m, In m [[]; txt_week; txt_odd_week; txt_even_week] ->
        parse_weeks U (PStr (str_of_int n ++ m)) =
        ([], [DiagWeeks ValueError (str_of_int n)])).
Proof.
  intros Hn. split.
  - intros Ln.
    destruct (parse_weeks_body_number U n (conj Hn Ln)) as [H1 [H2 [H3 H4]]].
    pose proof (str_of_int_truthy n [] Hn) as T. rewrite app_nil_r in T.
    unfold parse_weeks.
    rewrite T, !str_of_int_truthy by exact Hn. cbn [negb].
    rewrite H1, H2, H3, H4. repeat split; reflexivity.
  - intros Ln m Hm. unfold parse_weeks.
    rewrite str_of_int_truthy by exact Hn. cbn [negb].
    rewrite (parse_weeks_body_long_number U n m Ln Hm).
    rewrite (clean_weeks_number n m Hn Hm). reflexivity.
Qed.

(** X2: a range written backwards is not reordered: it gives no week, and
    no message as long as [int] accepts the numeral of [a]; when that is
    too long there is no week either, and one message. *)
Theorem parse_weeks_reversed_range (a b : Z) :
  (0 <= b < a)%Z ->
  parse_weeks U (PStr (range_text a b)) =
  if (a <? int_str_bound)%Z then ([], [])
  else ([], [DiagWeeks ValueError (range_text a b)]).
Proof.
  intros H. rewrite parse_weeks_one_range by lia.
  destruct (Z.ltb_spec a int_str_bound) as [L|L].
  - rewrite parse_part_range by lia.
    rewrite py_range_empty by lia. reflexivity.
  - rewrite parse_part_long_range by (lia || (left; exact L)). reflexivity.
Qed.

(** X3: one part that raises empties the whole result: the weeks of the
    other parts are not returned, and one message is printed. *)
Theorem parse_weeks_all_or_nothing (s part : pystr) (e : exn) :
  In part (split ch_comma (clean_weeks (strip s))) ->
  parse_part U false false part = Raised e ->
  parse_weeks U (PStr s) = ([], [DiagWeeks ValueError (clean_weeks (strip s))]).
Proof.
  intros Hin Hp.
  assert (forall io ie, parse_part U io ie part = Raised e) as Hp'.
  { intros io ie. rewrite parse_part_filter, Hp. reflexivity. }
  destruct s as [|c s].
  - exfalso. destruct Hin as [<-|[]]. discriminate Hp.
  - unfold parse_weeks. cbn [truthy negb]. unfold parse_weeks_body.
    rewrite (parse_parts_raised_part U _ _ _ [] part e Hin (Hp' _ _)). reflexivity.
Qed.

(** X4: a text without digit and without [-] names no week and raises
    nothing: it gives the empty list and no message. *)
Theorem parse_weeks_ignores_words (s : pystr) :
  (forall c, In c s -> c <> ch_minus /\ ch_isdigit U c = false) ->
  parse_weeks U (PStr s) = ([], []).
Proof.
  intros H. unfold parse_weeks. destruct (negb (truthy (PStr s))); [reflexivity|].
  unfold parse_weeks_body. rewrite parse_parts_nothing; [reflexivity|].
  intros part Hp.
  assert (forall c, In c (strip part) -> c <> ch_minus /\ ch_isdigit U c = false) as Hc.
  { intros c Hc. apply H. apply In_strip. apply In_clean_weeks.
    eapply In_split; [exact Hp|]. apply In_strip. exact Hc. }
  unfold parse_part.
  rewrite contains_absent by (intros K; apply Hc in K; destruct K as [K _]; congruence).
  rewrite isdigit_none by (intros c K; apply Hc; exact K). reflexivity.
Qed.

End MoreWeeks.

Lemma parse_weeks_single_number_witness :
  (parse_weeks ascii_digits_only (PStr (str_of_int 15)) = ([15%Z], [])
  /\ parse_weeks ascii_digits_only (PStr (str_of_int 15 ++ txt_week)) = ([15%Z], [])
  /\ parse_weeks ascii_digits_only (PStr (str_of_int 15 ++ txt_odd_week)) =
     (if (15 mod 2 =? 1)%Z then [15%Z] else [], [])
  /\ parse_weeks ascii_digits_only (PStr (str_of_int 15 ++ txt_even_week)) =
     (if (15 mod 2 =? 0)%Z then [15%Z] else [], []))
  /\ (forall m, In m [[]; txt_week; txt_odd_week; txt_even_week] ->
        parse_weeks ascii_digits_only (PStr (str_of_int int_str_bound ++ m)) =
        ([], [DiagWeeks ValueError (str_of_int int_str_bound)])).
Proof.
  pose proof int_str_bound_large as L. split.
  - apply (proj1 (parse_weeks_single_number ascii_digits_only 15%Z ltac:(lia))). lia.
  - apply (proj2 (parse_weeks_single_number ascii_digits_only int_str_bound ltac:(lia))).
    lia.
Defined.

Lemma parse_weeks_reversed_range_witness :
  parse_weeks ascii_digits_only (PStr (range_text 16 1)) = ([], [])
  /\ parse_weeks ascii_digits_only (PStr (range_text int_str_bound 1)) =
     ([], [DiagWeeks ValueError (range_text int_str_bound 1)]).
Proof.
  pose proof int_str_bound_large as L. split.
  - pose proof (parse_weeks_reversed_range ascii_digits_only 16%Z 1%Z ltac:(lia)) as H.
    replace (16 <? int_str_bound)%Z with true in H by (symmetry; apply Z.ltb_lt; lia).
    exact H.
  - pose proof (parse_weeks_reversed_range ascii_digits_only int_str_bound 1%Z
                  ltac:(lia)) as H.
    rewrite Z.ltb_irrefl in H. exact H.
Defined.

Lemma parse_weeks_all_or_nothing_witness :
  parse_weeks ascii_digits_only (PStr (py "1-3,x-y")) =
  ([], [DiagWeeks ValueError (clean_weeks (strip (py "1-3,x-y")))]).
Proof.
  apply (parse_weeks_all_or_nothing ascii_digits_only (py "1-3,x-y") (py "x-y") ValueError).
  - vm_compute. right. left. reflexivity.
  - vm_compute. reflexivity.
Defined.

Lemma parse_weeks_ignores_words_witness :
  parse_weeks ascii_digits_only (PStr (py "待定")) = ([], []).
Proof.
  apply (parse_weeks_ignores_words ascii_digits_only (py "待定")).
  intros c H. vm_compute in H. destruct H as [<-|[<-|[]]]; split;
    (discriminate || reflexivity).
Defined.

(** ** Lines and brackets *)

Lemma lstrip_idem (s : pystr) : lstrip (lstrip s) = lstrip s.
Proof.
  induction s as [|c s IH]; [reflexivity|]. cbn [lstrip].
  destruct (is_space c) eqn:E; [exact IH|]. cbn [lstrip]. rewrite E. reflexivity.
Qed.

Lemma strip_idem (s : pystr) : strip (strip s) = strip s.
Proof.
  unfold strip.
  assert (lstrip (rstrip (lstrip s)) = rstrip (lstrip s)) as ->.
  { destruct (rstrip (lstrip s)) as [|c t] eqn:E; [reflexivity|].
    apply lstrip_fixed. eapply strip_head. exact E. }
  unfold rstrip. rewrite rev_involutive, lstrip_idem. reflexivity.
Qed.

Lemma cell_lines_no_nl (s line : pystr) : In line (cell_lines s) -> ~ In ch_nl line.
Proof.
  unfold cell_lines. intros H K. apply in_map_iff in H as [raw [<- H]].
  apply filter_In in H as [H _]. apply In_strip in K.
  revert K. eapply split_no_sep. exact H.
Qed.

Lemma cell_lines_stripped (s line : pystr) : In line (cell_lines s) -> strip line = line.
Proof.
  unfold cell_lines. intros H. apply in_map_iff in H as [raw [<- _]]. apply strip_idem.
Qed.

Lemma drop_last_cons (c x : char) (s : pystr) :
  drop_last c (x :: s) =
  match s with
  | [] => if (x =? c)%N then [] else [x]
  | _ => x :: drop_last c s
  end.
Proof.
  unfold drop_last. destruct s as [|y s].
  - simpl. destruct (x =? c)%N; reflexivity.
  - cbn [rev]. destruct (rev s ++ [y]) as [|z t] eqn:E.
    + destruct (rev s); discriminate E.
    + cbn [app drop_first]. destruct (z =? c)%N.
      * rewrite rev_app_distr. reflexivity.
      * change (rev ((z :: t) ++ [x]) = x :: rev (z :: t)).
        rewrite rev_app_distr. reflexivity.
Qed.

Section OuterBrackets.

Variable U : unicode_tables.

(** Past the start of a line the pattern of line 38 only takes a final
    []]. *)
Lemma sub_outer_tail (s : pystr) (p : nat) :
  ~ In ch_nl s ->
  sub_from U pat_outer_bracket [] (S p) s 0 = drop_last ch_rbrack s.
Proof.
  revert p. induction s as [|c s IH]; intros p Hnl; [reflexivity|].
  rewrite drop_last_cons. cbn [sub_from].
  unfold match_at, pat_outer_bracket. cbn [rmatch Nat.eqb starts_with].
  assert (~ In ch_nl s) as Hs by (intros K; apply Hnl; right; exact K).
  destruct (N.eqb_spec ch_rbrack c) as [<-|Hc].
  - cbn [andb skipn length]. destruct s as [|d s].
    + reflexivity.
    + destruct s as [|d' s].
      * destruct (N.eqb_spec d ch_nl) as [->|_];
          [exfalso; apply Hnl; right; left; reflexivity|].
        rewrite IH by exact Hs. reflexivity.
      * rewrite IH by exact Hs. reflexivity.
  - cbn [andb]. rewrite IH by exact Hs.
    destruct s; [|reflexivity].
    destruct (N.eqb_spec c ch_rbrack) as [->|_]; [congruence | reflexivity].
Qed.

(** [re.sub(r'^\[|\]$', '', line)] removes one leading [[] and one
    trailing []], and nothing else. *)
Lemma re_sub_outer_bracket (line : pystr) :
  ~ In ch_nl line -> re_sub U pat_outer_bracket [] line = unbracket line.
Proof.
  intros Hnl. unfold re_sub, unbracket. destruct line as [|c s]; [reflexivity|].
  assert (~ In ch_nl s) as Hs by (intros K; apply Hnl; right; exact K).
  cbn [sub_from drop_first].
  unfold match_at, pat_outer_bracket. cbn [rmatch Nat.eqb starts_with].
  destruct (N.eqb_spec ch_lbrack c) as [<-|Hc].
  - cbn [andb skipn length Nat.add Nat.sub app]. rewrite N.eqb_refl.
    apply sub_outer_tail; exact Hs.
  - cbn [andb].
    destruct (N.eqb_spec c ch_lbrack) as [->|_]; [congruence|].
    rewrite drop_last_cons.
    destruct (N.eqb_spec ch_rbrack c) as [<-|Hr].
    + cbn [andb skipn length]. destruct s as [|d s].
      * reflexivity.
      * destruct s as [|d' s].
        -- destruct (N.eqb_spec d ch_nl) as [->|_];
             [exfalso; apply Hnl; right; left; reflexivity|].
           rewrite sub_outer_tail by exact Hs. reflexivity.
        -- rewrite sub_outer_tail by exact Hs. reflexivity.
    + cbn [andb]. rewrite sub_outer_tail by exact Hs.
      destruct s; [|reflexivity].
      destruct (N.eqb_spec c ch_rbrack) as [->|_]; [congruence | reflexivity].
Qed.

Lemma classify_fixed_fields (r : course) (content : pystr) :
  teacher (classify U r content) = teacher r
  /\ class_info (classify U r content) = class_info r.
Proof.
  unfold classify.
  repeat match goal with |- context [if ?b then _ else _] => destruct b end;
    split; reflexivity.
Qed.

Lemma fold_classify_fixed_fields (l : list pystr) (r : course) :
  teacher (fold_left (classify U) l r) = teacher r
  /\ class_info (fold_left (classify U) l r) = class_info r.
Proof.
  revert r. induction l as [|x l IH]; intros r; simpl; [split; reflexivity|].
  destruct (IH (classify U r x)) as [-> ->]. apply classify_fixed_fields.
Qed.

(** X7: teacher and class are the second and third lines without one
    leading [[] and one trailing []]; brackets inside stay. *)
Theorem teacher_and_class_unbracketed (v : pyval) (r : course) :
  parse_course_info U v = Some r ->
  exists (s l0 l1 l2 : pystr) (rest : list pystr),
    v = PStr s /\ cell_lines s = l0 :: l1 :: l2 :: rest
    /\ teacher r = unbracket l1 /\ class_info r = unbracket l2.
Proof.
  intros H. destruct v as [| | |s|]; try discriminate H.
  rewrite parse_course_info_lines in H. unfold record_of_lines in H.
  destruct (cell_lines s) as [|l0 [|l1 [|l2 [|l3 rest]]]] eqn:E; try discriminate H.
  injection H as <-. exists s, l0, l1, l2, (l3 :: rest).
  destruct (fold_classify_fixed_fields (re_findall U pat_bracket l3)
    {| course_name := strip (hd [] (split ch_lbrack l0));
       teacher := re_sub U pat_outer_bracket [] l1;
       class_info := re_sub U pat_outer_bracket [] l2;
       week_info := []; location := []; time_info := [] |}) as [-> ->].
  cbn [teacher class_info].
  rewrite !re_sub_outer_bracket
    by (apply (cell_lines_no_nl s); rewrite E; simpl; tauto).
  repeat split; try reflexivity. exact E.
Qed.

(** X8: the course name of a record has no [[] in it and no white space
    around it. *)
Theorem course_name_clean (v : pyval) (r : course) :
  parse_course_info U v = Some r ->
  ~ In ch_lbrack (course_name r) /\ strip (course_name r) = course_name r.
Proof.
  intros H. destruct v as [| | |s|]; try discriminate H.
  rewrite parse_course_info_lines in H. unfold record_of_lines in H.
  destruct (cell_lines s) as [|l0 [|l1 [|l2 [|l3 rest]]]] eqn:E; try discriminate H.
  injection H as <-. rewrite fold_classify_course_name. cbn [course_name].
  split; [|apply strip_idem].
  intros K. apply In_strip in K. revert K. apply (split_no_sep ch_lbrack l0).
  destruct (split ch_lbrack l0) as [|p ps] eqn:S; [|left; reflexivity].
  destruct l0 as [|c l0]; [discriminate S|]. cbn [split] in S.
  destruct (c =? ch_lbrack)%N; [discriminate S|].
  destruct (split ch_lbrack l0); discriminate S.
Qed.

End OuterBrackets.

Lemma teacher_and_class_unbracketed_witness :
  exists (s l0 l1 l2 : pystr) (rest : list pystr),
    PStr math_cell = PStr s /\ cell_lines s = l0 :: l1 :: l2 :: rest
    /\ teacher math_info = unbracket l1 /\ class_info math_info = unbracket l2.
Proof.
  apply (teacher_and_class_unbracketed ascii_digits_only (PStr math_cell) math_info).
  vm_compute. reflexivity.
Defined.

Lemma course_name_clean_witness :
  ~ In ch_lbrack (course_name math_info)
  /\ strip (course_name math_info) = course_name math_info.
Proof.
  apply (course_name_clean ascii_digits_only (PStr math_cell) math_info).
  vm_compute. reflexivity.
Defined.

(** ** The contents of the details line *)

Lemma fold_left_Permutation {A B : Type} (f : A -> B -> A) (l l' : list B) :
  Permutation l l' ->
  (forall x y, In x l -> In y l -> forall a, f (f a x) y = f (f a y) x) ->
  forall a, fold_left f l a = fold_left f l' a.
Proof.
  induction 1 as [|x l l' HP IH|x y l|l l' l'' HP1 IH1 HP2 IH2]; intros Hc a.
  - reflexivity.
  - simpl. apply IH. intros u v Hu Hv. apply Hc; right; assumption.
  - simpl. rewrite (Hc y x); [reflexivity | left; reflexivity | right; left; reflexivity].
  - rewrite IH1 by exact Hc. apply IH2.
    intros u v Hu Hv. apply Hc; eapply Permutation_in;
      try (apply Permutation_sym; exact HP1); assumption.
Qed.

Section Contents.

Variable U : unicode_tables.

(** A lazy repetition stops at the first place where the rest of the
    pattern matches. *)
Lemma star_lazy_run {A : Type} (k : cclass) (cs rest : pystr) (p : nat)
    (cont : nat -> pystr -> option A) (a : A) :
  forallb (in_class U k) cs = true ->
  (forall p' x s', In x cs -> cont p' (x :: s') = None) ->
  cont (p + length cs)%nat rest = Some a ->
  star_lazy U k p (cs ++ rest) cont = Some a.
Proof.
  revert p. induction cs as [|x cs IH]; intros p Hk Hn Hc.
  - cbn [app length] in *. rewrite Nat.add_0_r in Hc.
    destruct rest; cbn [star_lazy]; rewrite Hc; reflexivity.
  - cbn [forallb] in Hk. apply andb_true_iff in Hk as [Hx Hk].
    cbn [app star_lazy]. rewrite (Hn p x) by (left; reflexivity). rewrite Hx.
    apply IH; [exact Hk | intros; apply Hn; right; assumption|].
    rewrite <- Hc. f_equal. simpl. lia.
Qed.

Lemma match_bracket (c rest : pystr) (p : nat) :
  ~ In ch_rbrack c -> ~ In ch_nl c ->
  match_at U pat_bracket p (ch_lbrack :: c ++ ch_rbrack :: rest) =
  Some {| m_start := p; m_end := p + 1 + length c + 1; m_groups := [(1%nat, c)] |}.
Proof.
  intros Hr Hn. unfold match_at, pat_bracket.
  cbn [rmatch starts_with length skipn]. rewrite N.eqb_refl. cbn [andb].
  erewrite (star_lazy_run CDot c).
  - reflexivity.
  - apply forallb_forall. intros x Hx. cbn [in_class].
    destruct (N.eqb_spec x ch_nl) as [->|_]; [contradiction | reflexivity].
  - intros p' x s' Hx. cbn [starts_with].
    destruct (N.eqb_spec ch_rbrack x) as [<-|_]; [contradiction | reflexivity].
  - cbn [starts_with]. rewrite N.eqb_refl. cbn [andb length skipn].
    rewrite firstn_run. reflexivity.
Qed.

Lemma finditer_skip (r : regex) (pre rest : pystr) (p : nat) :
  finditer_from U r p (pre ++ rest) (length pre) =
  finditer_from U r (p + length pre) rest 0.
Proof.
  revert p. induction pre as [|c pre IH]; intros p.
  - cbn [app length]. rewrite Nat.add_0_r. reflexivity.
  - cbn [app length finditer_from]. rewrite IH. f_equal. lia.
Qed.

Lemma finditer_bracketed (cs : list pystr) (p : nat) :
  (forall c, In c cs -> ~ In ch_rbrack c /\ ~ In ch_nl c) ->
  map (fun m => group m 1) (finditer_from U pat_bracket p (bracketed cs) 0) = cs.
Proof.
  revert p. induction cs as [|c cs IH]; intros p H; [reflexivity|].
  destruct (H c (or_introl eq_refl)) as [Hr Hn].
  unfold bracketed. cbn [map concat].
  change (concat (map (fun c0 => ch_lbrack :: c0 ++ [ch_rbrack]) cs)) with (bracketed cs).
  cbn [app]. rewrite <- app_assoc. cbn [app finditer_from].
  rewrite (match_bracket c (bracketed cs) p Hr Hn). cbn [m_end map].
  replace (p + 1 + length c + 1 - p - 1)%nat with (length (c ++ [ch_rbrack]))
    by (rewrite length_app; simpl; lia).
  change (c ++ ch_rbrack :: bracketed cs) with (c ++ [ch_rbrack] ++ bracketed cs).
  rewrite app_assoc, finditer_skip.
  rewrite IH by (intros x Hx; apply H; right; exact Hx).
  reflexivity.
Qed.

(** X9: the contents put in brackets on a line come back from
    [re.findall] as they were, in order. *)
Theorem findall_bracketed (cs : list pystr) :
  (forall c, In c cs -> ~ In ch_rbrack c /\ ~ In ch_nl c) ->
  re_findall U pat_bracket (bracketed cs) = cs.
Proof. intros H. unfold re_findall. apply finditer_bracketed; exact H. Qed.

Lemma classify_week (r : course) (c : pystr) :
  week_form U c -> classify U r c = set_week_info r c.
Proof. unfold week_form, classify. intros ->. reflexivity. Qed.

Lemma classify_time (r : course) (c : pystr) :
  time_form U c -> classify U r c = set_time_info r c.
Proof. unfold time_form, classify. intros [-> ->]. reflexivity. Qed.

Lemma classify_place (r : course) (c : pystr) :
  place_form U c -> classify U r c = set_location r c.
Proof. unfold place_form, classify. intros [-> [-> ->]]. reflexivity. Qed.

(** Contents of three different kinds reach their own fields in any
    order. *)
Lemma fold_classify_three (r : course) (w tm loc : pystr) (l : list pystr) :
  week_form U w -> time_form U tm -> place_form U loc ->
  Permutation l [w; tm; loc] ->
  fold_left (classify U) l r =
  {| course_name := course_name r; teacher := teacher r; class_info := class_info r;
     week_info := w; location := loc; time_info := tm |}.
Proof.
  intros Hw Ht Hl HP.
  rewrite (fold_left_Permutation (classify U) l [w; tm; loc] HP).
  - cbn [fold_left].
    rewrite (classify_week r w Hw), (classify_time _ tm Ht), (classify_place _ loc Hl).
    reflexivity.
  - assert (forall x, In x l -> forall a,
               classify U a x = set_week_info a x /\ x = w
               \/ classify U a x = set_time_info a x /\ x = tm
               \/ classify U a x = set_location a x /\ x = loc) as K.
    { intros x Hx a. apply (Permutation_in _ HP) in Hx.
      destruct Hx as [<-|[<-|[<-|[]]]].
      - left. split; [apply classify_week; exact Hw | reflexivity].
      - right; left. split; [apply classify_time; exact Ht | reflexivity].
      - right; right. split; [apply classify_place; exact Hl | reflexivity]. }
    intros x y Hx Hy a.
    destruct (K x Hx a) as [[Ex ->]|[[Ex ->]|[Ex ->]]];
      destruct (K y Hy a) as [[Ey ->]|[[Ey ->]|[Ey ->]]];
      try reflexivity;
      rewrite Ex, Ey;
      repeat match goal with
      | |- context [classify U ?a w] => rewrite (classify_week a w Hw)
      | |- context [classify U ?a tm] => rewrite (classify_time a tm Ht)
      | |- context [classify U ?a loc] => rewrite (classify_place a loc Hl)
      end; reflexivity.
Qed.

(** X10: the order of the three brackets does not matter: a week content,
    a time content and a place content each reach their own field. *)
Theorem classify_any_order (r : course) (w tm loc : pystr) (l : list pystr) :
  week_form U w -> time_form U tm -> place_form U loc ->
  Permutation l [w; tm; loc] ->
  fold_left (classify U) l r =
  {| course_name := course_name r; teacher := teacher r; class_info := class_info r;
     week_info := w; location := loc; time_info := tm |}.
Proof. apply fold_classify_three. Qed.

End Contents.

Lemma findall_bracketed_witness :
  re_findall ascii_digits_only pat_bracket
    (bracketed [py "1-16周"; py "教三-301"; py "1-2节"]) =
  [py "1-16周"; py "教三-301"; py "1-2节"].
Proof.
  apply (findall_bracketed ascii_digits_only [py "1-16周"; py "教三-301"; py "1-2节"]).
  intros c H. vm_compute in H.
  destruct H as [<-|[<-|[<-|[]]]]; split; vm_compute;
    intros K; repeat (destruct K as [K|K]; [discriminate K|]); exact K.
Defined.

Lemma classify_any_order_witness :
  fold_left (classify ascii_digits_only) [py "1-2节"; py "教三-301"; py "1-16周"]
    {| course_name := py "高等数学"; teacher := py "张老师"; class_info := py "计算机2301";
       week_info := []; location := []; time_info := [] |} =
  {| course_name := py "高等数学"; teacher := py "张老师"; class_info := py "计算机2301";
     week_info := py "1-16周"; location := py "教三-301"; time_info := py "1-2节" |}.
Proof.
  apply (classify_any_order ascii_digits_only
           {| course_name := py "高等数学"; teacher := py "张老师";
              class_info := py "计算机2301";
              week_info := []; location := []; time_info := [] |}
           (py "1-16周") (py "1-2节") (py "教三-301")
           [py "1-2节"; py "教三-301"; py "1-16周"]).
  - vm_compute. reflexivity.
  - split; vm_compute; reflexivity.
  - repeat split; vm_compute; reflexivity.
  - change (Permutation ([py "1-2节"; py "教三-301"] ++ [py "1-16周"])
              ([py "1-16周"] ++ [py "1-2节"; py "教三-301"])).
    apply Permutation_app_comm.
Defined.

(** ** Cells in the documented format *)

Lemma strip_fixed_ends (s : pystr) :
  lstrip s = s -> lstrip (rev s) = rev s -> strip s = s.
Proof.
  intros H1 H2. unfold strip, rstrip. rewrite H1, H2. apply rev_involutive.
Qed.

Lemma strip_in_brackets (t : pystr) :
  strip (ch_lbrack :: t ++ [ch_rbrack]) = ch_lbrack :: t ++ [ch_rbrack].
Proof.
  apply strip_fixed_ends; [reflexivity|].
  change (ch_lbrack :: t ++ [ch_rbrack]) with ((ch_lbrack :: t) ++ [ch_rbrack]).
  rewrite rev_app_distr. reflexivity.
Qed.

Lemma drop_last_snoc (c : char) (s : pystr) : drop_last c (s ++ [c]) = s.
Proof.
  unfold drop_last. rewrite rev_app_distr. cbn [rev app drop_first].
  rewrite N.eqb_refl. apply rev_involutive.
Qed.

Lemma unbracket_in_brackets (t : pystr) : unbracket (ch_lbrack :: t ++ [ch_rbrack]) = t.
Proof. unfold unbracket. cbn [drop_first]. rewrite N.eqb_refl. apply drop_last_snoc. Qed.

Lemma bracketed_cons (c : pystr) (cs : list pystr) :
  bracketed (c :: cs) = (ch_lbrack :: c ++ [ch_rbrack]) ++ bracketed cs.
Proof. reflexivity. Qed.

Lemma bracketed_app (cs ds : list pystr) :
  bracketed (cs ++ ds) = bracketed cs ++ bracketed ds.
Proof. unfold bracketed. rewrite map_app, concat_app. reflexivity. Qed.

Lemma bracketed_last (cs : list pystr) :
  cs <> [] -> exists pre, bracketed cs = pre ++ [ch_rbrack].
Proof.
  intros H. destruct (exists_last H) as [ds [d ->]].
  rewrite bracketed_app. exists (bracketed ds ++ ch_lbrack :: d).
  unfold bracketed at 2. cbn [map concat]. rewrite app_nil_r, <- app_assoc. reflexivity.
Qed.

Lemma lstrip_rev_bracketed (cs : list pystr) :
  lstrip (rev (bracketed cs)) = rev (bracketed cs).
Proof.
  destruct cs as [|c cs]; [reflexivity|].
  destruct (bracketed_last (c :: cs) ltac:(discriminate)) as [pre ->].
  rewrite rev_app_distr. reflexivity.
Qed.

Lemma strip_bracketed (cs : list pystr) : strip (bracketed cs) = bracketed cs.
Proof.
  apply strip_fixed_ends; [|apply lstrip_rev_bracketed].
  destruct cs; reflexivity.
Qed.

Lemma In_bracketed (x : char) (cs : list pystr) :
  In x (bracketed cs) -> x = ch_lbrack \/ x = ch_rbrack \/ exists c, In c cs /\ In x c.
Proof.
  induction cs as [|c cs IH]; [intros []|].
  rewrite bracketed_cons, in_app_iff. intros [[<-|H]|H].
  - left. reflexivity.
  - apply in_app_iff in H as [H|[<-|[]]].
    + right; right. exists c. split; [left; reflexivity | exact H].
    + right; left. reflexivity.
  - destruct (IH H) as [K|[K|[d [Hd K]]]]; auto.
    right; right. exists d. split; [right; exact Hd | exact K].
Qed.

Lemma replace_no_cr (s : pystr) : ~ In ch_cr s -> replace [ch_cr; ch_nl] [ch_nl] s = s.
Proof. apply replace_absent. Qed.

Section Format.

Variable U : unicode_tables.

(** The lines of a cell in the documented format are the four lines it
    was made of. *)
Lemma cell_lines_of_cell_text (name t c : pystr) (contents : list pystr) :
  name <> [] -> strip name = name ->
  no_break name -> no_break t -> no_break c ->
  contents <> [] -> (forall x, In x contents -> no_break x) ->
  cell_lines (cell_text name t c contents) =
  [name; ch_lbrack :: t ++ [ch_rbrack]; ch_lbrack :: c ++ [ch_rbrack]; bracketed contents].
Proof.
  intros Hne Hs [Nn Cn] [Nt Ct] [Nc Cc] Hcs Hx.
  set (l1 := ch_lbrack :: t ++ [ch_rbrack]).
  set (l2 := ch_lbrack :: c ++ [ch_rbrack]).
  set (l3 := bracketed contents).
  assert (forall x, x = ch_nl \/ x = ch_cr -> ~ In x l1) as H1.
  { intros x Hxx [K|K]; [destruct Hxx; subst x; discriminate K|].
    apply in_app_iff in K as [K|[K|[]]];
      destruct Hxx; subst x; try discriminate K; contradiction. }
  assert (forall x, x = ch_nl \/ x = ch_cr -> ~ In x l2) as H2.
  { intros x Hxx [K|K]; [destruct Hxx; subst x; discriminate K|].
    apply in_app_iff in K as [K|[K|[]]];
      destruct Hxx; subst x; try discriminate K; contradiction. }
  assert (forall x, x = ch_nl \/ x = ch_cr -> ~ In x l3) as H3.
  { intros x Hxx K. apply In_bracketed in K as [K|[K|[d [Hd K]]]].
    - destruct Hxx; subst x; discriminate K.
    - destruct Hxx; subst x; discriminate K.
    - destruct (Hx d Hd) as [A B]. destruct Hxx; subst x; contradiction. }
  assert (cell_text name t c contents = name ++ ch_nl :: l1 ++ ch_nl :: l2 ++ ch_nl :: l3)
    as E by reflexivity.
  unfold cell_lines. rewrite E.
  rewrite replace_no_cr.
  2:{ rewrite in_app_iff. intros [K|[K|K]]; [contradiction | discriminate K|].
      rewrite in_app_iff in K. destruct K as [K|[K|K]];
        [revert K; apply H1; auto | discriminate K|].
      rewrite in_app_iff in K. destruct K as [K|[K|K]];
        [revert K; apply H2; auto | discriminate K | revert K; apply H3; auto]. }
  assert (strip l3 = l3) as S3 by apply strip_bracketed.
  assert (strip l1 = l1) as S1 by apply strip_in_brackets.
  assert (strip l2 = l2) as S2 by apply strip_in_brackets.
  rewrite strip_fixed_ends.
  - rewrite split_app_sep by exact Nn.
    rewrite split_app_sep by (apply H1; auto).
    rewrite split_app_sep by (apply H2; auto).
    rewrite split_absent by (apply H3; auto).
    cbn [filter]. rewrite Hs, S1, S2, S3.
    assert (truthy (PStr name) = true) as -> by (destruct name; [congruence | reflexivity]).
    assert (truthy (PStr l3) = true) as ->.
    { subst l3. destruct contents as [|d ds]; [congruence | reflexivity]. }
    cbn [truthy l1 l2 map]. rewrite Hs, S1, S2, S3. reflexivity.
  - destruct name as [|a name]; [congruence|].
    cbn [app]. apply lstrip_fixed. eapply strip_head. exact Hs.
  - destruct (bracketed_last contents Hcs) as [pre P]. subst l3. rewrite P.
    replace (name ++ ch_nl :: l1 ++ ch_nl :: l2 ++ ch_nl :: pre ++ [ch_rbrack])
      with ((name ++ ch_nl :: l1 ++ ch_nl :: l2 ++ ch_nl :: pre) ++ [ch_rbrack])
      by (repeat (rewrite <- app_assoc; cbn [app]); reflexivity).
    rewrite rev_app_distr. reflexivity.
Qed.

Lemma parse_cell_text (name t c w tm loc : pystr) (contents : list pystr) :
  name <> [] -> strip name = name -> ~ In ch_lbrack name ->
  no_break name -> no_break t -> no_break c ->
  (forall x, In x [w; tm; loc] -> no_break x /\ ~ In ch_rbrack x) ->
  week_form U w -> time_form U tm -> place_form U loc ->
  Permutation contents [w; tm; loc] ->
  parse_course_info U (PStr (cell_text name t c contents)) =
  Some {| course_name := name; teacher := t; class_info := c;
          week_info := w; location := loc; time_info := tm |}.
Proof.
  intros Hne Hs Hb Bn Bt Bc Hx Hw Ht Hl HP.
  assert (forall x, In x contents -> no_break x /\ ~ In ch_rbrack x) as Hc.
  { intros x K. apply Hx. eapply Permutation_in; eassumption. }
  assert (contents <> []) as Hcs.
  { intros ->. apply Permutation_nil in HP. discriminate HP. }
  rewrite parse_course_info_lines.
  rewrite cell_lines_of_cell_text; try assumption;
    [|intros x K; apply Hc; exact K].
  unfold record_of_lines.
  rewrite split_absent by exact Hb. cbn [hd]. rewrite Hs.
  rewrite !re_sub_outer_bracket.
  - rewrite !unbracket_in_brackets.
    unfold re_findall. rewrite finditer_bracketed
      by (intros x K; destruct (Hc x K) as [[A _] B]; split; assumption).
    rewrite (fold_classify_three U _ w tm loc contents Hw Ht Hl HP). reflexivity.
  - destruct Bc as [A _]. intros [K|K]; [discriminate K|].
    apply in_app_iff in K as [K|[K|[]]]; [contradiction | discriminate K].
  - destruct Bt as [A _]. intros [K|K]; [discriminate K|].
    apply in_app_iff in K as [K|[K|[]]]; [contradiction | discriminate K].
Qed.

(** X11: a cell in the documented format gives back its fields, whatever
    the order of the three brackets of its last line. *)
Theorem parse_documented_format (name t c w tm loc : pystr) (contents : list pystr) :
  name <> [] -> strip name = name -> ~ In ch_lbrack name ->
  no_break name -> no_break t -> no_break c ->
  (forall x, In x [w; tm; loc] -> no_break x /\ ~ In ch_rbrack x) ->
  week_form U w -> time_form U tm -> place_form U loc ->
  Permutation contents [w; tm; loc] ->
  parse_course_info U (PStr (cell_text name t c contents)) =
  Some {| course_name := name; teacher := t; class_info := c;
          week_info := w; location := loc; time_info := tm |}.
Proof. apply parse_cell_text. Qed.

End Format.

Ltac absent := vm_compute; intros K; repeat (destruct K as [K|K]; [discriminate K|]); exact K.

Lemma parse_documented_format_witness :
  parse_course_info ascii_digits_only
    (PStr (cell_text (py "高等数学") (py "张老师") (py "计算机2301")
             [py "1-2节"; py "教三-301"; py "1-16周"])) =
  Some {| course_name := py "高等数学"; teacher := py "张老师";
          class_info := py "计算机2301"; week_info := py "1-16周";
          location := py "教三-301"; time_info := py "1-2节" |}.
Proof.
  apply (parse_documented_format ascii_digits_only
           (py "高等数学") (py "张老师") (py "计算机2301")
           (py "1-16周") (py "1-2节") (py "教三-301")
           [py "1-2节"; py "教三-301"; py "1-16周"]).
  - vm_compute. discriminate.
  - vm_compute. reflexivity.
  - absent.
  - split; absent.
  - split; absent.
  - split; absent.
  - intros x H. vm_compute in H.
    destruct H as [<-|[<-|[<-|[]]]]; repeat split; absent.
  - vm_compute. reflexivity.
  - split; vm_compute; reflexivity.
  - repeat split; vm_compute; reflexivity.
  - change (Permutation ([py "1-2节"; py "教三-301"] ++ [py "1-16周"])
              ([py "1-16周"] ++ [py "1-2节"; py "教三-301"])).
    apply Permutation_app_comm.
Defined.

(** ** Runs of the expander *)

Lemma iloc_in_bounds (df : DataFrame) (r c : nat) :
  (r < length df)%nat -> (forall row, In row df -> (c < length row)%nat) ->
  exists v, iloc df r c = Returned v.
Proof.
  intros Hr Hc. unfold iloc.
  destruct (nth_error df r) as [row|] eqn:E.
  - destruct (nth_error row c) as [v|] eqn:E'; [eauto|].
    apply nth_error_None in E'. apply nth_error_In in E. apply Hc in E. lia.
  - apply nth_error_None in E. lia.
Qed.

Lemma iloc_short_row (df : DataFrame) (r c : nat) (row : list pyval) :
  nth_error df r = Some row -> (length row <= c)%nat -> iloc df r c = Raised IndexError.
Proof.
  intros E H. unfold iloc. rewrite E.
  destruct (nth_error row c) eqn:E'; [|reflexivity].
  assert (nth_error row c <> None) as K by congruence.
  apply nth_error_Some in K. lia.
Qed.

Lemma iloc_raises (df : DataFrame) (r c : nat) (e : exn) :
  iloc df r c = Raised e -> e = IndexError.
Proof.
  unfold iloc. destruct (nth_error df r) as [row|]; [|congruence].
  destruct (nth_error row c); congruence.
Qed.

Section ExpanderRuns.

Variable U : unicode_tables.

(** *** The only exception of a run *)

Lemma do_column_raises (df : DataFrame) (row_idx : nat) (key : pystr)
    (clock : Z * Z * Z * Z) (col : nat) (e : exn) :
  do_column U df row_idx key clock col = Raised e -> e = IndexError.
Proof.
  unfold do_column.
  destruct (iloc df 2 col) as [weekday|x] eqn:E1;
    [|intros H; injection H as <-; eapply iloc_raises; exact E1].
  destruct (if truthy weekday then dict_get_val weekday_map weekday else None)
    as [offset|]; [|discriminate].
  destruct (iloc df row_idx col) as [cell|x] eqn:E2;
    [|intros H; injection H as <-; eapply iloc_raises; exact E2].
  destruct (negb (truthy cell) || str_eqb (strip (py_str cell)) []); [discriminate|].
  destruct (parse_course_info U cell) as [info|]; [|discriminate].
  destruct (parse_weeks U (PStr (week_info info))) as [[|w weeks] d1]; [discriminate|].
  destruct (week_loop info key offset clock (w :: weeks)). discriminate.
Qed.

Lemma column_loop_raises (df : DataFrame) (row_idx : nat) (key : pystr)
    (clock : Z * Z * Z * Z) (cols : list nat) (e : exn) :
  column_loop U df row_idx key clock cols = Raised e -> e = IndexError.
Proof.
  induction cols as [|col cols IH]; cbn [column_loop]; [discriminate|].
  destruct (do_column U df row_idx key clock col) as [[evs ds]|x] eqn:E.
  - destruct (column_loop U df row_idx key clock cols) as [[evs' ds']|y];
      [discriminate|]. intros H; injection H as <-. apply IH. reflexivity.
  - intros H; injection H as <-. eapply do_column_raises; exact E.
Qed.

Lemma do_row_raises (df : DataFrame) (row_idx : nat) (e : exn) :
  do_row U df row_idx = Raised e -> e = IndexError.
Proof.
  unfold do_row.
  destruct (iloc df row_idx 0) as [slot|x] eqn:E1;
    [|intros H; injection H as <-; eapply iloc_raises; exact E1].
  destruct (negb (truthy slot) || negb (contains txt_ordinal (py_str slot)));
    [discriminate|].
  destruct (re_search U pat_slot (py_str slot)) as [mo|]; [|discriminate].
  destruct (str_eqb (group mo 1) (group mo 2)); [discriminate|].
  destruct (dict_get class_time_map (time_key_of mo)); [|discriminate].
  apply column_loop_raises.
Qed.

Lemma row_loop_raises (df : DataFrame) (rows : list nat) (e : exn) :
  row_loop U df rows = Raised e -> e = IndexError.
Proof.
  induction rows as [|i rows IH]; cbn [row_loop]; [discriminate|].
  destruct (do_row U df i) as [[evs ds]|x] eqn:E.
  - destruct (row_loop U df rows) as [[evs' ds']|y]; [discriminate|].
    intros H; injection H as <-. apply IH. reflexivity.
  - intros H; injection H as <-. eapply do_row_raises; exact E.
Qed.

Lemma column_loop_raised_col (df : DataFrame) (row_idx : nat) (key : pystr)
    (clock : Z * Z * Z * Z) (cols : list nat) (col : nat) (e : exn) :
  In col cols -> do_column U df row_idx key clock col = Raised e ->
  column_loop U df row_idx key clock cols = Raised IndexError.
Proof.
  intros Hin Hc. induction cols as [|c cols IH]; [destruct Hin|].
  cbn [column_loop]. destruct (do_column U df row_idx key clock c) as [[evs ds]|x] eqn:E.
  - destruct Hin as [->|Hin]; [congruence|]. rewrite (IH Hin). reflexivity.
  - f_equal. eapply do_column_raises; exact E.
Qed.

Lemma row_loop_raised_row (df : DataFrame) (rows : list nat) (i : nat) (e : exn) :
  In i rows -> do_row U df i = Raised e -> row_loop U df rows = Raised IndexError.
Proof.
  intros Hin Hr. induction rows as [|j rows IH]; [destruct Hin|].
  cbn [row_loop]. destruct (do_row U df j) as [[evs ds]|x] eqn:E.
  - destruct Hin as [->|Hin]; [congruence|]. rewrite (IH Hin). reflexivity.
  - f_equal. eapply do_row_raises; exact E.
Qed.

(** *** Sheets with 8 columns or more *)

Lemma do_column_returns (df : DataFrame) (row_idx : nat) (key : pystr)
    (clock : Z * Z * Z * Z) (col : nat) :
  (2 < length df)%nat -> (row_idx < length df)%nat ->
  (forall row, In row df -> (col < length row)%nat) ->
  exists res, do_column U df row_idx key clock col = Returned res.
Proof.
  intros H2 Hr Hc. unfold do_column.
  destruct (iloc_in_bounds df 2 col H2 Hc) as [weekday ->].
  destruct (if truthy weekday then dict_get_val weekday_map weekday else None)
    as [offset|]; [|eauto].
  destruct (iloc_in_bounds df row_idx col Hr Hc) as [cell ->].
  destruct (negb (truthy cell) || str_eqb (strip (py_str cell)) []); [eauto|].
  destruct (parse_course_info U cell) as [info|]; [|eauto].
  destruct (parse_weeks U (PStr (week_info info))) as [[|w weeks] d1]; [eauto|].
  destruct (week_loop info key offset clock (w :: weeks)). eauto.
Qed.

Lemma column_loop_returns (df : DataFrame) (row_idx : nat) (key : pystr)
    (clock : Z * Z * Z * Z) (cols : list nat) :
  (2 < length df)%nat -> (row_idx < length df)%nat ->
  (forall col row, In col cols -> In row df -> (col < length row)%nat) ->
  exists res, column_loop U df row_idx key clock cols = Returned res.
Proof.
  intros H2 Hr. induction cols as [|col cols IH]; intros Hc; cbn [column_loop]; [eauto|].
  destruct (do_column_returns df row_idx key clock col H2 Hr) as [[evs ds] ->].
  { intros row Hrow. apply Hc; [left; reflexivity | exact Hrow]. }
  destruct IH as [[evs' ds'] ->]; [|eauto].
  intros c row Hcc Hrow. apply Hc; [right; exact Hcc | exact Hrow].
Qed.

Lemma do_row_returns (df : DataFrame) (row_idx : nat) :
  (2 < length df)%nat -> (row_idx < length df)%nat ->
  (forall row, In row df -> (8 <= length row)%nat) ->
  exists res, do_row U df row_idx = Returned res.
Proof.
  intros H2 Hr H8. unfold do_row.
  destruct (iloc_in_bounds df row_idx 0 Hr) as [slot ->].
  { intros row Hrow. apply H8 in Hrow. lia. }
  destruct (negb (truthy slot) || negb (contains txt_ordinal (py_str slot))); [eauto|].
  destruct (re_search U pat_slot (py_str slot)) as [mo|]; [|eauto].
  destruct (str_eqb (group mo 1) (group mo 2)); [eauto|].
  destruct (dict_get class_time_map (time_key_of mo)); [|eauto].
  apply column_loop_returns; try assumption.
  intros col row Hc Hrow. apply in_seq in Hc. apply H8 in Hrow. lia.
Qed.

Lemma row_loop_returns (df : DataFrame) (rows : list nat) :
  (forall i, In i rows -> (2 < i < length df)%nat) ->
  (forall row, In row df -> (8 <= length row)%nat) ->
  exists res, row_loop U df rows = Returned res.
Proof.
  intros Hi H8. induction rows as [|i rows IH]; cbn [row_loop]; [eauto|].
  destruct (do_row_returns df i) as [[evs ds] ->]; try assumption.
  { specialize (Hi i (or_introl eq_refl)). lia. }
  { specialize (Hi i (or_introl eq_refl)). lia. }
  destruct IH as [[evs' ds'] ->]; [|eauto].
  intros j Hj. apply Hi. right. exact Hj.
Qed.

(** X12: on a sheet whose rows all have 8 cells or more the run ends
    normally, whatever the cells hold. *)
Theorem run_completes (df : DataFrame) :
  (forall row, In row df -> (8 <= length row)%nat) ->
  exists r, create_ical_from_excel U df = Returned r.
Proof.
  intros H8. unfold create_ical_from_excel.
  destruct (row_loop_returns df (seq 3 (length df - 3))) as [[evs ds] ->]; [|exact H8|eauto].
  intros i Hi. apply in_seq in Hi. lia.
Qed.

(** The keys of the clock-range table are found again in their labels. *)
Lemma known_label (key : pystr) (clock : Z * Z * Z * Z) :
  dict_get class_time_map key = Some clock ->
  exists mo, re_search U pat_slot (txt_ordinal ++ key) = Some mo
             /\ str_eqb (group mo 1) (group mo 2) = false
             /\ time_key_of mo = key.
Proof.
  intros H. apply dict_get_In in H. cbn [map fst class_time_map] in H.
  repeat destruct H as [H|H]; try contradiction; subst key;
    eexists; (split; [vm_compute; reflexivity | split; vm_compute; reflexivity]).
Qed.

(** X13: a sheet whose header row has fewer than 8 cells ends the run with
    an [IndexError] as soon as one body row has a label of the clock-range
    table: nothing is returned and no calendar is written. *)
Theorem narrow_sheet_raises (df : DataFrame) (header : list pyval) (row_idx : nat)
    (key : pystr) (clock : Z * Z * Z * Z) :
  nth_error df 2 = Some header -> (length header < 8)%nat ->
  (3 <= row_idx < length df)%nat ->
  iloc df row_idx 0 = Returned (PStr (txt_ordinal ++ key)) ->
  dict_get class_time_map key = Some clock ->
  create_ical_from_excel U df = Raised IndexError.
Proof.
  intros Hh Hl Hr Hi Hk. unfold create_ical_from_excel.
  destruct (known_label key clock Hk) as [mo [Hs [Hg Ht]]].
  assert (exists e, do_row U df row_idx = Raised e) as [e He].
  { rewrite (do_row_label U df row_idx _ mo Hi Hs), Hg, Ht, Hk.
    exists IndexError. apply (column_loop_raised_col df row_idx key clock _ 7 IndexError).
    - apply in_seq. lia.
    - unfold do_column. rewrite (iloc_short_row df 2 7 header Hh) by lia. reflexivity. }
  rewrite (row_loop_raised_row df _ row_idx e); [reflexivity | | exact He].
  apply in_seq. lia.
Qed.

End ExpanderRuns.

(** ** The events of a run *)

Lemma dict_get_value {V : Type} (d : list (pystr * V)) (key : pystr) (v : V) :
  dict_get d key = Some v -> In v (map snd d).
Proof.
  induction d as [|[k x] d IH]; simpl; [discriminate|].
  destruct (str_eqb key k).
  - intros H; injection H as ->. left. reflexivity.
  - intros H. right. apply IH; exact H.
Qed.

Lemma week_loop_count (info : course) (key : pystr) (offset : Z)
    (clock : Z * Z * Z * Z) (weeks : list Z) :
  (length (fst (week_loop info key offset clock weeks))
   + length (snd (week_loop info key offset clock weeks)) = length weeks)%nat
  /\ Forall (fun d => d = DiagEventFailed OverflowError info)
       (snd (week_loop info key offset clock weeks)).
Proof.
  induction weeks as [|w weeks [IH1 IH2]]; [split; [reflexivity | constructor]|].
  cbn [week_loop].
  destruct (week_loop info key offset clock weeks) as [evs ds].
  rewrite make_event_spec. cbn [fst snd] in *.
  destruct (week_in_range offset w); cbn [fst snd length]; split;
    try lia; try assumption.
  constructor; [reflexivity | assumption].
Qed.

Lemma week_loop_messages (info : course) (key : pystr) (offset : Z)
    (clock : Z * Z * Z * Z) (weeks : list Z) :
  snd (week_loop info key offset clock weeks) =
  map (fun _ => DiagEventFailed OverflowError info)
    (filter (fun w => negb (week_in_range offset w)) weeks).
Proof.
  induction weeks as [|w weeks IH]; [reflexivity|].
  cbn [week_loop filter].
  destruct (week_loop info key offset clock weeks) as [evs ds].
  rewrite make_event_spec. cbn [snd] in IH.
  destruct (week_in_range offset w); cbn [negb snd map]; congruence.
Qed.

Section Events.

Variable U : unicode_tables.

Lemma do_column_shape (df : DataFrame) (row_idx : nat) (key : pystr)
    (clock : Z * Z * Z * Z) (col : nat) (evs : list event) (ds : list diag) :
  do_column U df row_idx key clock col = Returned (evs, ds) ->
  evs = [] \/
  exists (weekday : pyval) (offset : Z) (info : course) (weeks : list Z),
    iloc df 2 col = Returned weekday
    /\ dict_get_val weekday_map weekday = Some offset
    /\ evs = map (event_of info key offset clock) (filter (week_in_range offset) weeks).
Proof.
  unfold do_column.
  destruct (iloc df 2 col) as [weekday|x]; [|discriminate].
  destruct (truthy weekday);
    [|intros H; injection H as <- _; left; reflexivity].
  destruct (dict_get_val weekday_map weekday) as [offset|] eqn:Ho;
    [|intros H; injection H as <- _; left; reflexivity].
  destruct (iloc df row_idx col) as [cell|x]; [|discriminate].
  destruct (negb (truthy cell) || str_eqb (strip (py_str cell)) []);
    [intros H; injection H as <- _; left; reflexivity|].
  destruct (parse_course_info U cell) as [info|];
    [|intros H; injection H as <- _; left; reflexivity].
  destruct (parse_weeks U (PStr (week_info info))) as [[|w weeks] d1];
    [intros H; injection H as <- _; left; reflexivity|].
  pose proof (week_loop_events info key offset clock (w :: weeks)) as K.
  destruct (week_loop info key offset clock (w :: weeks)) as [evs' d2].
  intros H; injection H as <- _. right.
  exists weekday, offset, info, (w :: weeks). auto.
Qed.

Lemma do_column_events_shape (df : DataFrame) (row_idx : nat) (key : pystr)
    (clock : Z * Z * Z * Z) (col : nat) (evs : list event) (ds : list diag) :
  do_column U df row_idx key clock col = Returned (evs, ds) ->
  Forall (fun e => exists offset, In offset (map snd weekday_map)
                                  /\ event_shape e offset clock) evs.
Proof.
  intros H. apply do_column_shape in H as [->|[weekday [offset [info [weeks [_ [Ho ->]]]]]]];
    [constructor|].
  apply Forall_forall. intros e He. apply in_map_iff in He as [w [<- Hw]].
  apply filter_In in Hw as [_ Hw]. exists offset. split.
  - destruct weekday; try discriminate Ho. eapply dict_get_value; exact Ho.
  - exists info, key, w. auto.
Qed.

Lemma column_loop_events_shape (df : DataFrame) (row_idx : nat) (key : pystr)
    (clock : Z * Z * Z * Z) (cols : list nat) (evs : list event) (ds : list diag) :
  column_loop U df row_idx key clock cols = Returned (evs, ds) ->
  Forall (fun e => exists offset, In offset (map snd weekday_map)
                                  /\ event_shape e offset clock) evs.
Proof.
  revert evs ds. induction cols as [|col cols IH]; intros evs ds; cbn [column_loop].
  - intros H; injection H as <- _. constructor.
  - destruct (do_column U df row_idx key clock col) as [[e1 d1]|x] eqn:E; [|discriminate].
    destruct (column_loop U df row_idx key clock cols) as [[e2 d2]|x]; [|discriminate].
    intros H; injection H as <- _. apply Forall_app. split.
    + eapply do_column_events_shape; exact E.
    + eapply IH; reflexivity.
Qed.

Lemma do_row_events_shape (df : DataFrame) (row_idx : nat)
    (evs : list event) (ds : list diag) :
  do_row U df row_idx = Returned (evs, ds) ->
  Forall (fun e => exists offset clock,
              In offset (map snd weekday_map) /\ In clock (map snd class_time_map)
              /\ event_shape e offset clock) evs.
Proof.
  unfold do_row.
  destruct (iloc df row_idx 0) as [slot|x]; [|discriminate].
  destruct (negb (truthy slot) || negb (contains txt_ordinal (py_str slot)));
    [intros H; injection H as <- _; constructor|].
  destruct (re_search U pat_slot (py_str slot)) as [mo|];
    [|intros H; injection H as <- _; constructor].
  destruct (str_eqb (group mo 1) (group mo 2));
    [intros H; injection H as <- _; constructor|].
  destruct (dict_get class_time_map (time_key_of mo)) as [clock|] eqn:K;
    [|intros H; injection H as <- _; constructor].
  intros H. apply column_loop_events_shape in H.
  eapply Forall_impl; [|exact H]. intros e [offset [Ho He]].
  exists offset, clock. split; [exact Ho|]. split; [|exact He].
  eapply dict_get_value; exact K.
Qed.

Lemma row_loop_events_shape (df : DataFrame) (rows : list nat)
    (evs : list event) (ds : list diag) :
  row_loop U df rows = Returned (evs, ds) ->
  Forall (fun e => exists offset clock,
              In offset (map snd weekday_map) /\ In clock (map snd class_time_map)
              /\ event_shape e offset clock) evs.
Proof.
  revert evs ds. induction rows as [|i rows IH]; intros evs ds; cbn [row_loop].
  - intros H; injection H as <- _. constructor.
  - destruct (do_row U df i) as [[e1 d1]|x] eqn:E; [|discriminate].
    destruct (row_loop U df rows) as [[e2 d2]|x]; [|discriminate].
    intros H; injection H as <- _. apply Forall_app. split.
    + eapply do_row_events_shape; exact E.
    + eapply IH; reflexivity.
Qed.

(** X14: every event of a run ends on the day it starts, later than it
    starts, on a date that exists, and its times are one of the five
    clock ranges. *)
Theorem events_well_formed (df : DataFrame) (r : run) (e : event) :
  create_ical_from_excel U df = Returned r -> In e (calendar r) ->
  ordinal (dtend e) = ordinal (dtstart e)
  /\ (1 <= ordinal (dtstart e) <= MAXORDINAL)%Z
  /\ In (hour (dtstart e), minute (dtstart e), hour (dtend e), minute (dtend e))
       (map snd class_time_map)
  /\ (60 * hour (dtstart e) + minute (dtstart e)
      < 60 * hour (dtend e) + minute (dtend e))%Z.
Proof.
  unfold create_ical_from_excel.
  destruct (row_loop U df (seq 3 (length df - 3))) as [[evs ds]|x] eqn:E; [|discriminate].
  intros H He; injection H as <-. cbn [calendar] in He.
  apply row_loop_events_shape in E. rewrite Forall_forall in E.
  destruct (E e He) as [offset [clock [Ho [Hc [info [key [w [Hw ->]]]]]]]].
  destruct clock as [[[sh sm] eh] em]. cbn [event_of dtstart dtend ordinal hour minute].
  unfold week_in_range, date_in_range in Hw.
  apply andb_true_iff in Hw as [H1 H2]. apply Z.leb_le in H1, H2.
  split; [reflexivity|]. split; [lia|]. split; [exact Hc|].
  cbn [map snd class_time_map] in Hc.
  repeat destruct Hc as [Hc|Hc]; try contradiction; injection Hc as <- <- <- <-; lia.
Qed.

(** X15: the events of a column fall on the weekday that its header
    names. *)
Theorem events_on_header_weekday (df : DataFrame) (row_idx : nat) (key : pystr)
    (clock : Z * Z * Z * Z) (col : nat) (weekday : pystr) (offset : Z)
    (evs : list event) (ds : list diag) (e : event) :
  iloc df 2 col = Returned (PStr weekday) ->
  dict_get weekday_map weekday = Some offset ->
  do_column U df row_idx key clock col = Returned (evs, ds) ->
  In e evs -> weekday_of (dtstart e) = offset.
Proof.
  intros Hw Ho H He.
  apply do_column_shape in H as [->|[wd [off [info [weeks [Hw' [Ho' ->]]]]]]];
    [destruct He|].
  rewrite Hw in Hw'. injection Hw' as <-. cbn [dict_get_val] in Ho'.
  rewrite Ho in Ho'. injection Ho' as <-.
  apply in_map_iff in He as [w [<- _]].
  destruct clock as [[[sh sm] eh] em].
  unfold weekday_of. cbn [event_of dtstart ordinal]. rewrite semester_start_ordinal.
  apply dict_get_value in Ho. cbn [map snd weekday_map] in Ho.
  replace (739299 + (7 * (w - 1) + offset) + 6)%Z with (offset + (105614 + w) * 7)%Z by lia.
  rewrite Z.mod_add by lia. apply Z.mod_small.
  repeat destruct Ho as [Ho|Ho]; try contradiction; lia.
Qed.

(** *** Rows 0 and 1 *)

Lemma iloc_skip_two (r0 r1 r0' r1' : list pyval) (rest : DataFrame) (i c : nat) :
  (2 <= i)%nat -> iloc (r0 :: r1 :: rest) i c = iloc (r0' :: r1' :: rest) i c.
Proof. intros H. destruct i as [|[|i]]; [lia | lia | reflexivity]. Qed.

Lemma do_column_ext (df df' : DataFrame) (row_idx : nat) (key : pystr)
    (clock : Z * Z * Z * Z) (col : nat) :
  (forall i c, (2 <= i)%nat -> iloc df i c = iloc df' i c) -> (2 <= row_idx)%nat ->
  do_column U df row_idx key clock col = do_column U df' row_idx key clock col.
Proof.
  intros H Hr. unfold do_column. rewrite (H 2%nat col) by lia.
  rewrite (H row_idx col) by exact Hr. reflexivity.
Qed.

Lemma column_loop_ext (df df' : DataFrame) (row_idx : nat) (key : pystr)
    (clock : Z * Z * Z * Z) (cols : list nat) :
  (forall i c, (2 <= i)%nat -> iloc df i c = iloc df' i c) -> (2 <= row_idx)%nat ->
  column_loop U df row_idx key clock cols = column_loop U df' row_idx key clock cols.
Proof.
  intros H Hr. induction cols as [|col cols IH]; [reflexivity|].
  cbn [column_loop]. rewrite (do_column_ext df df') by assumption. rewrite IH. reflexivity.
Qed.

Lemma do_row_ext (df df' : DataFrame) (row_idx : nat) :
  (forall i c, (2 <= i)%nat -> iloc df i c = iloc df' i c) -> (2 <= row_idx)%nat ->
  do_row U df row_idx = do_row U df' row_idx.
Proof.
  intros H Hr. unfold do_row. rewrite (H row_idx 0%nat) by exact Hr.
  destruct (iloc df' row_idx 0) as [slot|x]; [|reflexivity].
  destruct (negb (truthy slot) || negb (contains txt_ordinal (py_str slot)));
    [reflexivity|].
  destruct (re_search U pat_slot (py_str slot)) as [mo|]; [|reflexivity].
  destruct (str_eqb (group mo 1) (group mo 2)); [reflexivity|].
  destruct (dict_get class_time_map (time_key_of mo)); [|reflexivity].
  apply column_loop_ext; assumption.
Qed.

Lemma row_loop_ext (df df' : DataFrame) (rows : list nat) :
  (forall i c, (2 <= i)%nat -> iloc df i c = iloc df' i c) ->
  (forall i, In i rows -> (2 <= i)%nat) ->
  row_loop U df rows = row_loop U df' rows.
Proof.
  intros H Hi. induction rows as [|i rows IH]; [reflexivity|].
  cbn [row_loop]. rewrite (do_row_ext df df') by (auto; apply Hi; left; reflexivity).
  rewrite IH by (intros j Hj; apply Hi; right; exact Hj). reflexivity.
Qed.

(** X16: rows 0 and 1 of the sheet are never read: two sheets that differ
    there only give the same run. *)
Theorem title_rows_ignored (r0 r1 r0' r1' : list pyval) (rest : DataFrame) :
  create_ical_from_excel U (r0 :: r1 :: rest) =
  create_ical_from_excel U (r0' :: r1' :: rest).
Proof.
  unfold create_ical_from_excel. cbn [length].
  rewrite (row_loop_ext (r0 :: r1 :: rest) (r0' :: r1' :: rest)); [reflexivity | |].
  - intros i c Hi. apply iloc_skip_two; exact Hi.
  - intros i Hi. apply in_seq in Hi. lia.
Qed.

(** X17: every week of a cell gives one event or one message, in the order
    of the weeks; a week without event does not stop the weeks after it. *)
Theorem week_loop_one_each (info : course) (key : pystr) (offset : Z)
    (clock : Z * Z * Z * Z) (weeks : list Z) :
  fst (week_loop info key offset clock weeks) =
    map (event_of info key offset clock) (filter (week_in_range offset) weeks)
  /\ snd (week_loop info key offset clock weeks) =
    map (fun _ => DiagEventFailed OverflowError info)
      (filter (fun w => negb (week_in_range offset w)) weeks)
  /\ (length (fst (week_loop info key offset clock weeks))
      + length (snd (week_loop info key offset clock weeks)) = length weeks)%nat.
Proof.
  split; [apply week_loop_events|]. split; [apply week_loop_messages|].
  apply week_loop_count.
Qed.

End Events.

(** X5: white space around a week expression changes nothing. *)
Theorem parse_weeks_strips (U : unicode_tables) (s : pystr) :
  parse_weeks U (PStr s) = parse_weeks U (PStr (strip s)).
Proof.
  assert (parse_weeks_body U (strip s) = parse_weeks_body U s) as B
    by (unfold parse_weeks_body; rewrite strip_idem; reflexivity).
  unfold parse_weeks. destruct s as [|c s]; [reflexivity|]. cbn [truthy negb].
  destruct (strip (c :: s)) as [|d t] eqn:E.
  - cbn [truthy negb]. unfold parse_weeks_body. rewrite E. reflexivity.
  - cbn [truthy negb].
    assert (strip (d :: t) = d :: t) as F by (rewrite <- E; apply strip_idem).
    rewrite B, F. reflexivity.
Qed.

Lemma run_completes_witness :
  exists r, create_ical_from_excel ascii_digits_only example_grid = Returned r.
Proof.
  apply (run_completes ascii_digits_only example_grid).
  intros row H. destruct H as [<-|[<-|[<-|[<-|[]]]]]; vm_compute; lia.
Defined.

Lemma narrow_sheet_raises_witness :
  create_ical_from_excel ascii_digits_only narrow_grid = Raised IndexError.
Proof.
  apply (narrow_sheet_raises ascii_digits_only narrow_grid (firstn 6 header_row) 3%nat
           (py "1-2节") (8, 0, 9, 50)%Z).
  - reflexivity.
  - vm_compute. lia.
  - vm_compute. lia.
  - vm_compute. reflexivity.
  - vm_compute. reflexivity.
Defined.

Lemma events_well_formed_witness :
  ordinal (dtend (event_of math_info (py "1-2节") 0 (8, 0, 9, 50)%Z 1)) =
  ordinal (dtstart (event_of math_info (py "1-2节") 0 (8, 0, 9, 50)%Z 1))
  /\ (1 <= ordinal (dtstart (event_of math_info (py "1-2节") 0 (8, 0, 9, 50)%Z 1))
      <= MAXORDINAL)%Z
  /\ In (hour (dtstart (event_of math_info (py "1-2节") 0 (8, 0, 9, 50)%Z 1)),
         minute (dtstart (event_of math_info (py "1-2节") 0 (8, 0, 9, 50)%Z 1)),
         hour (dtend (event_of math_info (py "1-2节") 0 (8, 0, 9, 50)%Z 1)),
         minute (dtend (event_of math_info (py "1-2节") 0 (8, 0, 9, 50)%Z 1)))
       (map snd class_time_map)
  /\ (60 * hour (dtstart (event_of math_info (py "1-2节") 0 (8, 0, 9, 50)%Z 1))
      + minute (dtstart (event_of math_info (py "1-2节") 0 (8, 0, 9, 50)%Z 1))
      < 60 * hour (dtend (event_of math_info (py "1-2节") 0 (8, 0, 9, 50)%Z 1))
        + minute (dtend (event_of math_info (py "1-2节") 0 (8, 0, 9, 50)%Z 1)))%Z.
Proof.
  apply (events_well_formed ascii_digits_only example_grid
           {| calendar := example_events; printed := []; event_count := 16 |}
           (event_of math_info (py "1-2节") 0 (8, 0, 9, 50)%Z 1)).
  - vm_compute. reflexivity.
  - left. reflexivity.
Defined.

Lemma events_on_header_weekday_witness :
  weekday_of (dtstart (event_of math_info (py "1-2节") 0 (8, 0, 9, 50)%Z 3)) = 0%Z.
Proof.
  apply (events_on_header_weekday ascii_digits_only example_grid 3%nat (py "1-2节")
           (8, 0, 9, 50)%Z 1%nat (py "星期一") 0%Z example_events []
           (event_of math_info (py "1-2节") 0 (8, 0, 9, 50)%Z 3)).
  - vm_compute. reflexivity.
  - vm_compute. reflexivity.
  - vm_compute. reflexivity.
  - right. right. left. reflexivity.
Defined.

(** ** From a cell to its events *)

Lemma week_in_range_between (offset a b w : Z) :
  (0 <= offset)%Z -> (1 <= a)%Z -> week_in_range offset b = true ->
  (a <= w <= b)%Z -> week_in_range offset w = true.
Proof.
  unfold week_in_range, date_in_range. rewrite semester_start_ordinal.
  unfold MAXORDINAL. intros Ho Ha Hb Hw.
  apply andb_true_iff in Hb as [H1 H2]. apply Z.leb_le in H1, H2.
  apply andb_true_iff. split; apply Z.leb_le; lia.
Qed.

(** A week of the calendar is written with few digits. *)
Lemma week_in_range_short (offset w : Z) :
  (0 <= offset)%Z -> week_in_range offset w = true -> (w < int_str_bound)%Z.
Proof.
  unfold week_in_range, date_in_range. rewrite semester_start_ordinal.
  unfold MAXORDINAL. intros Ho H.
  apply andb_true_iff in H as [_ H]. apply Z.leb_le in H.
  pose proof int_str_bound_large as K. lia.
Qed.

Lemma filter_all {A : Type} (f : A -> bool) (l : list A) :
  (forall x, In x l -> f x = true) -> filter f l = l.
Proof.
  induction l as [|x l IH]; intros H; [reflexivity|].
  cbn [filter]. rewrite (H x) by (left; reflexivity).
  f_equal. apply IH. intros y Hy. apply H. right. exact Hy.
Qed.

Lemma filter_none {A : Type} (f : A -> bool) (l : list A) :
  (forall x, In x l -> f x = true) -> filter (fun x => negb (f x)) l = [].
Proof.
  induction l as [|x l IH]; intros H; [reflexivity|].
  cbn [filter]. rewrite (H x) by (left; reflexivity).
  apply IH. intros y Hy. apply H. right. exact Hy.
Qed.

Section CellEvents.

Variable U : unicode_tables.

Lemma digits_decimal (ds : pystr) :
  forallb is_ascii_digit ds = true -> forallb (in_class U CDigit) ds = true.
Proof.
  rewrite !forallb_forall. intros H c Hc. apply is_decimal_ascii_digit. apply H. exact Hc.
Qed.

(** The range ["a-b周"] passes the week test of rule 1. *)
Lemma week_form_range (a b : Z) :
  (0 <= a)%Z -> (0 <= b)%Z -> week_form U (range_text a b ++ txt_week).
Proof.
  intros Ha Hb. destruct (str_of_int_digits a Ha) as [Da Na].
  destruct (str_of_int_digits b Hb) as [Db Nb].
  unfold week_form, re_match, match_at, pat_week, re_range, range_text, txt_week.
  rewrite <- !app_assoc. cbn [rmatch Nat.eqb app].
  erewrite (plus_greedy_run U CDigit (str_of_int a) _ _ _ _ Na (digits_decimal _ Da));
    [reflexivity | reflexivity |].
  cbn [starts_with]. unfold ch_minus. rewrite N.eqb_refl. cbn [andb length skipn].
  erewrite (plus_greedy_run U CDigit (str_of_int b) _ _ _ _ Nb (digits_decimal _ Db));
    [reflexivity | reflexivity |].
  reflexivity.
Qed.

(** The weeks of ["a-b周"]. *)
Lemma parse_weeks_range_week (a b : Z) :
  (0 <= a < int_str_bound)%Z -> (0 <= b < int_str_bound)%Z ->
  parse_weeks U (PStr (range_text a b ++ txt_week)) =
  (py_sorted (py_set (py_range a (b + 1))), []).
Proof.
  intros [Ha La] [Hb Lb]. pose proof (range_text_chars a b Ha Hb) as Hc.
  assert (forall x, (128 <= x)%N -> ~ In x (range_text a b)) as Hx
    by (intros x Hx; apply range_char_absent; assumption).
  assert (~ In ch_comma (range_text a b)) as Hcomma.
  { unfold range_text. rewrite !in_app_iff. intros [K|[K|K]].
    - revert K. apply digits_absent; [reflexivity | apply str_of_int_digits; exact Ha].
    - destruct K as [K|[]]. discriminate K.
    - revert K. apply digits_absent; [reflexivity | apply str_of_int_digits; exact Hb]. }
  unfold parse_weeks.
  assert (truthy (PStr (range_text a b ++ txt_week)) = true) as ->.
  { pose proof (range_text_nonempty a b). destruct (range_text a b); [congruence | reflexivity]. }
  cbn [negb]. unfold parse_weeks_body.
  rewrite strip_nospace.
  2:{ rewrite forallb_app, (range_char_not_space _ Hc). reflexivity. }
  unfold clean_weeks, txt_odd_week, txt_even_week, txt_week.
  rewrite !contains_absent
    by (rewrite in_app_iff; intros [K|[K|[]]]; [revert K; apply Hx; lia | discriminate K]).
  rewrite (replace_absent _ _ [] (range_text a b ++ [21608%N]))
    by (rewrite in_app_iff; intros [K|[K|[]]]; [revert K; apply Hx; lia | discriminate K]).
  rewrite (replace_absent _ _ [] (range_text a b ++ [21608%N]))
    by (rewrite in_app_iff; intros [K|[K|[]]]; [revert K; apply Hx; lia | discriminate K]).
  rewrite replace_marker_suffix by (apply Hx; lia). rewrite app_nil_r.
  rewrite split_absent by exact Hcomma. cbn [parse_parts].
  rewrite parse_part_range by (split; assumption). reflexivity.
Qed.

(** X18: a cell in the documented format whose weeks are ["a-b周"] gives
    one event for each week from [a] to [b], in order, and no message; the
    time bracket of the cell plays no part, the label of the row decides. *)
Theorem documented_cell_events (df : DataFrame) (row_idx col : nat)
    (weekday : pystr) (offset : Z) (key : pystr) (clock : Z * Z * Z * Z)
    (name t c tm loc : pystr) (contents : list pystr) (a b : Z) :
  iloc df 2 col = Returned (PStr weekday) ->
  dict_get weekday_map weekday = Some offset ->
  iloc df row_idx col = Returned (PStr (cell_text name t c contents)) ->
  name <> [] -> strip name = name -> ~ In ch_lbrack name ->
  no_break name -> no_break t -> no_break c ->
  no_break tm /\ ~ In ch_rbrack tm -> no_break loc /\ ~ In ch_rbrack loc ->
  time_form U tm -> place_form U loc ->
  Permutation contents [range_text a b ++ txt_week; tm; loc] ->
  (1 <= a <= b)%Z -> week_in_range offset b = true ->
  do_column U df row_idx key clock col =
  Returned
    (map (event_of {| course_name := name; teacher := t; class_info := c;
                      week_info := range_text a b ++ txt_week;
                      location := loc; time_info := tm |} key offset clock)
       (py_range a (b + 1)), []).
Proof.
  intros Hw Ho Hc Hne Hs Hb Bn Bt Bc Btm Bloc Ftm Floc HP Hab Hr.
  set (w := range_text a b ++ txt_week) in *.
  set (info := {| course_name := name; teacher := t; class_info := c;
                  week_info := w; location := loc; time_info := tm |}).
  assert (parse_course_info U (PStr (cell_text name t c contents)) = Some info) as Hp.
  { apply parse_cell_text; try assumption; [|apply week_form_range; lia].
    intros x [<-|[<-|[<-|[]]]]; try assumption.
    pose proof (range_text_chars a b ltac:(lia) ltac:(lia)) as Hch.
    assert (forall y, y = ch_nl \/ y = ch_cr \/ y = ch_rbrack -> ~ In y w) as K.
    { intros y Hy. unfold w. rewrite in_app_iff. intros [K|[K|[]]].
      - rewrite forallb_forall in Hch. apply Hch in K.
        apply range_char_cases in K as [K|[K|K]];
          destruct Hy as [->|[->| ->]]; try discriminate K;
          unfold ch_nl, ch_cr, ch_rbrack in K; lia.
      - destruct Hy as [->|[->| ->]]; discriminate K. }
    repeat split; apply K; auto. }
  assert (0 <= offset)%Z as Hoff.
  { apply dict_get_value in Ho. cbn [map snd weekday_map] in Ho.
    repeat destruct Ho as [Ho|Ho]; try contradiction; lia. }
  unfold do_column. rewrite Hw, (weekday_key_truthy _ _ Ho).
  cbn [dict_get_val]. rewrite Ho, Hc.
  assert (negb (truthy (PStr (cell_text name t c contents)))
          || str_eqb (strip (py_str (PStr (cell_text name t c contents)))) [] = false) as ->.
  { cbn [py_str]. unfold parse_course_info in Hp.
    destruct (negb (truthy (PStr (cell_text name t c contents)))
              || str_eqb (strip (cell_text name t c contents)) []);
      [discriminate | reflexivity]. }
  rewrite Hp. cbn [week_info info]. unfold w.
  pose proof (week_in_range_short offset b Hoff Hr) as Lb.
  rewrite parse_weeks_range_week by lia.
  rewrite sorted_set_fixed by apply py_range_strict.
  assert (forall x, In x (py_range a (b + 1)) -> week_in_range offset x = true) as Hin.
  { intros x Hx. apply In_py_range in Hx.
    apply (week_in_range_between offset a b); try assumption; lia. }
  destruct (py_range a (b + 1)) as [|x l] eqn:E.
  - exfalso. assert (In a (py_range a (b + 1))) as K by (apply In_py_range; lia).
    rewrite E in K. destruct K.
  - rewrite <- E in *.
    pose proof (week_loop_events info key offset clock (py_range a (b + 1))) as H1.
    pose proof (week_loop_messages info key offset clock (py_range a (b + 1))) as H2.
    destruct (week_loop info key offset clock (py_range a (b + 1))) as [evs ds].
    cbn [fst snd] in H1, H2. rewrite H1, H2.
    rewrite filter_all by exact Hin. rewrite filter_none by exact Hin.
    rewrite E. reflexivity.
Qed.

End CellEvents.

Lemma documented_cell_events_witness :
  do_column ascii_digits_only example_grid 3 (py "1-2节") (8, 0, 9, 50)%Z 1 =
  Returned
    (map (event_of {| course_name := py "高等数学"; teacher := py "张老师";
                      class_info := py "计算机2301";
                      week_info := range_text 1 16 ++ txt_week;
                      location := py "教三-301"; time_info := py "1-2节" |}
            (py "1-2节") 0 (8, 0, 9, 50)%Z)
       (py_range 1 (16 + 1)), []).
Proof.
  apply (documented_cell_events ascii_digits_only example_grid 3%nat 1%nat
           (py "星期一") 0%Z (py "1-2节") (8, 0, 9, 50)%Z
           (py "高等数学") (py "张老师") (py "计算机2301") (py "1-2节") (py "教三-301")
           [range_text 1 16 ++ txt_week; py "教三-301"; py "1-2节"] 1%Z 16%Z).
  - vm_compute. reflexivity.
  - vm_compute. reflexivity.
  - vm_compute. reflexivity.
  - vm_compute. discriminate.
  - vm_compute. reflexivity.
  - absent.
  - split; absent.
  - split; absent.
  - split; absent.
  - repeat split; absent.
  - repeat split; absent.
  - split; vm_compute; reflexivity.
  - repeat split; vm_compute; reflexivity.
  - apply perm_skip. apply perm_swap.
  - lia.
  - vm_compute. reflexivity.
Defined.
